(** * Black plugin subsystem: a shallow embedding and its properties

  The development follows the Python sources
    - [black/profiles.py]                      (module [Profiles])
    - [black/plugins/__init__.py]              (module [Config])
    - [black/plugins/base.py]                  (module [Base])
    - [black/plugins/registry.py]              (module [Registry])
    - [black/plugins/integration.py]           (module [Dispatch])
    - [black/plugins/examples/import_sorter.py] (module [ImportSorter])

  Python objects are modelled by records, dictionaries by [gmap] (or by
  association lists where the insertion order is observable), exceptions
  by an explicit result type, and mutable state by state passing.
  Strings are ASCII strings. *)

From Stdlib Require Import ZArith Ascii String.
From stdpp Require Import gmap strings list fin_maps.

Set Warnings "-register-all".

Local Open Scope Z_scope.

(* ===================================================================== *)
(** * Part I: the embedding *)
(* ===================================================================== *)

(** ** Python values, exceptions and results *)

Module Py.

(** The exception classes that occur in, or can reach, the modelled code.
    [UserError n] is a user-defined class deriving from [Exception]. *)
Inductive ExcClass :=
| BaseException | KeyboardInterrupt | SystemExit | GeneratorExit
| Exception | TypeError | AttributeError | ValueError | RuntimeError
| RecursionError | ImportError | ModuleNotFoundError | SyntaxError
| OSError | FileNotFoundError | PermissionError | TOMLDecodeError
| LookupError | KeyError | UnicodeError | UnicodeDecodeError
| UserError (n : string).

(** Direct base class, as in the Python exception hierarchy. *)
Definition base_class (c : ExcClass) : option ExcClass :=
  match c with
  | BaseException => None
  | KeyboardInterrupt | SystemExit | GeneratorExit => Some BaseException
  | Exception => Some BaseException
  | TypeError | AttributeError | ValueError | RuntimeError | LookupError
  | ImportError | SyntaxError | OSError | UserError _ => Some Exception
  | RecursionError => Some RuntimeError
  | ModuleNotFoundError => Some ImportError
  | FileNotFoundError | PermissionError => Some OSError
  | TOMLDecodeError | UnicodeError => Some ValueError
  | KeyError => Some LookupError
  | UnicodeDecodeError => Some UnicodeError
  end.

#[global] Instance ExcClass_eq_dec : EqDecision ExcClass.
Proof. solve_decision. Defined.

(** [issubclass c d]; no class is more than four steps below
    [BaseException]. *)
Fixpoint issubclass_upto (n : nat) (c d : ExcClass) : bool :=
  bool_decide (c = d) ||
  match n with
  | O => false
  | S n' => match base_class c with
            | Some b => issubclass_upto n' b d
            | None => false
            end
  end.

Definition issubclass : ExcClass -> ExcClass -> bool := issubclass_upto 4.

Record PyExc := mkExc { exc_class : ExcClass; exc_str : string }.

Definition isinstance (e : PyExc) (c : ExcClass) : bool :=
  issubclass (exc_class e) c.

(** The outcome of a call: a returned value or a raised exception. *)
Inductive PyResult (A : Type) :=
| Return (a : A)
| Raise (e : PyExc).
Arguments Return {A} a.
Arguments Raise {A} e.

Definition bind {A B} (r : PyResult A) (k : A -> PyResult B) : PyResult B :=
  match r with
  | Return a => k a
  | Raise e => Raise e
  end.

(** Python values as they occur in option maps, settings and TOML data.
    [VFloat lit] stands for [float(lit)], the float nearest to the decimal
    number the text denotes.  A [VDict] keeps insertion order. *)
Inductive PyVal :=
| VNone
| VBool (b : bool)
| VInt (z : Z)
| VFloat (lit : string)
| VStr (s : string)
| VList (l : list PyVal)
| VDict (d : list (string * PyVal)).

(** *** Float literals *)

(** [c.isspace()] for an ASCII character: tab to carriage return, the four
    separators 0x1c-0x1f, and the blank; and [c.isdigit()]. *)
Definition is_space (c : ascii) : bool :=
  let n := nat_of_ascii c in
  ((9 <=? n) && (n <=? 13) || (28 <=? n) && (n <=? 32))%nat.

Definition is_digit (c : ascii) : bool :=
  let n := nat_of_ascii c in ((48 <=? n) && (n <=? 57))%nat.

(** A run of digits, in which single underscores may separate digits:
    the number read so far, the count of digits, and what follows. *)
Fixpoint scan_digits (s : string) (m : Z) (n : Z) : Z * Z * string :=
  match s with
  | String c s' =>
    if is_digit c
    then scan_digits s' (10 * m + (Z.of_nat (nat_of_ascii c) - 48)) (n + 1)
    else if (c =? "_")%char then scan_digits s' m n
    else (m, n, s)
  | EmptyString => (m, n, s)
  end.

Definition skip_sign (s : string) : bool * string :=
  match s with
  | String c s' =>
    if (c =? "-")%char then (true, s')
    else if (c =? "+")%char then (false, s')
    else (false, s)
  | EmptyString => (false, s)
  end.

Fixpoint skip_spaces (s : string) : string :=
  match s with
  | EmptyString => EmptyString
  | String c s' => if is_space c then skip_spaces s' else s
  end.

(** The decimal number [m * 10 ^ e] a float literal denotes, sign apart:
    digits with an optional point and an optional exponent.  The literals
    of infinities and of not-a-number have no such form. *)
Definition float_parts (lit : string) : option (Z * Z) :=
  let '(_, s) := skip_sign (skip_spaces lit) in
  let '(m1, n1, s1) := scan_digits s 0 0 in
  let '(m2, n2, s2) :=
    match s1 with
    | String c s' => if (c =? ".")%char then scan_digits s' m1 0
                     else (m1, 0, s1)
    | EmptyString => (m1, 0, s1)
    end in
  if n1 + n2 =? 0 then None
  else
    match s2 with
    | String c s' =>
      if (c =? "e")%char || (c =? "E")%char then
        let '(negative, s3) := skip_sign s' in
        let '(x, nx, s4) := scan_digits s3 0 0 in
        if (nx =? 0) || negb (skip_spaces s4 =? "")%string then None
        else Some (m2, (if negative then - x else x) - n2)
      else if (skip_spaces s2 =? "")%string then Some (m2, - n2) else None
    | EmptyString => Some (m2, - n2)
    end.

(** [float(lit) == 0]: the number is zero, or so small that it rounds to
    zero.  The smallest positive float is [2 ^ -1074], and a number of at
    most half of that is rounded to zero. *)
Definition float_is_zero (lit : string) : bool :=
  match float_parts lit with
  | Some (m, e) => (m =? 0) || (e <? 0) && (m * 2 ^ 1075 <=? 10 ^ (- e))
  | None => false
  end.

(** Truth value of an object ([bool(v)]). *)
Definition truthy (v : PyVal) : bool :=
  match v with
  | VNone => false
  | VBool b => b
  | VInt z => negb (z =? 0)
  | VFloat lit => negb (float_is_zero lit)
  | VStr s => negb (s =? "")%string
  | VList l => match l with [] => false | _ => true end
  | VDict d => match d with [] => false | _ => true end
  end.

(** Primitive (scalar) values. *)
Definition primitive (v : PyVal) : bool :=
  match v with
  | VBool _ | VInt _ | VFloat _ | VStr _ => true
  | _ => false
  end.

(** [d.get(k)] and [k in d] on an insertion-ordered dictionary. *)
Fixpoint dict_get (d : list (string * PyVal)) (k : string) : option PyVal :=
  match d with
  | [] => None
  | (k', v) :: d' => if (k' =? k)%string then Some v else dict_get d' k
  end.

(** *** String methods (on ASCII strings) *)

Definition lower_char (c : ascii) : ascii :=
  let n := nat_of_ascii c in
  if ((65 <=? n) && (n <=? 90))%nat then ascii_of_nat (n + 32) else c.

(** [s.lower()]. *)
Fixpoint lower (s : string) : string :=
  match s with
  | EmptyString => EmptyString
  | String c s' => String (lower_char c) (lower s')
  end.

Fixpoint lstrip (s : string) : string :=
  match s with
  | EmptyString => EmptyString
  | String c s' => if is_space c then lstrip s' else s
  end.

Fixpoint rstrip (s : string) : string :=
  match s with
  | EmptyString => EmptyString
  | String c s' =>
    let r := rstrip s' in
    if is_space c && (r =? "")%string then EmptyString else String c r
  end.

(** [s.strip()]. *)
Definition strip (s : string) : string := rstrip (lstrip s).

Fixpoint all_chars (f : ascii -> bool) (s : string) : bool :=
  match s with
  | EmptyString => true
  | String c s' => f c && all_chars f s'
  end.

(** [s.isdigit()]: at least one character, and all of them digits. *)
Definition isdigit (s : string) : bool :=
  negb (s =? "")%string && all_chars is_digit s.

(** [c in s] for a one-character string [c]. *)
Fixpoint contains_char (c : ascii) (s : string) : bool :=
  match s with
  | EmptyString => false
  | String a s' => (a =? c)%char || contains_char c s'
  end.

(** [s.count(c)] for a one-character string [c]. *)
Fixpoint count_char (c : ascii) (s : string) : nat :=
  match s with
  | EmptyString => O
  | String a s' => ((if (a =? c)%char then 1 else 0) + count_char c s')%nat
  end.

(** [s.replace(c, "", 1)]: drop the first occurrence of [c]. *)
Fixpoint remove_first (c : ascii) (s : string) : string :=
  match s with
  | EmptyString => EmptyString
  | String a s' => if (a =? c)%char then s' else String a (remove_first c s')
  end.

(** The two parts of [s.split(c, 1)] when [c] occurs in [s]. *)
Fixpoint partition_on (c : ascii) (s : string) : option (string * string) :=
  match s with
  | EmptyString => None
  | String a s' =>
    if (a =? c)%char then Some (EmptyString, s')
    else match partition_on c s' with
         | Some (h, t) => Some (String a h, t)
         | None => None
         end
  end.

(** [s.split(c)]: never empty. *)
Fixpoint split_on (c : ascii) (s : string) : list string :=
  match s with
  | EmptyString => [EmptyString]
  | String a s' =>
    if (a =? c)%char then EmptyString :: split_on c s'
    else match split_on c s' with
         | h :: t => String a h :: t
         | [] => [String a EmptyString]
         end
  end.

(** [s.startswith(p)]. *)
Fixpoint startswith (s p : string) : bool :=
  match p with
  | EmptyString => true
  | String a p' =>
    match s with
    | EmptyString => false
    | String b s' => (a =? b)%char && startswith s' p'
    end
  end.

(** [sub in s] for strings. *)
Fixpoint contains (s sub : string) : bool :=
  startswith s sub ||
  match s with
  | EmptyString => false
  | String _ s' => contains s' sub
  end.

(** [int(s)] for a string of digits. *)
Definition int_of_digits (s : string) : Z :=
  fold_left (fun acc c => 10 * acc + (Z.of_nat (nat_of_ascii c) - 48))
            (list_ascii_of_string s) 0.

End Py.

Export Py.

(** Sequencing of calls that may raise, with stdpp's [x ← c; k]. *)
#[global] Instance PyResult_ret : MRet PyResult := @Return.
#[global] Instance PyResult_bind : MBind PyResult :=
fun A B k r => Py.bind r k.

(** ** black/profiles.py *)

Module Profiles.

(** [@dataclass class ConfigurationProfile]. *)
Record ConfigurationProfile := mkProfile {
  name : string;
  description : string;
  version : string;
  settings : gmap string PyVal;
  parent : option string
}.

(** [class ProfileRegistry]: the [profiles] dictionary and the three
    directories. *)
Record ProfileRegistry := mkRegistry {
  profiles : gmap string ConfigurationProfile;
  system_profiles_dir : string;
  user_profiles_dir : string;
  project_profiles_dir : option string
}.

(** [ProfileRegistry.get_profile]: [self.profiles.get(name)]. *)
Definition get_profile (self : ProfileRegistry) (n : string)
  : option ConfigurationProfile :=
  profiles self !! n.

(** [ProfileRegistry.add_profile]: [self.profiles[profile.name] = profile]. *)
Definition add_profile (self : ProfileRegistry) (p : ConfigurationProfile)
  : ProfileRegistry :=
  mkRegistry (<[name p := p]> (profiles self)) (system_profiles_dir self)
             (user_profiles_dir self) (project_profiles_dir self).

(** Truth value of [self.parent]: neither [None] nor the empty string. *)
Definition parent_name (self : ConfigurationProfile) : option string :=
  match parent self with
  | Some n => if (n =? "")%string then None else Some n
  | None => None
  end.

(** [ConfigurationProfile.get_effective_configuration].  The first argument
    bounds how deeply the function may still call itself: the interpreter
    raises [RecursionError] when its stack is exhausted, and since the stack
    also holds the frames of the callers and of [get_profile], the bound is
    somewhat below the interpreter's recursion limit.  [profiles_registry]
    is [None] when the argument is omitted.  [config.update(self.settings)]
    is the union in which the profile's own entries win. *)
Fixpoint get_effective_configuration (depth : nat)
    (self : ConfigurationProfile) (profiles_registry : option ProfileRegistry)
  : PyResult (gmap string PyVal) :=
  match depth with
  | O => Raise (mkExc RecursionError "maximum recursion depth exceeded")
  | S depth' =>
    match parent_name self, profiles_registry with
    | Some pn, Some reg =>
      match get_profile reg pn with
      | Some parent_profile =>
        config ← get_effective_configuration depth' parent_profile
                    profiles_registry;
        Return (settings self ∪ config)
      | None => Return (settings self)
      end
    | _, _ => Return (settings self)
    end
  end.

(** [ConfigurationProfile.to_dict]. *)
Definition to_dict (self : ConfigurationProfile) : PyVal :=
  VDict [ ("name", VStr (name self));
          ("description", VStr (description self));
          ("version", VStr (version self));
          ("settings", VDict (map_to_list (settings self)));
          ("parent", match parent self with
                     | Some p => VStr p
                     | None => VNone
                     end) ].

(** [BUILTIN_PROFILES]. *)
Definition builtin_default : ConfigurationProfile :=
  mkProfile "default" "Black's default settings" "1.0"
    (<["line_length" := VInt 88]>
     (<["target_version" := VList [VStr "py38"]]>
     (<["skip_string_normalization" := VBool false]>
     (<["skip_magic_trailing_comma" := VBool false]> ∅))))
    None.

Definition builtin_pycharm : ConfigurationProfile :=
  mkProfile "pycharm" "Profile compatible with PyCharm defaults" "1.0"
    (<["line_length" := VInt 120]>
     (<["skip_string_normalization" := VBool true]> ∅))
    (Some "default").

Definition builtin_vscode : ConfigurationProfile :=
  mkProfile "vscode" "Profile compatible with VS Code defaults" "1.0"
    (<["line_length" := VInt 100]> ∅)
    (Some "default").

Definition builtin_google : ConfigurationProfile :=
  mkProfile "google" "Profile following Google Python Style Guide" "1.0"
    (<["line_length" := VInt 80]>
     (<["target_version" := VList [VStr "py38"]]>
     (<["skip_string_normalization" := VBool true]> ∅)))
    None.

Definition builtin_compact : ConfigurationProfile :=
  mkProfile "compact" "Compact formatting with shorter line length" "1.0"
    (<["line_length" := VInt 79]>
     (<["skip_magic_trailing_comma" := VBool true]> ∅))
    (Some "default").

Definition BUILTIN_PROFILES : list ConfigurationProfile :=
  [builtin_default; builtin_pycharm; builtin_vscode; builtin_google;
   builtin_compact].

(** [tomli_w.dump] writes tables, arrays and scalars; TOML has no null,
    and the writer raises [TypeError] when it reaches a [None]. *)
Fixpoint toml_writable (v : PyVal) : bool :=
  match v with
  | VNone => false
  | VList l => forallb toml_writable l
  | VDict d => forallb (fun entry => toml_writable entry.2) d
  | _ => true
  end.

Definition not_serializable : PyExc :=
  mkExc TypeError "Object of type <class 'NoneType'> is not TOML serializable".

(** What lies outside the module: the registry a fresh [ProfileRegistry()]
    holds once [__init__] has read the profile directories; whether a file
    can be opened for writing ([None]) or [mkdir]/[open] raise; and the
    writes of [tomli_w.dump] to the open file: whether they succeed, and the
    text that reaches the file. *)
Record Host := mkHost {
  fresh_registry : ProfileRegistry;
  open_wb : string -> option PyExc;
  tomli_w_dump : PyVal -> PyResult unit * string
}.

(** The module state: the global [_registry] and the files written. *)
Record World := mkWorld {
  _registry : option ProfileRegistry;
  files : gmap string string
}.

(** [ProfileRegistry.save_profile]: choose the directory, serialise
    [{"profile": profile.to_dict()}] and write it; returns the path.  The
    call raises when a write fails, and [TypeError] when the document holds
    a [None]. *)
Definition registry_save_profile (h : Host) (self : ProfileRegistry)
    (p : ConfigurationProfile) (location : string)
    (fs : gmap string string) : PyResult string * gmap string string :=
  let target_dir :=
    if (location =? "system")%string then system_profiles_dir self
    else match (location =? "project")%string, project_profiles_dir self with
         | true, Some d => d
         | _, _ => user_profiles_dir self
         end in
  let file_path := target_dir +:+ "/" +:+ name p +:+ ".toml" in
  match open_wb h file_path with
  | Some e => (Raise e, fs)
  | None =>
    let document := VDict [("profile", to_dict p)] in
    let '(written, text) := tomli_w_dump h document in
    (_ ← written;
     if toml_writable document then Return file_path
     else Raise not_serializable,
     <[file_path := text]> fs)
  end.

(** [get_registry]: create the registry on first use and add the built-in
    profiles to it. *)
Definition get_registry (h : Host) (w : World) : ProfileRegistry * World :=
  match _registry w with
  | Some reg => (reg, w)
  | None =>
    let reg := foldl add_profile (fresh_registry h) BUILTIN_PROFILES in
    (reg, mkWorld (Some reg) (files w))
  end.

(** [load_profile(name)]. *)
Definition load_profile (h : Host) (depth : nat) (n : string) (w : World)
  : PyResult (option (gmap string PyVal)) * World :=
  let '(registry, w1) := get_registry h w in
  match get_profile registry n with
  | Some profile =>
    (config ← get_effective_configuration depth profile (Some registry);
     Return (Some config), w1)
  | None => (Return None, w1)
  end.

(** [save_profile(name, description, settings, parent, location)]: the
    profile is added to the registry before it is written. *)
Definition save_profile (h : Host) (n d : string)
    (s : gmap string PyVal) (par : option string) (location : string)
    (w : World) : PyResult bool * World :=
  let '(registry, w1) := get_registry h w in
  let profile := mkProfile n d "1.0" s par in
  let registry' := add_profile registry profile in
  let '(r, fs') := registry_save_profile h registry' profile location
                     (files w1) in
  (_ ← r; Return true, mkWorld (Some registry') fs').

(** [save_profile(...)] followed by [load_profile(name)]: the second call
    is made when the first has returned. *)
Definition save_then_load (h : Host) (depth : nat) (n d : string)
    (s : gmap string PyVal) (par : option string) (location : string)
    (w : World) : PyResult (option (gmap string PyVal)) :=
  let '(saved, w1) := save_profile h n d s par location w in
  _ ← saved; (load_profile h depth n w1).1.

(** *** Notions used in the statements *)

(** The parent a profile resolves to in a registry, if any. *)
Definition resolved_parent (reg : ProfileRegistry) (p : ConfigurationProfile)
  : option ConfigurationProfile :=
  match parent_name p with
  | Some pn => get_profile reg pn
  | None => None
  end.

(** [effective reg p c]: with enough stack, the call returns [c]. *)
Definition effective (reg : ProfileRegistry) (p : ConfigurationProfile)
    (c : gmap string PyVal) : Prop :=
  ∃ depth, get_effective_configuration depth p (Some reg) = Return c.

(** The registry of the worked example: A, B (parent A), C (parent B). *)
Definition profile_A : ConfigurationProfile :=
  mkProfile "A" "" "1.0" (<["line_length" := VInt 88]> ∅) None.
Definition profile_B : ConfigurationProfile :=
  mkProfile "B" "" "1.0" (<["line_length" := VInt 120]> ∅) (Some "A").
Definition profile_C : ConfigurationProfile :=
  mkProfile "C" "" "1.0" (<["skip_string_normalization" := VBool true]> ∅)
            (Some "B").
Definition registry_ABC : ProfileRegistry :=
  foldl add_profile (mkRegistry ∅ "sys" "usr" None)
        [profile_A; profile_B; profile_C].

(** A host with no profile files, on which every write succeeds, and the
    state of a process that has not used the registry yet. *)
Definition quiet_host : Host :=
  mkHost (mkRegistry ∅ "sys" "usr" None) (fun _ => None)
         (fun _ => (Return (), "")).
Definition initial_world : World := mkWorld None ∅.

(** The round trip read literally: what is loaded is what was saved. *)
Definition roundtrip_as_claimed (h : Host) (n d : string)
    (s : gmap string PyVal) (par : option string) (location : string)
    (w : World) : Prop :=
  (∀ k v, s !! k = Some v → primitive v = true) →
  ∃ depth, save_then_load h depth n d s par location w = Return (Some s).

(** *** Further functions of the module *)

(** Reading a field of the dictionary into the type the dataclass declares
    for it; [None] when the value has another type, which the record cannot
    hold. *)
Definition str_field (dflt : string) (v : option PyVal) : option string :=
  match v with
  | None => Some dflt
  | Some (VStr s) => Some s
  | Some _ => None
  end.

Definition settings_field (v : option PyVal) : option (gmap string PyVal) :=
  match v with
  | None => Some ∅
  | Some (VDict d) => Some (list_to_map d)
  | Some _ => None
  end.

Definition parent_field (v : option PyVal) : option (option string) :=
  match v with
  | None | Some VNone => Some None
  | Some (VStr s) => Some (Some s)
  | Some _ => None
  end.

(** [ConfigurationProfile.from_dict]: absent keys take the defaults
    [""], [""], ["1.0"], [{}] and [None]. *)
Definition from_dict (data : list (string * PyVal))
  : option ConfigurationProfile :=
  n ← str_field "" (dict_get data "name");
  d ← str_field "" (dict_get data "description");
  v ← str_field "1.0" (dict_get data "version");
  s ← settings_field (dict_get data "settings");
  p ← parent_field (dict_get data "parent");
  Some (mkProfile n d v s p).

(** [p, parent of p, ...] up to the first profile whose parent does not
    resolve. *)
Inductive parent_chain (reg : ProfileRegistry)
  : ConfigurationProfile -> list ConfigurationProfile -> Prop :=
| chain_root p :
    resolved_parent reg p = None -> parent_chain reg p [p]
| chain_step p q l :
    resolved_parent reg p = Some q -> parent_chain reg q l ->
    parent_chain reg p (p :: l).

(** A profile that names itself as its parent. *)
Definition profile_loop : ConfigurationProfile :=
  mkProfile "loop" "" "1.0" (<["line_length" := VInt 1]> ∅) (Some "loop").
Definition registry_loop : ProfileRegistry :=
  add_profile (mkRegistry ∅ "sys" "usr" None) profile_loop.

End Profiles.

(** ** black/plugins/__init__.py *)

Module Config.

(** [class PluginState(Enum)]. *)
Inductive PluginState := ENABLED | DISABLED | DEFAULT.

(** [@dataclass class PluginConfig]. *)
Record PluginConfig := mkPluginConfig {
  name : string;
  state : PluginState;
  options : gmap string PyVal;
  version_requirement : option PyVal
}.

(** [PluginConfig(name=n)]. *)
Definition new_plugin_config (n : string) : PluginConfig :=
  mkPluginConfig n DEFAULT ∅ None.

(** [@dataclass class PluginsConfig].  The three global fields receive
    manifest values as they are, without a type check. *)
Record PluginsConfig := mkPluginsConfig {
  plugin_configs : gmap string PluginConfig;
  discovery_paths : PyVal;
  disable_all : PyVal;
  enable_by_default : PyVal
}.

(** [PluginsConfig()]. *)
Definition default_plugins_config : PluginsConfig :=
  mkPluginsConfig ∅ (VList []) (VBool false) (VBool true).

(** What the manager reaches outside itself: [Path.cwd()] (the components
    of the working directory, innermost first), [Path(p).exists()], the
    outcome of [open(p, "rb")] followed by [tomli.load(f)], and the
    interpreter's limit on the digits of an integer conversion
    ([sys.get_int_max_str_digits()], 4300 unless it was changed; 0 switches
    the limit off).  The first two raise [OSError] for a working directory
    that has been removed or a directory that may not be searched. *)
Record Host := mkHost {
  cwd : PyResult (list string);
  path_exists : string -> PyResult bool;
  read_toml : string -> PyResult (list (string * PyVal));
  int_max_str_digits : nat
}.

(** [str(path)] of an absolute path given by its components. *)
Definition path_str (components : list string) : string :=
  match components with
  | [] => "/"
  | _ => foldl (fun acc c => acc +:+ "/" +:+ c) "" (rev components)
  end.

(** The upward search: every directory from the working directory up to,
    but not including, the root is tried. *)
Fixpoint find_pyproject (h : Host) (current_dir : list string)
  : PyResult (option string) :=
  match current_dir with
  | [] => Return None
  | _ :: parent_dir =>
    let pyproject_path := path_str ("pyproject.toml" :: current_dir) in
    found ← path_exists h pyproject_path;
    if found : bool then Return (Some pyproject_path)
    else find_pyproject h parent_dir
  end.

(** [v.get(k, {})]: only a dictionary has the method. *)
Definition get_or_empty (v : PyVal) (k : string) : PyResult PyVal :=
  match v with
  | VDict d => Return (default (VDict []) (dict_get d k))
  | _ => Raise (mkExc AttributeError "object has no attribute 'get'")
  end.

(** [k in v] for a string [k]: a key of a dictionary, a substring of a
    string, an element of a list. *)
Definition py_in (k : string) (v : PyVal) : PyResult bool :=
  match v with
  | VDict d => Return (match dict_get d k with Some _ => true | None => false end)
  | VStr s => Return (contains s k)
  | VList l => Return (existsb (fun x => match x with
                                         | VStr s => (s =? k)%string
                                         | _ => false
                                         end) l)
  | _ => Raise (mkExc TypeError "argument is not iterable")
  end.

(** [v[k]] for a string [k]. *)
Definition py_getitem (v : PyVal) (k : string) : PyResult PyVal :=
  match v with
  | VDict d => match dict_get d k with
               | Some x => Return x
               | None => Raise (mkExc KeyError k)
               end
  | VStr _ => Raise (mkExc TypeError "string indices must be integers")
  | VList _ => Raise (mkExc TypeError "list indices must be integers or slices")
  | _ => Raise (mkExc TypeError "object is not subscriptable")
  end.

(** [v.items()]. *)
Definition py_items (v : PyVal) : PyResult (list (string * PyVal)) :=
  match v with
  | VDict d => Return d
  | _ => Raise (mkExc AttributeError "object has no attribute 'items'")
  end.

Definition state_of_flag (v : PyVal) : PluginState :=
  if truthy v then ENABLED else DISABLED.

(** The body of the loop over the manifest's plugin entries. *)
Definition plugin_config_of_entry (plugin_name : string) (config : PyVal)
  : PluginConfig :=
  match config with
  | VDict d =>
    mkPluginConfig plugin_name
      (match dict_get d "enabled" with
       | Some v => state_of_flag v
       | None => DEFAULT
       end)
      (match dict_get d "options" with
       | Some (VDict o) => list_to_map o
       | _ => ∅
       end)
      (dict_get d "version")
  | VBool b => mkPluginConfig plugin_name (state_of_flag (VBool b)) ∅ None
  | _ => new_plugin_config plugin_name
  end.

Definition is_global_key (k : string) : bool :=
  (k =? "discovery_paths")%string || (k =? "disable_all")%string
  || (k =? "enable_by_default")%string.

Definition load_entries (entries : list (string * PyVal))
    (configs : gmap string PluginConfig) : gmap string PluginConfig :=
  foldl (fun acc '(plugin_name, config) =>
           if is_global_key plugin_name then acc
           else <[plugin_name := plugin_config_of_entry plugin_name config]> acc)
        configs entries.

Definition with_plugin_configs (cfg : PluginsConfig)
    (configs : gmap string PluginConfig) : PluginsConfig :=
  mkPluginsConfig configs (discovery_paths cfg) (disable_all cfg)
                  (enable_by_default cfg).

Definition set_discovery_paths (cfg : PluginsConfig) (v : PyVal)
  : PluginsConfig :=
  mkPluginsConfig (plugin_configs cfg) v (disable_all cfg)
                  (enable_by_default cfg).

Definition set_disable_all (cfg : PluginsConfig) (v : PyVal) : PluginsConfig :=
  mkPluginsConfig (plugin_configs cfg) (discovery_paths cfg) v
                  (enable_by_default cfg).

Definition set_enable_by_default (cfg : PluginsConfig) (v : PyVal)
  : PluginsConfig :=
  mkPluginsConfig (plugin_configs cfg) (discovery_paths cfg) (disable_all cfg)
                  v.

(** A statement that works on the manager's configuration in place: its
    outcome and the configuration it leaves. *)
Definition Step := PluginsConfig -> PyResult () * PluginsConfig.

(** One statement after the other; an exception ends the sequence and
    leaves the configuration as it is at that point. *)
Definition and_then (first next : Step) : Step :=
  fun cfg =>
    match first cfg with
    | (Return _, cfg') => next cfg'
    | (Raise e, cfg') => (Raise e, cfg')
    end.

(** [if k in plugins_config: self.plugins_config.<field> =
    plugins_config[k]]. *)
Definition set_global (k : string) (plugins_config : PyVal)
    (assign : PluginsConfig -> PyVal -> PluginsConfig) : Step :=
  fun cfg =>
    match py_in k plugins_config with
    | Raise e => (Raise e, cfg)
    | Return false => (Return (), cfg)
    | Return true =>
      match py_getitem plugins_config k with
      | Raise e => (Raise e, cfg)
      | Return v => (Return (), assign cfg v)
      end
    end.

(** [for plugin_name, config in plugins_config.items(): ...]. *)
Definition set_entries (plugins_config : PyVal) : Step :=
  fun cfg =>
    match py_items plugins_config with
    | Raise e => (Raise e, cfg)
    | Return entries =>
      (Return (),
       with_plugin_configs cfg (load_entries entries (plugin_configs cfg)))
    end.

(** The statements of the [try] block that follow [tomli.load], in their
    order. *)
Definition apply_manifest (pyproject_data : list (string * PyVal)) : Step :=
  fun cfg =>
    match tool ← get_or_empty (VDict pyproject_data) "tool";
          black_config ← get_or_empty tool "black";
          get_or_empty black_config "plugins" with
    | Raise e => (Raise e, cfg)
    | Return plugins_config =>
      and_then (set_global "discovery_paths" plugins_config
                           set_discovery_paths)
        (and_then (set_global "disable_all" plugins_config set_disable_all)
           (and_then (set_global "enable_by_default" plugins_config
                                 set_enable_by_default)
                     (set_entries plugins_config))) cfg
    end.

(** The path to load: the one given, or the one the search finds.  The
    search stands before the [try]. *)
Definition chosen_path (h : Host) (path : option string)
  : PyResult (option string) :=
  match path with
  | None => current_dir ← cwd h; find_pyproject h current_dir
  | Some p => Return (Some p)
  end.

Definition load_error_line (e : PyExc) : string :=
  "Error loading pyproject.toml: " +:+ exc_str e.

(** [except (tomli.TOMLDecodeError, OSError)]. *)
Definition load_handler_catches (e : PyExc) : bool :=
  isinstance e TOMLDecodeError || isinstance e OSError.

(** The [try] statement: an exception of the two classes is printed, any
    other leaves the call. *)
Definition try_load (h : Host) (p : string) (cfg : PluginsConfig)
  : PyResult () * PluginsConfig * list string :=
  let '(r, cfg') :=
    match read_toml h p with
    | Raise e => (Raise e, cfg)
    | Return pyproject_data => apply_manifest pyproject_data cfg
    end in
  match r with
  | Return _ => (Return (), cfg', [])
  | Raise e =>
    if load_handler_catches e then (Return (), cfg', [load_error_line e])
    else (Raise e, cfg', [])
  end.

(** [ConfigurationManager.load_from_pyproject].  The state is the
    manager's [plugins_config]; the third component is what the call
    prints on standard error. *)
Definition load_from_pyproject (h : Host) (path : option string)
    (cfg : PluginsConfig) : PyResult () * PluginsConfig * list string :=
  match chosen_path h path with
  | Raise e => (Raise e, cfg, [])
  | Return None => (Return (), cfg, [])
  | Return (Some p) =>
    if (p =? "")%string then (Return (), cfg, [])
    else
      match path_exists h p with
      | Raise e => (Raise e, cfg, [])
      | Return false => (Return (), cfg, [])
      | Return true => try_load h p cfg
      end
  end.

(** The command-line namespace.  An absent attribute, [None] and the
    empty list are all skipped by the guards, so the two repeatable flags
    are lists and [--plugin-config] is an option. *)
Record CliArgs := mkCliArgs {
  disable_all_plugins : bool;
  plugin_config : option string;
  plugin : list string;
  disable_plugin : list string
}.

(** [int(value)] for a string of digits: [ValueError] when the string has
    more digits than the interpreter converts.  The interpreter looks at its
    limit only for strings of more than 640 digits. *)
Definition int_of_string (h : Host) (value : string) : PyResult PyVal :=
  if (640 <? String.length value)%nat
     && (0 <? int_max_str_digits h)%nat
     && (int_max_str_digits h <? String.length value)%nat
  then Raise (mkExc ValueError
                "Exceeds the limit for integer string conversion")
  else Return (VInt (int_of_digits value)).

(** The conversion of an option value given on the command line. *)
Definition convert_value (h : Host) (value : string) : PyResult PyVal :=
  if (lower value =? "true")%string then Return (VBool true)
  else if (lower value =? "false")%string then Return (VBool false)
  else if isdigit value then int_of_string h value
  else if isdigit (remove_first "." value)
          && (count_char "." value <=? 1)%nat then Return (VFloat value)
  else Return (VStr value).

(** One [k=v] pair: pairs without [=] are skipped. *)
Definition parse_pair (h : Host) (item : string)
  : PyResult (option (string * PyVal)) :=
  match partition_on "=" item with
  | Some (key, value) =>
    v ← convert_value h (strip value); Return (Some (strip key, v))
  | None => Return None
  end.

(** [plugin_spec.split(":", 1)]: the name and, when there is a non-empty
    second part, its comma-separated pairs. *)
Definition spec_name (plugin_spec : string) : string :=
  match partition_on ":" plugin_spec with
  | Some (n, _) => strip n
  | None => strip plugin_spec
  end.

Definition option_pairs (plugin_spec : string) : list string :=
  match partition_on ":" plugin_spec with
  | Some (_, rest) => if (rest =? "")%string then [] else split_on "," rest
  | None => []
  end.

Definition get_or_create (n : string) (configs : gmap string PluginConfig)
  : PluginConfig :=
  default (new_plugin_config n) (configs !! n).

Definition set_state (s : PluginState) (pc : PluginConfig) : PluginConfig :=
  mkPluginConfig (name pc) s (options pc) (version_requirement pc).

Definition set_option (pc : PluginConfig) (kv : string * PyVal)
  : PluginConfig :=
  mkPluginConfig (name pc) (state pc) (<[kv.1 := kv.2]> (options pc))
                 (version_requirement pc).

(** The loop over the option pairs.  The plugin configuration is changed
    in place, so the options assigned before a conversion raises stay
    assigned. *)
Fixpoint set_options (h : Host) (pc : PluginConfig)
    (option_pairs : list string) : PyResult () * PluginConfig :=
  match option_pairs with
  | [] => (Return (), pc)
  | item :: rest =>
    match parse_pair h item with
    | Return (Some kv) => set_options h (set_option pc kv) rest
    | Return None => set_options h pc rest
    | Raise e => (Raise e, pc)
    end
  end.

(** The body of the loop over [cli_args.plugin]. *)
Definition enable_from_spec (h : Host) (configs : gmap string PluginConfig)
    (plugin_spec : string) : PyResult () * gmap string PluginConfig :=
  let plugin_name := spec_name plugin_spec in
  let plugin_config := set_state ENABLED (get_or_create plugin_name configs) in
  let '(r, plugin_config') :=
    set_options h plugin_config (option_pairs plugin_spec) in
  (r, <[plugin_name := plugin_config']> configs).

(** The loop over [cli_args.plugin]. *)
Fixpoint enable_specs (h : Host) (configs : gmap string PluginConfig)
    (specs : list string) : PyResult () * gmap string PluginConfig :=
  match specs with
  | [] => (Return (), configs)
  | plugin_spec :: rest =>
    match enable_from_spec h configs plugin_spec with
    | (Return _, configs') => enable_specs h configs' rest
    | (Raise e, configs') => (Raise e, configs')
    end
  end.

(** The body of the loop over [cli_args.disable_plugin]. *)
Definition disable_by_name (configs : gmap string PluginConfig)
    (plugin_name : string) : gmap string PluginConfig :=
  <[plugin_name := set_state DISABLED (get_or_create plugin_name configs)]>
    configs.

(** The part of [update_from_cli] after the manifest has been reloaded:
    the [--plugin] loop, then the [--disable-plugin] loop. *)
Definition apply_cli_specs (h : Host) (cli_args : CliArgs) : Step :=
  fun cfg =>
    match enable_specs h (plugin_configs cfg) (plugin cli_args) with
    | (Return _, configs) =>
      (Return (),
       with_plugin_configs cfg
         (foldl disable_by_name configs (disable_plugin cli_args)))
    | (Raise e, configs) => (Raise e, with_plugin_configs cfg configs)
    end.

(** The first two steps of [update_from_cli]: the global flag, then the
    reload from [--plugin-config]. *)
Definition reload_manifest (h : Host) (cli_args : CliArgs)
    (cfg : PluginsConfig) : PyResult () * PluginsConfig * list string :=
  let cfg1 :=
    if disable_all_plugins cli_args then set_disable_all cfg (VBool true)
    else cfg in
  match plugin_config cli_args with
  | Some p => if (p =? "")%string then (Return (), cfg1, [])
              else load_from_pyproject h (Some p) cfg1
  | None => (Return (), cfg1, [])
  end.

(** [ConfigurationManager.update_from_cli]. *)
Definition update_from_cli (h : Host) (cli_args : CliArgs)
    (cfg : PluginsConfig) : PyResult () * PluginsConfig * list string :=
  let '(r, cfg2, err) := reload_manifest h cli_args cfg in
  match r with
  | Return _ =>
    let '(r', cfg3) := apply_cli_specs h cli_args cfg2 in (r', cfg3, err)
  | Raise e => (Raise e, cfg2, err)
  end.

(** *** Notions used in the statements *)

(** The resolved state of a plugin name in a configuration. *)
Definition state_of (cfg : PluginsConfig) (n : string) : option PluginState :=
  state <$> plugin_configs cfg !! n.

(** The pairs of a spec that carry a value, converted. *)
Definition parsed_pair (h : Host) (item : string) : option (string * PyVal) :=
  match parse_pair h item with
  | Return (Some kv) => Some kv
  | _ => None
  end.

Definition spec_pairs (h : Host) (plugin_spec : string)
  : list (string * PyVal) :=
  omap (parsed_pair h) (option_pairs plugin_spec).

(** Every value of the spec can be converted. *)
Definition convertible (h : Host) (plugin_spec : string) : Prop :=
  ∀ item, item ∈ option_pairs plugin_spec → ∃ r, parse_pair h item = Return r.

(** The value the last pair with key [k] gives, if any. *)
Definition cli_option (pairs : list (string * PyVal)) (k : string)
  : option PyVal :=
  dict_get (rev pairs) k.

(** A decimal literal: digits around exactly one point, at least one digit. *)
Definition decimal_form (value : string) : Prop :=
  ∃ a b, value = a +:+ "." +:+ b ∧ all_chars is_digit a = true ∧
         all_chars is_digit b = true ∧ a +:+ b ≠ "".

(** The integer conversion is within the interpreter's limit. *)
Definition within_int_limit (h : Host) (value : string) : Prop :=
  (String.length value ≤ 640)%nat ∨ int_max_str_digits h = O ∨
  (String.length value ≤ int_max_str_digits h)%nat.

(** The conversion read literally from the specification: only the exact
    strings true and false become booleans. *)
Definition convert_value_as_claimed (value : string) : PyVal :=
  if (value =? "true")%string then VBool true
  else if (value =? "false")%string then VBool false
  else if isdigit value then VInt (int_of_digits value)
  else if isdigit (remove_first "." value)
          && (count_char "." value <=? 1)%nat then VFloat value
  else VStr value.

(** A manifest entry for the plugin "fmt" and a command line that
    overrides one of its options. *)
Definition manifest_fmt : gmap string PluginConfig :=
  <["fmt" := mkPluginConfig "fmt" DISABLED
               (<["width" := VInt 80]> (<["mode" := VStr "safe"]> ∅)) None]> ∅.

(** A host without any manifest, and a command line that names the plugin
    "fmt" in both flags. *)
Definition empty_host : Host :=
  mkHost (Return []) (fun _ => Return false)
         (fun _ => Raise (mkExc FileNotFoundError "No such file or directory"))
         4300.
Definition cli_both_flags : CliArgs :=
  mkCliArgs false None ["fmt:width=100"; "other"] ["fmt"].

(** A host whose manifest is valid TOML of the wrong shape: [tool = 1]. *)
Definition wrong_shape_host : Host :=
  mkHost (Return []) (fun p => Return (p =? "odd.toml")%string)
         (fun _ => Return [("tool", VInt 1)]) 4300.

(** A host whose manifest "bad.toml" exists but is not valid TOML. *)
Definition malformed_host : Host :=
  mkHost (Return []) (fun p => Return (p =? "bad.toml")%string)
         (fun _ => Raise (mkExc TOMLDecodeError "Invalid statement")) 4300.

(** A host whose manifest "latin1.toml" exists but is not UTF-8 text:
    [tomli.load] decodes the bytes before it parses them. *)
Definition undecodable : PyExc :=
  mkExc UnicodeDecodeError
        "'utf-8' codec can't decode byte 0xe9 in position 9".
Definition undecodable_host : Host :=
  mkHost (Return []) (fun p => Return (p =? "latin1.toml")%string)
         (fun _ => Raise undecodable) 4300.

(** The files the upward search probes, nearest first: one per directory
    from the working directory up to, but not including, the root. *)
Fixpoint manifest_candidates (current_dir : list string) : list string :=
  match current_dir with
  | [] => []
  | _ :: parent_dir =>
    path_str ("pyproject.toml" :: current_dir) :: manifest_candidates parent_dir
  end.

(** [pc'] is [pc] after command-line processing: the same plugin, the same
    version requirement, and no option key lost. *)
Definition carried_over (pc pc' : PluginConfig) : Prop :=
  name pc' = name pc ∧
  version_requirement pc' = version_requirement pc ∧
  dom (options pc) ⊆ dom (options pc').

(** Every entry is stored under its own name. *)
Definition keyed_by_name (configs : gmap string PluginConfig) : Prop :=
  ∀ n pc, configs !! n = Some pc → name pc = n.

(** The plugins table of a manifest, when it has the expected shape. *)
Definition plugins_table (pyproject_data : list (string * PyVal))
  : option (list (string * PyVal)) :=
  match dict_get pyproject_data "tool" with
  | Some (VDict tool) =>
    match dict_get tool "black" with
    | Some (VDict black_config) =>
      match dict_get black_config "plugins" with
      | Some (VDict d) => Some d
      | _ => None
      end
    | _ => None
    end
  | _ => None
  end.

(** The manifest's value for a global key, or the value before the load. *)
Definition global_value (d : list (string * PyVal)) (k : string)
    (before : PyVal) : PyVal :=
  default before (dict_get d k).

(** A host with one manifest, "alt.toml", that sets [disable_all = false],
    and a command line that passes it together with the global flag. *)
Definition override_host : Host :=
  mkHost (Return []) (fun p => Return (p =? "alt.toml")%string)
         (fun _ => Return
            [("tool", VDict [("black", VDict [("plugins",
                VDict [("disable_all", VBool false)])])])]) 4300.
Definition cli_disable_all_with_manifest : CliArgs :=
  mkCliArgs true (Some "alt.toml") [] [].

(** A string of [n] digits. *)
Definition digits (n : nat) : string :=
  string_of_list_ascii (repeat "7"%char n).

(** A command line whose second option value is too long to convert. *)
Definition cli_long_number : CliArgs :=
  mkCliArgs false None ["fmt:width=100,seed=" +:+ digits 4301; "other"]
            ["fmt"].

End Config.

(** ** black/plugins/base.py *)

Module Base.

(** The lines a node is rendered to. *)
Definition Output := list string.

Section Contract.
Context {Node W : Type}.

(** The [line_gen] callback handed to a plugin.  [W] is everything mutable
    a call can reach: the formatting context dictionary, the attributes of
    the plugin instances, the state of the host generator. *)
Definition LineGen := Node -> W -> PyResult Output * W.

(** An instance of a subclass of [AbstractPlugin]: its [PLUGIN_NAME] and its
    [apply_plugin(line_gen, node, context)], which returns [None], returns
    lines, or raises. *)
Record Plugin := mkPlugin {
  PLUGIN_NAME : string;
  apply_plugin : LineGen -> Node -> W -> PyResult (option Output) * W
}.

(** A plugin class: [new_instance options] is [plugin_class()] followed by
    [plugin_instance.configure(options)]. *)
Record PluginClass := mkPluginClass {
  CLASS_PLUGIN_NAME : string;
  new_instance : gmap string PyVal -> PyResult Plugin
}.

End Contract.

Arguments LineGen : clear implicits.
Arguments Plugin : clear implicits.
Arguments PluginClass : clear implicits.

(** A plugin instance as [hasattr] and [setattr] see it: the instance
    dictionary; the names found on the class and its bases (class
    attributes and methods, which an assignment shadows in the instance
    dictionary); and the properties of the class that have no setter.
    Every instance has the attributes [__class__], [__dict__] and
    [__weakref__] besides. *)
Record PyObject := mkObject {
  instance_dict : gmap string PyVal;
  class_attrs : gset string;
  readonly_properties : gset string
}.

Definition special_attrs : gset string :=
  {[ "__class__"; "__dict__"; "__weakref__" ]}.

(** [hasattr(self, key)]. *)
Definition hasattr (self : PyObject) (key : string) : bool :=
  bool_decide (key ∈ special_attrs ∪ readonly_properties self
                 ∪ class_attrs self ∪ dom (instance_dict self)).

(** [setattr(self, key, value)] for a value of an option map.  A property
    without setter cannot be assigned; the class of an object can only be
    replaced by a class, its dictionary only by a dictionary, which then
    holds all the instance attributes; the weak reference slot is not
    writable; every other name is stored in the instance dictionary. *)
Definition setattr (self : PyObject) (key : string) (value : PyVal)
  : PyResult PyObject :=
  if bool_decide (key ∈ readonly_properties self) then
    Raise (mkExc AttributeError "property has no setter")
  else if (key =? "__class__")%string then
    Raise (mkExc TypeError "__class__ must be set to a class")
  else if (key =? "__dict__")%string then
    match value with
    | VDict d => Return (mkObject (list_to_map d) (class_attrs self)
                                  (readonly_properties self))
    | _ => Raise (mkExc TypeError "__dict__ must be set to a dictionary")
    end
  else if (key =? "__weakref__")%string then
    Raise (mkExc AttributeError "attribute '__weakref__' is not writable")
  else Return (mkObject (<[key := value]> (instance_dict self))
                        (class_attrs self) (readonly_properties self)).

(** [AbstractPlugin.configure]: the options are gone through in the order
    of the dictionary; an option is assigned when the object has an
    attribute of that name, and ignored otherwise.  An assignment that
    raises ends the call, and the assignments made before it stay. *)
Fixpoint configure (self : PyObject) (options : list (string * PyVal))
  : PyResult () * PyObject :=
  match options with
  | [] => (Return (), self)
  | (key, value) :: rest =>
    if hasattr self key then
      match setattr self key value with
      | Return self' => configure self' rest
      | Raise e => (Raise e, self)
      end
    else configure self rest
  end.

(** [StandardPluginMixin.validate_options]. *)
Definition validate_options (self : PyObject) (options : list (string * PyVal))
  : gmap string string :=
  foldl (fun errors '(key, value) =>
           if hasattr self key then errors
           else <[key := "Unknown option: " +:+ key]> errors)
        ∅ options.

(** *** Notions used in the statements *)

(** An attribute whose assignment raises whatever the value. *)
Definition unassignable (self : PyObject) (key : string) : Prop :=
  key = "__class__" ∨ key = "__weakref__" ∨ key ∈ readonly_properties self.

(** An attribute that an assignment stores in the instance dictionary. *)
Definition plain (self : PyObject) (key : string) : Prop :=
  ¬ (key ∈ special_attrs) ∧ ¬ (key ∈ readonly_properties self).

(** A plugin object with two instance attributes, the class attribute
    [PLUGIN_NAME] and a read-only property. *)
Definition sample_object : PyObject :=
  mkObject (<["quotes" := VStr "double"]> (<["line_length" := VInt 88]> ∅))
           {[ "PLUGIN_NAME" ]} {[ "description" ]}.

End Base.

(** ** black/plugins/registry.py *)

Module Registry.
Import Base.

(** [d[k] = v] on an insertion-ordered dictionary: an existing key keeps its
    place, a new key goes to the end. *)
Fixpoint dict_set {A} (d : list (string * A)) (k : string) (v : A)
  : list (string * A) :=
  match d with
  | [] => [(k, v)]
  | (k', v') :: d' =>
    if (k' =? k)%string then (k, v) :: d' else (k', v') :: dict_set d' k v
  end.

(** [s.endswith(suffix)] and [s[:-n]]. *)
Definition endswith (s suffix : string) : bool :=
  let n := String.length s in
  let m := String.length suffix in
  (m <=? n)%nat && (String.substring (n - m) m s =? suffix)%string.

Definition drop_last (n : nat) (s : string) : string :=
  String.substring 0 (String.length s - n) s.

Section WithPlugins.
Context {Node W : Type}.

(** A top-level attribute of an imported module, as the discovery loop
    probes it: its name in [dir(module)], whether it is a type, its
    [PLUGIN_NAME] if it has one, and whether it has [apply_plugin]. *)
Record ModuleAttr := mkAttr {
  attr_name : string;
  attr_is_type : bool;
  attr_plugin_name : option string;
  attr_has_apply_plugin : bool;
  attr_class : PluginClass Node W
}.

(** What discovery reaches outside the registry: the default directories,
    [os.path.exists], [os.listdir] and [importlib.import_module] (which
    depends on the module search path). *)
Record Host := mkHost {
  user_plugins_dir : string;
  shared_plugins_dir : string;
  os_path_exists : string -> bool;
  os_listdir : string -> PyResult (list string);
  import_module : list string -> string -> PyResult (list ModuleAttr)
}.

(** The singleton's dictionaries, the interpreter's [sys.path], and the
    lines printed on standard error. *)
Record State := mkState {
  sys_path : list string;
  plugin_classes : list (string * PluginClass Node W);
  enabled_plugins : list (string * Plugin Node W);
  stderr : list string
}.

Definition qualifies (a : ModuleAttr) : option string :=
  if attr_is_type a
     && negb ((attr_name a =? "AbstractPlugin")%string
              || (attr_name a =? "StandardPluginMixin")%string)
     && attr_has_apply_plugin a
  then attr_plugin_name a
  else None.

(** The loop over [dir(module)]. *)
Definition register_module (attrs : list ModuleAttr)
    (classes : list (string * PluginClass Node W))
  : list (string * PluginClass Node W) :=
  foldl (fun acc a => match qualifies a with
                      | Some plugin_name => dict_set acc plugin_name (attr_class a)
                      | None => acc
                      end) classes attrs.

Definition import_error_line (module_name : string) (e : PyExc) : string :=
  "Failed to import potential plugin " +:+ module_name +:+ ": " +:+ exc_str e.

Definition is_candidate (item : string) : bool :=
  endswith item ".py" && negb (startswith item "_").

(** The loop over [os.listdir(path)]; only [ImportError] is handled. *)
Fixpoint scan_items (h : Host) (search_path : list string)
    (items : list string)
    (classes : list (string * PluginClass Node W)) (err : list string)
  : PyResult () * list (string * PluginClass Node W) * list string :=
  match items with
  | [] => (Return (), classes, err)
  | item :: rest =>
    if is_candidate item then
      let module_name := drop_last 3 item in
      match import_module h search_path module_name with
      | Return attrs =>
        scan_items h search_path rest (register_module attrs classes) err
      | Raise e =>
        if isinstance e ImportError
        then scan_items h search_path rest classes
                        (err ++ [import_error_line module_name e])
        else (Raise e, classes, err)
      end
    else scan_items h search_path rest classes err
  end.

(** The loop over [paths] inside the [try]. *)
Fixpoint scan_paths (h : Host) (search_path : list string)
    (paths : list string)
    (classes : list (string * PluginClass Node W)) (err : list string)
  : PyResult () * list (string * PluginClass Node W) * list string :=
  match paths with
  | [] => (Return (), classes, err)
  | path :: rest =>
    if os_path_exists h path then
      match os_listdir h path with
      | Return items =>
        match scan_items h search_path items classes err with
        | (Return _, classes', err') =>
          scan_paths h search_path rest classes' err'
        | failed => failed
        end
      | Raise e => (Raise e, classes, err)
      end
    else scan_paths h search_path rest classes err
  end.

Definition default_paths (h : Host) : list string :=
  ["./plugins"; user_plugins_dir h; shared_plugins_dir h].

(** The first loop: existing paths not yet on [sys.path] are put in front. *)
Definition extend_sys_path (h : Host) (paths : list string)
    (search_path : list string) : list string :=
  foldl (fun sp path =>
           if negb (bool_decide (path ∈ sp)) && os_path_exists h path
           then path :: sp else sp) search_path paths.

(** [PluginRegistry.discover_plugins].  The [finally] clause puts the saved
    copy of [sys.path] back whether the [try] block returned or raised. *)
Definition discover_plugins (h : Host) (paths : list string) (st : State)
  : PyResult () * State :=
  let paths := match paths with [] => default_paths h | _ => paths end in
  let original_path := sys_path st in
  let search_path := extend_sys_path h paths (sys_path st) in
  let '(r, classes, err) :=
    scan_paths h search_path paths (plugin_classes st) (stderr st) in
  (r, mkState original_path classes (enabled_plugins st) err).

(** The enablement decision of [configure_plugins] for one plugin name. *)
Definition plugin_enabled (config : Config.PluginsConfig) (n : string) : bool :=
  let plugin_config :=
    default (Config.new_plugin_config n) (Config.plugin_configs config !! n) in
  match Config.state plugin_config with
  | Config.ENABLED => true
  | Config.DISABLED => false
  | Config.DEFAULT => truthy (Config.enable_by_default config)
  end.

(** [PluginRegistry.get_all_enabled_plugins]:
    [list(self.enabled_plugins.values())]. *)
Definition get_all_enabled_plugins (st : State) : list (Plugin Node W) :=
  (enabled_plugins st).*2.

(** [d.get(k)] on an insertion-ordered dictionary. *)
Fixpoint dict_find {A} (d : list (string * A)) (k : string) : option A :=
  match d with
  | [] => None
  | (k', v) :: d' => if (k' =? k)%string then Some v else dict_find d' k
  end.

(** [PluginRegistry.get_plugin]: [self.enabled_plugins.get(name)]. *)
Definition get_plugin (st : State) (n : string) : option (Plugin Node W) :=
  dict_find (enabled_plugins st) n.

Definition init_error_line (n : string) (e : PyExc) : string :=
  "Failed to initialize plugin " +:+ n +:+ ": " +:+ exc_str e.

(** The options handed to [configure] for a plugin name. *)
Definition options_for (config : Config.PluginsConfig) (n : string)
  : gmap string PyVal :=
  Config.options
    (default (Config.new_plugin_config n) (Config.plugin_configs config !! n)).

(** The loop of [configure_plugins] over [self.plugin_classes.items()]:
    an enabled class is instantiated and configured inside a [try] whose
    handler is [except Exception]. *)
Fixpoint enable_plugins (config : Config.PluginsConfig)
    (classes : list (string * PluginClass Node W))
    (enabled : list (string * Plugin Node W)) (err : list string)
  : PyResult () * list (string * Plugin Node W) * list string :=
  match classes with
  | [] => (Return (), enabled, err)
  | (n, plugin_class) :: rest =>
    if plugin_enabled config n then
      match new_instance plugin_class (options_for config n) with
      | Return plugin_instance =>
        enable_plugins config rest (dict_set enabled n plugin_instance) err
      | Raise e =>
        if isinstance e Exception
        then enable_plugins config rest enabled (err ++ [init_error_line n e])
        else (Raise e, enabled, err)
      end
    else enable_plugins config rest enabled err
  end.

(** [PluginRegistry.configure_plugins].  [paths] is the sequence of strings
    that [config.discovery_paths] iterates to (empty when the value is
    empty); it is used only when no class has been discovered yet, and an
    empty sequence makes [discover_plugins] use its defaults, as the call
    without argument does. *)
Definition configure_plugins (h : Host) (config : Config.PluginsConfig)
    (paths : list string) (st : State) : PyResult () * State :=
  let st0 := mkState (sys_path st) (plugin_classes st) [] (stderr st) in
  if truthy (Config.disable_all config) then (Return (), st0)
  else
    let '(r, st1) :=
      match plugin_classes st0 with
      | [] => discover_plugins h paths st0
      | _ => (Return (), st0)
      end in
    match r with
    | Raise e => (Raise e, st1)
    | Return _ =>
      let '(r', enabled, err) :=
        enable_plugins config (plugin_classes st1) (enabled_plugins st1)
                       (stderr st1) in
      (r', mkState (sys_path st1) (plugin_classes st1) enabled err)
    end.

End WithPlugins.

Arguments ModuleAttr : clear implicits.
Arguments Host : clear implicits.
Arguments State : clear implicits.

(** *** Notions used in the statements *)

Section Expected.
Context {Node W : Type}.

(** What the enabling loop is expected to produce for one discovered class:
    its instance when the plugin is enabled and can be built, and the line
    printed when building it fails. *)
Definition instance_of (config : Config.PluginsConfig)
    (entry : string * PluginClass Node W) : option (string * Plugin Node W) :=
  if plugin_enabled config entry.1 then
    match new_instance entry.2 (options_for config entry.1) with
    | Return plugin_instance => Some (entry.1, plugin_instance)
    | Raise _ => None
    end
  else None.

Definition init_failure_of (config : Config.PluginsConfig)
    (entry : string * PluginClass Node W) : option string :=
  if plugin_enabled config entry.1 then
    match new_instance entry.2 (options_for config entry.1) with
    | Return _ => None
    | Raise e => Some (init_error_line entry.1 e)
    end
  else None.

(** Building an enabled plugin raises nothing but instances of [Exception]. *)
Definition init_raises_only_exceptions (config : Config.PluginsConfig)
    (classes : list (string * PluginClass Node W)) : Prop :=
  ∀ n plugin_class e,
    (n, plugin_class) ∈ classes →
    new_instance plugin_class (options_for config n) = Raise e →
    isinstance e Exception = true.

End Expected.

(** A plugins directory with two source units: importing the first fails,
    the second defines a plugin class.  [broken_unit_host e] makes the
    import of the first unit raise [e]. *)
Definition good_class : PluginClass () () :=
  mkPluginClass "good"
    (fun _ => Return (mkPlugin "good" (fun _ _ w => (Return None, w)))).

Definition good_attr : ModuleAttr () () :=
  mkAttr "GoodPlugin" true (Some "good") true good_class.

Definition broken_unit_host (e : PyExc) : Host () () :=
  mkHost "~/.black/plugins" "/usr/share/black/plugins"
         (fun p => (p =? "./plugins")%string)
         (fun _ => Return ["broken.py"; "good.py"])
         (fun _ m => if (m =? "broken")%string then Raise e
                     else Return [good_attr]).

Definition fresh_state : State () () :=
  mkState ["/usr/lib/python3"] [] [] [].

(** A registry that has discovered the plugin of good.py and a class whose
    construction fails. *)
Definition failing_class : PluginClass () () :=
  mkPluginClass "bad" (fun _ => Raise (mkExc ValueError "bad option")).
Definition discovered_state : State () () :=
  mkState ["/usr/lib/python3"] [("bad", failing_class); ("good", good_class)]
          [] [].

End Registry.

(** ** black/plugins/integration.py *)

Module Dispatch.
Import Base.

Section WithPlugins.
Context {Node W : Type}.

Definition apply_error_line (plugin : Plugin Node W) (e : PyExc) : string :=
  "Error applying plugin " +:+ PLUGIN_NAME plugin +:+ ": " +:+ exc_str e.

(** The [for plugin in plugins] loop of [_apply_plugins]: [except Exception]
    handles instances of [Exception] and lets the others through.  The third
    component lists the lines printed on standard error. *)
Fixpoint apply_loop (plugins : list (Plugin Node W)) (line_gen : LineGen Node W)
    (node : Node) (w : W) : PyResult (option Output) * W * list string :=
  match plugins with
  | [] => (Return None, w, [])
  | plugin :: rest =>
    match apply_plugin plugin line_gen node w with
    | (Return (Some result), w') => (Return (Some result), w', [])
    | (Return None, w') => apply_loop rest line_gen node w'
    | (Raise e, w') =>
      if isinstance e Exception then
        let '(r, w'', err) := apply_loop rest line_gen node w' in
        (r, w'', apply_error_line plugin e :: err)
      else (Raise e, w', [])
    end
  end.

(** [PluginLineGenerator._apply_plugins]; [plugins] is what
    [self.registry.get_all_enabled_plugins()] returned. *)
Definition _apply_plugins (plugins : list (Plugin Node W))
    (line_gen : LineGen Node W) (node : Node) (w : W)
  : PyResult (option Output) * W * list string :=
  match plugins with
  | [] => (Return None, w, [])
  | _ => apply_loop plugins line_gen node w
  end.

(** [PluginLineGenerator.visit]; [line_gen] collects the lines of
    [self.base_line_gen.visit(node)]. *)
Definition visit (plugins : list (Plugin Node W))
    (base_line_gen : LineGen Node W) (node : Node) (w : W)
  : PyResult Output * W * list string :=
  let line_gen := base_line_gen in
  match _apply_plugins plugins line_gen node w with
  | (Return (Some result), w', err) => (Return result, w', err)
  | (Return None, w', err) =>
    let '(r, w'') := line_gen node w' in (r, w'', err)
  | (Raise e, w', err) => (Raise e, w', err)
  end.

(** [initialize_plugins(config_path, cli_args)]: a fresh
    [ConfigurationManager] loads the manifest, the command line is applied
    when one is given, and the singleton registry is configured.  What the
    manager prints goes to the registry state's standard error; [paths] is as
    for [Registry.configure_plugins]. *)
Definition initialize_plugins (hc : Config.Host) (hr : Registry.Host Node W)
    (config_path : option string) (cli_args : option Config.CliArgs)
    (paths : list string) (st : Registry.State Node W)
  : PyResult () * Registry.State Node W :=
  let log (lines : list string) :=
    Registry.mkState (Registry.sys_path st) (Registry.plugin_classes st)
                     (Registry.enabled_plugins st)
                     (Registry.stderr st ++ lines) in
  let path := match config_path with
              | Some p => if (p =? "")%string then None else Some p
              | None => None
              end in
  let '(r1, cfg1, err1) :=
    Config.load_from_pyproject hc path Config.default_plugins_config in
  match r1 with
  | Raise e => (Raise e, log err1)
  | Return _ =>
    let '(r2, cfg2, err2) :=
      match cli_args with
      | Some cli => Config.update_from_cli hc cli cfg1
      | None => (Return (), cfg1, [])
      end in
    match r2 with
    | Raise e => (Raise e, log (err1 ++ err2))
    | Return _ =>
      Registry.configure_plugins hr cfg2 paths (log (err1 ++ err2))
    end
  end.

(** *** Notions used in the statements *)

(** Every exception a plugin raises is an instance of [Exception]. *)
Definition raises_only_exceptions (plugin : Plugin Node W) : Prop :=
  ∀ line_gen node w e w',
    apply_plugin plugin line_gen node w = (Raise e, w') →
    isinstance e Exception = true.

(** The pipeline read literally from the specification: only a non-empty
    result claims the node; an absent or empty result, like a fault, lets
    the pipeline proceed, and the host renderer comes last. *)
Fixpoint dispatch_as_claimed (plugins : list (Plugin Node W))
    (base_line_gen : LineGen Node W) (node : Node) (w : W)
  : PyResult Output * W :=
  match plugins with
  | [] => base_line_gen node w
  | plugin :: rest =>
    match apply_plugin plugin base_line_gen node w with
    | (Return (Some (line :: lines)), w') => (Return (line :: lines), w')
    | (_, w') => dispatch_as_claimed rest base_line_gen node w'
    end
  end.

End WithPlugins.

(** Sample plugins over a one-node syntax and a call counter: one that
    always raises, one that returns an empty list, one that returns a line,
    and a host renderer. *)
Definition raising_plugin : Plugin () nat :=
  mkPlugin "boom" (fun _ _ w => (Raise (mkExc RuntimeError "boom"), S w)).
Definition empty_plugin : Plugin () nat :=
  mkPlugin "empty" (fun _ _ w => (Return (Some []), S w)).
Definition line_plugin : Plugin () nat :=
  mkPlugin "line" (fun _ _ w => (Return (Some ["x = 1"]), S w)).
Definition deferring_plugin : Plugin () nat :=
  mkPlugin "defer" (fun _ _ w => (Return None, S w)).
Definition host_renderer : LineGen () nat :=
  fun _ w => (Return ["host"], w).
Definition interrupted_plugin : Plugin () nat :=
  mkPlugin "stop" (fun _ _ w => (Raise (mkExc KeyboardInterrupt ""), S w)).

End Dispatch.

(** ** black/plugins/examples/import_sorter.py *)

Module ImportSorter.
Import Base.

(** A syntax node as the plugin reads it: [type], [value] (of a leaf),
    [get_code()] and [children]. *)
Inductive Node :=
| mkNode (type : string) (value : string) (code : string)
         (children : list Node).

Definition type (n : Node) : string := let '(mkNode t _ _ _) := n in t.
Definition value (n : Node) : string := let '(mkNode _ v _ _) := n in v.
Definition get_code (n : Node) : string := let '(mkNode _ _ c _) := n in c.
Definition children (n : Node) : list Node := let '(mkNode _ _ _ c) := n in c.

(** The formatting context dictionary; it is all the mutable state the
    plugin touches. *)
Abbreviation Ctx := (gmap string PyVal).

(** The attributes set by [ImportSorterPlugin.__init__]. *)
Record ImportSorterPlugin := mkSorter {
  group_order : list string;
  stdlib_prefixes : gset string;
  third_party_prefixes : gset string;
  first_party_prefixes : gset string;
  local_prefixes : gset string;
  sort_case_insensitive : bool;
  sort_by_package_then_name : bool;
  separate_groups_with_blank_line : bool;
  separate_from_imports : bool;
  line_length : Z
}.

(** [ImportSorterPlugin()]. *)
Definition default_sorter : ImportSorterPlugin :=
  mkSorter ["stdlib"; "third_party"; "first_party"; "local"]
           ∅ ∅ ∅ {["."]} true true true true 88.

Definition is_import (n : Node) : bool :=
  (type n =? "import_stmt")%string || (type n =? "import_from_stmt")%string.

(** [_extract_imports]. *)
Definition _extract_imports (node : Node) : list Node :=
  filter (fun child => is_import child = true) (children node).

(** The two loops of [_get_module_name]. *)
Fixpoint first_dotted_name (cs : list Node) : option string :=
  match cs with
  | [] => None
  | child :: rest =>
    if (type child =? "dotted_name")%string then Some (get_code child)
    else first_dotted_name rest
  end.

Fixpoint first_name_or_dot (cs : list Node) : option string :=
  match cs with
  | [] => None
  | child :: rest =>
    if (type child =? "dotted_name")%string then Some (get_code child)
    else if (type child =? "dot")%string && (value child =? ".")%string
    then Some "."
    else first_name_or_dot rest
  end.

(** [_get_module_name]. *)
Definition _get_module_name (import_node : Node) : string :=
  if (type import_node =? "import_stmt")%string then
    default "" (first_dotted_name (children import_node))
  else if (type import_node =? "import_from_stmt")%string then
    default "" (first_name_or_dot (children import_node))
  else "".

Definition stdlib_modules : gset string :=
  list_to_set
    ["sys"; "os"; "re"; "math"; "time"; "datetime"; "collections";
     "itertools"; "functools"; "random"; "socket"; "json"; "csv"; "argparse";
     "logging"; "pathlib"; "typing"; "abc"; "io"; "tempfile"; "shutil";
     "unittest"].

(** [_is_stdlib_module]. *)
Definition _is_stdlib_module (module_name : string) : bool :=
  if contains_char "." module_name
     && negb (existsb (startswith module_name)
                      ["xml."; "http."; "html."; "email."])
  then false
  else
    let top_module := default "" (head (split_on "." module_name)) in
    bool_decide (top_module ∈ stdlib_modules).

(** [any(module_name.startswith(prefix) for prefix in prefixes)]. *)
Definition any_prefix (module_name : string) (prefixes : gset string) : bool :=
  existsb (startswith module_name) (elements prefixes).

(** Truth value of a set: it is not empty. *)
Definition nonempty (prefixes : gset string) : bool :=
  negb (bool_decide (prefixes = ∅)).

(** The tests of [_determine_import_group] on the extracted module name. *)
Definition group_of_module (self : ImportSorterPlugin) (module_name : string)
  : string :=
  if any_prefix module_name (local_prefixes self) then "local"
  else if nonempty (first_party_prefixes self)
          && any_prefix module_name (first_party_prefixes self)
  then "first_party"
  else if nonempty (third_party_prefixes self)
          && any_prefix module_name (third_party_prefixes self)
  then "third_party"
  else if nonempty (stdlib_prefixes self) then
    if any_prefix module_name (stdlib_prefixes self) then "stdlib"
    else "third_party"
  else if _is_stdlib_module module_name then "stdlib"
  else "third_party".

(** [_determine_import_group]. *)
Definition _determine_import_group (self : ImportSorterPlugin)
    (import_node : Node) : string :=
  group_of_module self (_get_module_name import_node).

(** A sort key: a string, or the pair (first component, module name). *)
Inductive SortKey :=
| KStr (s : string)
| KTuple (package : string) (module_name : string).

(** [_get_sort_key]. *)
Definition _get_sort_key (import_node : Node) (case_insensitive : bool)
    (by_package_first : bool) : SortKey :=
  let module_name := _get_module_name import_node in
  let module_name := if case_insensitive then lower module_name
                     else module_name in
  if by_package_first && contains_char "." module_name then
    KTuple (default "" (head (split_on "." module_name))) module_name
  else KStr module_name.

(** [a < b] on sort keys: strings and tuples compare among themselves,
    a string and a tuple do not compare. *)
Definition key_lt (a b : SortKey) : PyResult bool :=
  match a, b with
  | KStr x, KStr y => Return (String.ltb x y)
  | KTuple p x, KTuple q y =>
    Return (if (p =? q)%string then String.ltb x y else String.ltb p q)
  | KStr _, KTuple _ _ =>
    Raise (mkExc TypeError
             "'<' not supported between instances of 'str' and 'tuple'")
  | KTuple _ _, KStr _ =>
    Raise (mkExc TypeError
             "'<' not supported between instances of 'tuple' and 'str'")
  end.

(** The built-in [list.sort(key=...)], as a stable insertion sort: an item
    goes in front of the first item its key is smaller than, and a
    comparison that raises ends the sort.  The built-in sort is stable as
    well, and like every comparison sort it has to compare a string key with
    a tuple key when the list holds both, so both return the same list or
    both raise [TypeError]. *)
Fixpoint insert_sorted {A} (x : SortKey * A) (sorted : list (SortKey * A))
  : PyResult (list (SortKey * A)) :=
  match sorted with
  | [] => Return [x]
  | y :: ys =>
    smaller ← key_lt x.1 y.1;
    if smaller : bool then Return (x :: y :: ys)
    else zs ← insert_sorted x ys; Return (y :: zs)
  end.

Definition sort_step {A} (acc : PyResult (list (SortKey * A)))
    (x : SortKey * A) : PyResult (list (SortKey * A)) :=
  sorted ← acc; insert_sorted x sorted.

Definition list_sort {A} (key : A -> SortKey) (l : list A) : PyResult (list A) :=
  sorted ← foldl sort_step (Return []) ((fun x => (key x, x)) <$> l);
  Return (sorted.*2).

(** [grouped_imports[group].append(item)], creating the list first when the
    group is new. *)
Fixpoint dict_append {A} (d : list (string * list A)) (group : string)
    (item : A) : list (string * list A) :=
  match d with
  | [] => [(group, [item])]
  | (g, items) :: d' =>
    if (g =? group)%string then (g, items ++ [item]) :: d'
    else (g, items) :: dict_append d' group item
  end.

Fixpoint dict_lookup {A} (d : list (string * A)) (k : string) : option A :=
  match d with
  | [] => None
  | (k', v) :: d' => if (k' =? k)%string then Some v else dict_lookup d' k
  end.

(** The first loop of [_sort_imports]. *)
Definition group_imports (self : ImportSorterPlugin) (imports : list Node)
  : list (string * list (Node * string)) :=
  foldl (fun grouped imp =>
           let group := _determine_import_group self imp in
           dict_append grouped group (imp, group)) [] imports.

(** The second loop: each group is sorted in place, in dictionary order. *)
Fixpoint sort_groups (self : ImportSorterPlugin)
    (grouped : list (string * list (Node * string)))
  : PyResult (list (string * list (Node * string))) :=
  match grouped with
  | [] => Return []
  | (group, imports_in_group) :: rest =>
    sorted ← list_sort
               (fun x => _get_sort_key x.1 (sort_case_insensitive self)
                                       (sort_by_package_then_name self))
               imports_in_group;
    rest' ← sort_groups self rest;
    Return ((group, sorted) :: rest')
  end.

(** The last two loops: the groups of [group_order], then the others. *)
Definition combine_groups (self : ImportSorterPlugin)
    (grouped : list (string * list (Node * string))) : list (Node * string) :=
  concat (omap (dict_lookup grouped) (group_order self))
  ++ concat (snd <$> filter (fun entry => entry.1 ∉ group_order self) grouped).

(** [_sort_imports]. *)
Definition _sort_imports (self : ImportSorterPlugin) (imports : list Node)
  : PyResult (list (Node * string)) :=
  grouped ← sort_groups self (group_imports self imports);
  Return (combine_groups self grouped).

Definition in_progress_key : string := "import_sorting_in_progress".

(** The loop of [_process_module_imports] over the sorted imports. *)
Fixpoint render_imports (self : ImportSorterPlugin)
    (line_gen : LineGen Node Ctx) (sorted_imports : list (Node * string))
    (current_group : option string) (import_lines : Output) (ctx : Ctx)
  : PyResult Output * Ctx :=
  match sorted_imports with
  | [] => (Return import_lines, ctx)
  | (import_node, group) :: rest =>
    let import_lines :=
      if separate_groups_with_blank_line self
         && match current_group with
            | Some g => negb (g =? group)%string
            | None => false
            end
      then import_lines ++ [""] else import_lines in
    match line_gen import_node ctx with
    | (Return import_formatted, ctx') =>
      render_imports self line_gen rest (Some group)
                     (import_lines ++ import_formatted) ctx'
    | (Raise e, ctx') => (Raise e, ctx')
    end
  end.

(** The loop over the other children of the module. *)
Fixpoint render_others (line_gen : LineGen Node Ctx) (nodes : list Node)
    (other_lines : Output) (ctx : Ctx) : PyResult Output * Ctx :=
  match nodes with
  | [] => (Return other_lines, ctx)
  | child_node :: rest =>
    match line_gen child_node ctx with
    | (Return child_lines, ctx') =>
      render_others line_gen rest (other_lines ++ child_lines) ctx'
    | (Raise e, ctx') => (Raise e, ctx')
    end
  end.

(** [_process_module_imports].  The flag is put into the context before
    the imports are sorted and taken out at the very end. *)
Definition _process_module_imports (self : ImportSorterPlugin)
    (node : Node) (line_gen : LineGen Node Ctx) (ctx : Ctx)
  : PyResult (option Output) * Ctx :=
  let imports := _extract_imports node in
  match imports with
  | [] => (Return None, ctx)
  | _ =>
    let ctx := <[in_progress_key := VBool true]> ctx in
    match _sort_imports self imports with
    | Raise e => (Raise e, ctx)
    | Return sorted_imports =>
      match render_imports self line_gen sorted_imports None [] ctx with
      | (Raise e, ctx) => (Raise e, ctx)
      | (Return import_lines, ctx) =>
        let non_import_nodes :=
          filter (fun child => is_import child = false) (children node) in
        match render_others line_gen non_import_nodes [] ctx with
        | (Raise e, ctx) => (Raise e, ctx)
        | (Return other_lines, ctx) =>
          let both :=
            match import_lines, other_lines with
            | _ :: _, first :: _ => negb (strip first =? "")%string
            | _, _ => false
            end in
          let result_lines :=
            if both then import_lines ++ [""] ++ other_lines
            else import_lines ++ other_lines in
          (Return (Some result_lines), delete in_progress_key ctx)
        end
      end
    end
  end.

Definition returning (r : PyResult Output * Ctx)
  : PyResult (option Output) * Ctx :=
  (lines ← r.1; Return (Some lines), r.2).

(** [ImportSorterPlugin.apply_plugin]. *)
Definition sorter_apply_plugin (self : ImportSorterPlugin)
    (line_gen : LineGen Node Ctx) (node : Node) (ctx : Ctx)
  : PyResult (option Output) * Ctx :=
  if negb (is_import node || (type node =? "file_input")%string)
  then returning (line_gen node ctx)
  else if (type node =? "file_input")%string then
    match _process_module_imports self node line_gen ctx with
    | (Return (Some (line :: lines)), ctx') =>
      (Return (Some (line :: lines)), ctx')
    | (Return _, ctx') => returning (line_gen node ctx')
    | (Raise e, ctx') => (Raise e, ctx')
    end
  else if match ctx !! in_progress_key with
          | Some v => truthy v
          | None => false
          end
  then (Return None, ctx)
  else returning (line_gen node ctx).

(** The plugin instance as the registry holds it. *)
Definition sorter_plugin (self : ImportSorterPlugin) : Plugin Node Ctx :=
  mkPlugin "import_sorter" (sorter_apply_plugin self).

(** *** Notions used in the statements *)

(** The kind of a sort key. *)
Definition is_tuple (k : SortKey) : bool :=
  match k with KTuple _ _ => true | KStr _ => false end.

(** The classification read literally from the specification: without
    configured standard-library prefixes, a module is in the standard
    library when its top-level component is in the built-in set. *)
Definition group_as_claimed (self : ImportSorterPlugin) (module_name : string)
  : string :=
  if any_prefix module_name (local_prefixes self) then "local"
  else if any_prefix module_name (first_party_prefixes self) then "first_party"
  else if any_prefix module_name (third_party_prefixes self) then "third_party"
  else if any_prefix module_name (stdlib_prefixes self)
          || bool_decide (stdlib_prefixes self = ∅)
             && bool_decide (default "" (head (split_on "." module_name))
                             ∈ stdlib_modules)
  then "stdlib"
  else "third_party".

(** A host renderer that never raises and leaves the context alone. *)
Definition pure_renderer (line_gen : LineGen Node Ctx) : Prop :=
  ∀ node ctx, ∃ lines, line_gen node ctx = (Return lines, ctx).

(** The import paired with its group, as [_sort_imports] stores it. *)
Definition tagged (self : ImportSorterPlugin) (imp : Node) : Node * string :=
  (imp, _determine_import_group self imp).

(** Import statements as nodes of the types the plugin tests for. *)
Definition leaf (t v : string) : Node := mkNode t v v [].

Definition import_stmt (module_name : string) : Node :=
  mkNode "import_stmt" "" ("import " +:+ module_name)
         [leaf "name" "import"; mkNode "dotted_name" "" module_name []].

(** The configuration of the worked example: local = {"."},
    first party = {"myapp"}, default group order. *)
Definition example_sorter : ImportSorterPlugin :=
  mkSorter ["stdlib"; "third_party"; "first_party"; "local"]
           ∅ ∅ {["myapp"]} {["."]} true true true true 88.

(** A configuration whose first-party prefixes were given as the empty
    string, which [configure] turns into the set holding the empty prefix. *)
Definition catch_all_sorter : ImportSorterPlugin :=
  mkSorter ["stdlib"; "third_party"; "first_party"; "local"]
           ∅ ∅ {[""]} {["."]} true true true true 88.

(** The default configuration with package-first sorting switched off. *)
Definition plain_sorter : ImportSorterPlugin :=
  mkSorter ["stdlib"; "third_party"; "first_party"; "local"]
           ∅ ∅ ∅ {["."]} true false true true 88.

(** A module whose imports of one package put a dotted and an undotted
    name into the same group. *)
Definition mixed_module : Node :=
  mkNode "file_input" "" ""
         [import_stmt "requests"; import_stmt "requests.adapters";
          leaf "expr_stmt" "x = 1"].

(** A host renderer that prints the code of a node. *)
Definition code_renderer : LineGen Node Ctx :=
  fun node ctx => (Return [get_code node], ctx).

End ImportSorter.

(** ** plugins/string_normalizer.py *)

Module StringNormalizer.
Import Base ImportSorter.

(** The attributes set by [StringNormalizerPlugin.__init__]. *)
Record StringNormalizerPlugin := mkNormalizer {
  quotes : string;
  docstring_style : string;
  normalize_f_strings : bool;
  normalize_docstrings : bool;
  normalize_comments : bool
}.

(** [StringNormalizerPlugin()]. *)
Definition default_normalizer : StringNormalizerPlugin :=
  mkNormalizer "double" "default" true true false.

(** The two quote characters. *)
Definition squote : ascii := "039"%char.
Definition dquote : ascii := "034"%char.

(** [line[1:-1]]. *)
Definition inner (line : string) : string :=
  String.substring 1 (String.length line - 2) line.

(** [line.startswith(q) and line.endswith(q)] for a quote character. *)
Definition quoted_with (q : ascii) (line : string) : bool :=
  startswith line (String q "") && Registry.endswith line (String q "").

(** The single-line branch of [_normalize_string_lines]. *)
Definition normalize_line (self : StringNormalizerPlugin) (line : string)
  : string :=
  if (quotes self =? "double")%string && contains_char squote line
     && negb (contains_char dquote line) then
    if quoted_with squote line
    then String dquote (inner line +:+ String dquote "")
    else line
  else if (quotes self =? "single")%string && contains_char dquote line
          && negb (contains_char squote line) then
    if quoted_with dquote line
    then String squote (inner line +:+ String squote "")
    else line
  else line.

(** [_normalize_string_lines]. *)
Definition _normalize_string_lines (self : StringNormalizerPlugin)
    (lines : Output) : Output :=
  match lines with
  | [line] =>
    if negb (quotes self =? "default")%string
    then [normalize_line self line]
    else lines
  | _ => lines
  end.

(** [_should_process_node]. *)
Definition _should_process_node (self : StringNormalizerPlugin) (node : Node)
  : bool :=
  let is_f_string :=
    existsb (fun child => (type child =? "fstring_start")%string)
            (children node) in
  if is_f_string && negb (normalize_f_strings self) then false
  else if (quotes self =? "default")%string then false
  else true.

(** [_process_string_node]. *)
Definition _process_string_node (self : StringNormalizerPlugin) (node : Node)
    (line_gen : LineGen Node Ctx) (ctx : Ctx) : PyResult Output * Ctx :=
  match line_gen node ctx with
  | (Return original_lines, ctx') =>
    match original_lines with
    | [] => (Return original_lines, ctx')
    | _ => (Return (_normalize_string_lines self original_lines), ctx')
    end
  | (Raise e, ctx') => (Raise e, ctx')
  end.

(** [StringNormalizerPlugin.apply_plugin]. *)
Definition normalizer_apply_plugin (self : StringNormalizerPlugin)
    (line_gen : LineGen Node Ctx) (node : Node) (ctx : Ctx)
  : PyResult (option Output) * Ctx :=
  if negb ((type node =? "string")%string || (type node =? "strings")%string)
  then returning (line_gen node ctx)
  else if negb (normalize_docstrings self)
          && match ctx !! "is_docstring" with
             | Some v => truthy v
             | None => false
             end
  then returning (line_gen node ctx)
  else if _should_process_node self node
  then returning (_process_string_node self node line_gen ctx)
  else returning (line_gen node ctx).

Definition normalizer_plugin (self : StringNormalizerPlugin)
  : Plugin Node Ctx :=
  mkPlugin "string_normalizer" (normalizer_apply_plugin self).

End StringNormalizer.

(* ===================================================================== *)
(** * Part II: properties *)
(* ===================================================================== *)

(** ** Profile inheritance *)

Section ProfileInheritance.
Import Profiles.

Lemma effective_unfold depth reg p :
  get_effective_configuration (S depth) p (Some reg) =
  match resolved_parent reg p with
  | Some q => config ← get_effective_configuration depth q (Some reg);
              Return (settings p ∪ config)
  | None => Return (settings p)
  end.
Proof.
  unfold resolved_parent. simpl.
  destruct (parent_name p) as [pn|]; [|done].
  by destruct (get_profile reg pn).
Qed.

Lemma effective_no_registry depth p :
  get_effective_configuration (S depth) p None = Return (settings p).
Proof. simpl. by destruct (parent_name p). Qed.

(** A deeper stack does not change a returned result. *)
Lemma effective_depth_mono reg d :
  ∀ p c d', get_effective_configuration d p (Some reg) = Return c →
            (d ≤ d')%nat →
            get_effective_configuration d' p (Some reg) = Return c.
Proof.
  induction d as [|d IH]; intros p c d' Hc Hle; [discriminate|].
  destruct d' as [|d']; [lia|].
  rewrite effective_unfold in *.
  destruct (resolved_parent reg p) as [q|]; [|done].
  destruct (get_effective_configuration d q (Some reg)) as [cq|e] eqn:Hq;
    [|discriminate].
  by rewrite (IH q cq d' Hq ltac:(lia)).
Qed.

Lemma effective_functional reg p c1 c2 :
  effective reg p c1 → effective reg p c2 → c1 = c2.
Proof.
  intros [d1 H1] [d2 H2].
  apply (effective_depth_mono _ _ _ _ (d1 `max` d2)%nat) in H1; [|lia].
  apply (effective_depth_mono _ _ _ _ (d1 `max` d2)%nat) in H2; [|lia].
  congruence.
Qed.

Lemma effective_step reg p c :
  effective reg p c ↔
  match resolved_parent reg p with
  | Some q => ∃ cq, effective reg q cq ∧ c = settings p ∪ cq
  | None => c = settings p
  end.
Proof.
  split.
  - intros [[|d] Hd]; [discriminate|].
    rewrite effective_unfold in Hd.
    destruct (resolved_parent reg p) as [q|]; [|congruence].
    destruct (get_effective_configuration d q (Some reg)) as [cq|e] eqn:Hq;
      [|discriminate].
    exists cq. split; [by exists d|]. simpl in Hd. congruence.
  - destruct (resolved_parent reg p) as [q|] eqn:Hp.
    + intros (cq & [d Hd] & ->). exists (S d).
      by rewrite effective_unfold, Hp, Hd.
    + intros ->. exists 1%nat. by rewrite effective_unfold, Hp.
Qed.

Lemma effective_C_computed :
  get_effective_configuration 3 profile_C (Some registry_ABC) =
  Return (<["line_length" := VInt 120]>
          (<["skip_string_normalization" := VBool true]> ∅)).
Proof. vm_compute. reflexivity. Qed.

(** C4.  The effective configuration of a profile whose parent name
    resolves in the registry is the parent's effective configuration
    overlaid, key by key, with the profile's own settings, which win on a
    collision; when the parent name does not resolve (no parent, empty
    name, name not registered, or no registry given) the call returns the
    profile's own settings and raises nothing.  On the chain
    A {line_length:88}, B -> A {line_length:120},
    C -> B {skip_string_normalization:true} the result for C is
    {line_length:120, skip_string_normalization:true}. *)
Theorem effective_configuration_inheritance :
  (∀ reg p c,
     effective reg p c ↔
     match resolved_parent reg p with
     | Some q => ∃ cq, effective reg q cq ∧ c = settings p ∪ cq
     | None => c = settings p
     end) ∧
  (∀ (own inherited : gmap string PyVal) k,
     (own ∪ inherited) !! k =
     match own !! k with Some v => Some v | None => inherited !! k end) ∧
  (∀ reg p depth,
     resolved_parent reg p = None →
     get_effective_configuration (S depth) p (Some reg)
     = Return (settings p)) ∧
  (∀ p depth,
     get_effective_configuration (S depth) p None = Return (settings p)) ∧
  effective registry_ABC profile_C
    (<["line_length" := VInt 120]>
     (<["skip_string_normalization" := VBool true]> ∅)).
Proof.
  split; [exact effective_step|].
  split.
  { intros own inherited k. rewrite lookup_union.
    destruct (own !! k), (inherited !! k); done. }
  split.
  { intros reg p depth Hp. by rewrite effective_unfold, Hp. }
  split; [intros; apply effective_no_registry|].
  exists 3%nat. exact effective_C_computed.
Qed.

End ProfileInheritance.

(** ** Saving and loading a profile *)

Section ProfileRoundTrip.
Import Profiles.

Lemma get_registry_initialised h w :
  _registry (get_registry h w).2 = Some (get_registry h w).1.
Proof. unfold get_registry. by destruct (_registry w) eqn:E. Qed.

(** [save_profile] adds the profile to the registry before it writes the
    file, so the registry holds it whatever the writer did;
    [load_profile] then computes its effective configuration there. *)
Lemma load_after_save h depth n d s par location w :
  let p := mkProfile n d "1.0" s par in
  let reg := add_profile (get_registry h w).1 p in
  (load_profile h depth n (save_profile h n d s par location w).2).1 =
  (config ← get_effective_configuration depth p (Some reg);
   Return (Some config)).
Proof.
  intros p reg. unfold save_profile.
  destruct (get_registry h w) as [r0 w1] eqn:Hg. simpl in reg.
  subst p. simpl.
  destruct (registry_save_profile h _ _ location (files w1)) as [r fs'].
  simpl. unfold load_profile, get_registry. simpl.
  unfold get_profile, add_profile. simpl.
  by rewrite lookup_insert_eq.
Qed.

Lemma save_then_load_unfold h depth n d s par location w :
  let p := mkProfile n d "1.0" s par in
  let reg := add_profile (get_registry h w).1 p in
  save_then_load h depth n d s par location w =
  (_ ← (save_profile h n d s par location w).1;
   config ← get_effective_configuration depth p (Some reg);
   Return (Some config)).
Proof.
  intros p reg. unfold save_then_load.
  pose proof (load_after_save h depth n d s par location w) as Hl.
  destruct (save_profile h n d s par location w) as [saved w1].
  simpl in *. by rewrite Hl.
Qed.

Lemma roundtrip_counterexample_computed depth :
  save_then_load quiet_host (S (S depth)) "mine" "mine"
    (<["line_length" := VInt 100]> ∅) (Some "default") "user" initial_world
  = Return (Some (<["line_length" := VInt 100]> (settings builtin_default))).
Proof. vm_compute. reflexivity. Qed.

(** C9, as stated, fails: a profile saved with the parent "default" and
    the single primitive setting line_length = 100 is loaded back with the
    four keys of the built-in default profile. *)
Lemma save_load_roundtrip_fails_with_parent :
  ¬ roundtrip_as_claimed quiet_host "mine" "mine"
      (<["line_length" := VInt 100]> ∅) (Some "default") "user"
      initial_world.
Proof.
  intros H. destruct H as [depth Hd].
  { intros k v Hk. apply lookup_insert_Some in Hk as [[_ <-]|[_ Hk]]; [done|].
    by rewrite lookup_empty in Hk. }
  destruct depth as [|[|depth]]; [vm_compute in Hd; discriminate..|].
  rewrite roundtrip_counterexample_computed in Hd.
  assert (Hl : (<["line_length" := VInt 100]> (settings builtin_default)
                : gmap string PyVal) !! "target_version"
               = (<["line_length" := VInt 100]> ∅ : gmap string PyVal)
                   !! "target_version") by congruence.
  vm_compute in Hl. discriminate.
Qed.

(** C9, amended.  When [save_profile] returns, [load_profile] of the same
    name returns the effective configuration of the saved profile: the
    saved settings themselves when its parent does not resolve, and
    otherwise the parent's effective configuration overlaid with the saved
    settings, in which every saved key keeps its saved value.  The two
    calls in sequence return nothing else. *)
Theorem save_then_load_effective h n d s par location w :
  (save_profile h n d s par location w).1 = Return true →
  let p := mkProfile n d "1.0" s par in
  let reg := add_profile (get_registry h w).1 p in
  (∀ depth,
     resolved_parent reg p = None →
     save_then_load h (S depth) n d s par location w = Return (Some s)) ∧
  (∀ q cq,
     resolved_parent reg p = Some q → effective reg q cq →
     ∃ depth, save_then_load h depth n d s par location w
              = Return (Some (s ∪ cq))) ∧
  (∀ depth r,
     save_then_load h depth n d s par location w = Return r →
     ∃ c, r = Some c ∧ effective reg p c ∧ s ⊆ c).
Proof.
  intros Hsaved p reg. split; [|split].
  - intros depth Hp. rewrite save_then_load_unfold, Hsaved. fold p reg.
    cbn [mbind PyResult_bind Py.bind].
    by rewrite effective_unfold, Hp.
  - intros q cq Hp [dq Hq]. exists (S dq).
    rewrite save_then_load_unfold, Hsaved. fold p reg.
    cbn [mbind PyResult_bind Py.bind].
    by rewrite effective_unfold, Hp, Hq.
  - intros depth r Hr. rewrite save_then_load_unfold, Hsaved in Hr.
    fold p reg in Hr. cbn [mbind PyResult_bind Py.bind] in Hr.
    destruct (get_effective_configuration depth p (Some reg)) as [c|e] eqn:Hc;
      [|discriminate].
    exists c. split; [simpl in Hr; congruence|].
    split; [by exists depth|].
    assert (He : effective reg p c) by (by exists depth).
    apply effective_step in He.
    destruct (resolved_parent reg p) as [q|].
    + destruct He as (cq & _ & ->). apply map_union_subseteq_l.
    + by subst c.
Qed.

(** The theorem applies to a profile saved under a parent name that no
    profile bears. *)
Lemma save_then_load_effective_witness :
  save_then_load quiet_host 1 "mine" "mine" (<["line_length" := VInt 100]> ∅)
                 (Some "nobody") "user" initial_world
  = Return (Some (<["line_length" := VInt 100]> ∅)).
Proof.
  apply (proj1 (save_then_load_effective quiet_host "mine" "mine"
                  (<["line_length" := VInt 100]> ∅) (Some "nobody") "user"
                  initial_world ltac:(by vm_compute)) O).
  by vm_compute.
Defined.

End ProfileRoundTrip.

(** ** Loading the manifest *)

Section ManifestLoad.
Import Config.

(** What the handler of [load_from_pyproject] covers.  When no manifest is
    found (none given and none on the way up from the working directory, or
    the given path is empty or does not exist), or when reading it fails
    with an [OSError] or a [TOMLDecodeError], the call returns normally and
    leaves the plugin configuration as it was; in the two fault cases one
    line is printed on standard error. *)
Lemma caught_load_fault_is_noop (h : Host) (path : option string)
    (cfg : PluginsConfig) :
  (chosen_path h path = Return None →
     load_from_pyproject h path cfg = (Return (), cfg, [])) ∧
  (∀ p, chosen_path h path = Return (Some p) →
        p = "" ∨ path_exists h p = Return false →
        load_from_pyproject h path cfg = (Return (), cfg, [])) ∧
  (∀ p e, chosen_path h path = Return (Some p) →
          p ≠ "" → path_exists h p = Return true →
          read_toml h p = Raise e →
          isinstance e OSError = true ∨ isinstance e TOMLDecodeError = true →
          load_from_pyproject h path cfg
          = (Return (), cfg, [load_error_line e])).
Proof.
  unfold load_from_pyproject. split; [|split].
  - by intros ->.
  - intros p -> [->|Hex]; [done|]. rewrite Hex.
    by destruct (p =? "")%string.
  - intros p e -> Hne Hex Hread Hcls. rewrite Hex.
    apply String.eqb_neq in Hne. rewrite Hne.
    unfold try_load. rewrite Hread.
    unfold load_handler_catches.
    by destruct Hcls as [-> | ->]; rewrite ?orb_true_r.
Qed.

(** An exception outside the two classes of the handler leaves the call,
    whether it comes from reading the file or from the statements that
    take the parsed data apart. *)
Lemma uncaught_load_fault_escapes (h : Host) p cfg e :
  p ≠ "" → path_exists h p = Return true →
  read_toml h p = Raise e → load_handler_catches e = false →
  load_from_pyproject h (Some p) cfg = (Raise e, cfg, []).
Proof.
  intros Hne Hex Hread Hc. unfold load_from_pyproject. simpl.
  apply String.eqb_neq in Hne. rewrite Hne, Hex.
  unfold try_load. by rewrite Hread, Hc.
Qed.

(** C6 at failing inputs.  A manifest that is not UTF-8 text makes
    [tomli.load] raise [UnicodeDecodeError], and a manifest that is valid
    TOML but holds [tool = 1] makes the first [get] raise [AttributeError]:
    neither is an [OSError] or a [TOMLDecodeError], so the exception leaves
    [load_from_pyproject], nothing is printed, and [initialize_plugins]
    ends with it as well.  When the same file is rejected by the parser
    with [TOMLDecodeError], the fault is printed and the call returns with
    the configuration unchanged.  In general, every exception of reading
    and parsing that is outside the two classes leaves the call, and so
    does one raised by the existence test, which stands before the [try]. *)
Theorem manifest_fault_escapes_load :
  load_from_pyproject undecodable_host (Some "latin1.toml")
                      default_plugins_config
  = (Raise undecodable, default_plugins_config, []) ∧
  (∃ e, load_from_pyproject wrong_shape_host (Some "odd.toml")
          default_plugins_config = (Raise e, default_plugins_config, []) ∧
        exc_class e = AttributeError) ∧
  Dispatch.initialize_plugins undecodable_host
    (Registry.broken_unit_host undecodable) (Some "latin1.toml") None []
    Registry.fresh_state
  = (Raise undecodable, Registry.fresh_state) ∧
  load_from_pyproject malformed_host (Some "bad.toml") default_plugins_config
  = (Return (), default_plugins_config,
     ["Error loading pyproject.toml: Invalid statement"]) ∧
  (∀ h p cfg e,
     p ≠ "" → path_exists h p = Return true →
     read_toml h p = Raise e → load_handler_catches e = false →
     load_from_pyproject h (Some p) cfg = (Raise e, cfg, [])) ∧
  (∀ h p cfg e,
     p ≠ "" → path_exists h p = Raise e →
     load_from_pyproject h (Some p) cfg = (Raise e, cfg, [])).
Proof.
  split; [reflexivity|]. split; [by eexists|]. split; [reflexivity|].
  split; [reflexivity|]. split.
  - intros h p cfg e. apply uncaught_load_fault_escapes.
  - intros h p cfg e Hne Hex. unfold load_from_pyproject. simpl.
    apply String.eqb_neq in Hne. by rewrite Hne, Hex.
Qed.

End ManifestLoad.

(** ** Command-line overrides *)

Section CliOverrides.
Import Config.

Lemma set_option_state pc pairs :
  state (foldl set_option pc pairs) = state pc.
Proof.
  revert pc. induction pairs as [|kv pairs IH]; intros pc; [done|].
  simpl. by rewrite IH.
Qed.

Lemma dict_get_app d1 d2 k :
  dict_get (d1 ++ d2) k =
  match dict_get d1 k with Some v => Some v | None => dict_get d2 k end.
Proof.
  induction d1 as [|[k' v'] d1 IH]; [done|].
  simpl. by destruct (k' =? k)%string.
Qed.

(** Later pairs overwrite earlier ones; keys not given keep their value. *)
Lemma set_option_lookup pairs pc k :
  options (foldl set_option pc pairs) !! k =
  match cli_option pairs k with
  | Some v => Some v
  | None => options pc !! k
  end.
Proof.
  unfold cli_option. revert pc.
  induction pairs as [|[k' v'] pairs IH] using rev_ind; intros pc; [done|].
  rewrite foldl_app, rev_app_distr. simpl.
  destruct (k' =? k)%string eqn:Hk.
  - apply String.eqb_eq in Hk as ->. by rewrite lookup_insert_eq.
  - apply String.eqb_neq in Hk. rewrite lookup_insert_ne by done. apply IH.
Qed.

(** The loop over the pairs of a spec leaves the state alone, and when it
    returns it has assigned every pair that carries a value. *)
Lemma set_options_state h pairs pc :
  state (set_options h pc pairs).2 = state pc.
Proof.
  revert pc. induction pairs as [|item pairs IH]; intros pc; [done|].
  simpl. destruct (parse_pair h item) as [[kv|]|e]; [|by apply IH|done].
  by rewrite IH.
Qed.

Lemma set_options_returns h pairs pc :
  (∀ item, item ∈ pairs → ∃ r, parse_pair h item = Return r) →
  set_options h pc pairs
  = (Return (), foldl set_option pc (omap (parsed_pair h) pairs)).
Proof.
  revert pc. induction pairs as [|item pairs IH]; intros pc Hall; [done|].
  destruct (Hall item) as [r Hr]; [by left|].
  assert (Hrest : ∀ x, x ∈ pairs → ∃ r, parse_pair h x = Return r)
    by (intros x Hx; apply Hall; by right).
  cbn [set_options omap list_omap]. unfold parsed_pair at 1. rewrite Hr.
  destruct r as [kv|]; by rewrite (IH _ Hrest).
Qed.

Lemma set_options_returned h pairs pc pc' :
  set_options h pc pairs = (Return (), pc') →
  (∀ item, item ∈ pairs → ∃ r, parse_pair h item = Return r) ∧
  pc' = foldl set_option pc (omap (parsed_pair h) pairs).
Proof.
  revert pc. induction pairs as [|item pairs IH]; intros pc Hs.
  { injection Hs as <-. split; [|done]. by intros ? ?%elem_of_nil. }
  cbn [set_options] in Hs. cbn [omap list_omap]. unfold parsed_pair at 1.
  destruct (parse_pair h item) as [r|e] eqn:Hr; [|discriminate].
  assert (Hrest : set_options h (match r with
                                 | Some kv => set_option pc kv
                                 | None => pc
                                 end) pairs = (Return (), pc'))
    by (by destruct r).
  destruct (IH _ Hrest) as [Hall ->]. split.
  - intros x [->|Hx]%elem_of_cons; [by eexists|by apply Hall].
  - by destruct r.
Qed.

Lemma enable_from_spec_other h configs spec n :
  n ≠ spec_name spec →
  (enable_from_spec h configs spec).2 !! n = configs !! n.
Proof.
  intros Hn. unfold enable_from_spec.
  destruct (set_options h _ (option_pairs spec)) as [r pc'].
  simpl. by rewrite lookup_insert_ne.
Qed.

Lemma enable_from_spec_self h configs spec :
  ∃ pc, (enable_from_spec h configs spec).2 !! spec_name spec = Some pc ∧
        state pc = ENABLED.
Proof.
  unfold enable_from_spec.
  pose proof (set_options_state h (option_pairs spec)
                (set_state ENABLED (get_or_create (spec_name spec) configs)))
    as Hs.
  destruct (set_options h _ (option_pairs spec)) as [r pc'].
  exists pc'. simpl. by rewrite lookup_insert_eq.
Qed.

Lemma disable_by_name_other configs m n :
  n ≠ m → disable_by_name configs m !! n = configs !! n.
Proof. intros Hn. unfold disable_by_name. by rewrite lookup_insert_ne. Qed.

Lemma disable_by_name_self configs n :
  ∃ pc, disable_by_name configs n !! n = Some pc ∧ state pc = DISABLED.
Proof. unfold disable_by_name. eexists. by rewrite lookup_insert_eq. Qed.

Lemma enable_specs_cons h configs spec rest :
  enable_specs h configs (spec :: rest) =
  match (enable_from_spec h configs spec).1 with
  | Return _ => enable_specs h (enable_from_spec h configs spec).2 rest
  | Raise e => (Raise e, (enable_from_spec h configs spec).2)
  end.
Proof.
  cbn [enable_specs].
  by destruct (enable_from_spec h configs spec) as [[[]|e] configs'].
Qed.

Lemma enable_specs_untouched h specs configs n :
  n ∉ spec_name <$> specs →
  (enable_specs h configs specs).2 !! n = configs !! n.
Proof.
  revert configs. induction specs as [|spec specs IH]; intros configs Hn; [done|].
  rewrite fmap_cons, not_elem_of_cons in Hn. destruct Hn as [Hne Hn].
  rewrite enable_specs_cons.
  destruct (enable_from_spec h configs spec).1 as [[]|e].
  - rewrite IH by done. by apply enable_from_spec_other.
  - simpl. by apply enable_from_spec_other.
Qed.

Lemma enable_specs_enabled h specs configs n :
  (enable_specs h configs specs).1 = Return () →
  n ∈ spec_name <$> specs →
  ∃ pc, (enable_specs h configs specs).2 !! n = Some pc ∧
        state pc = ENABLED.
Proof.
  revert configs. induction specs as [|spec specs IH]; intros configs Hr Hn.
  { by apply elem_of_nil in Hn. }
  rewrite enable_specs_cons in *.
  destruct (enable_from_spec h configs spec).1 as [[]|e]; [|discriminate].
  destruct (decide (n ∈ spec_name <$> specs)) as [Hin|Hout].
  - by apply IH.
  - rewrite enable_specs_untouched by done.
    rewrite fmap_cons in Hn. apply elem_of_cons in Hn as [->|Hn]; [|done].
    apply enable_from_spec_self.
Qed.

Lemma disable_names_untouched names configs n :
  n ∉ names → foldl disable_by_name configs names !! n = configs !! n.
Proof.
  revert configs. induction names as [|m names IH]; intros configs Hn; [done|].
  rewrite not_elem_of_cons in Hn. destruct Hn as [Hne Hn].
  simpl. rewrite IH by done. by apply disable_by_name_other.
Qed.

Lemma disable_names_disabled names configs n :
  n ∈ names →
  ∃ pc, foldl disable_by_name configs names !! n = Some pc ∧
        state pc = DISABLED.
Proof.
  revert configs.
  induction names as [|m names IH] using rev_ind; intros configs Hn.
  { by apply elem_of_nil in Hn. }
  rewrite foldl_app. simpl.
  destruct (decide (n = m)) as [->|Hne].
  - apply disable_by_name_self.
  - rewrite disable_by_name_other by done. apply IH.
    rewrite elem_of_app in Hn. destruct Hn as [Hn|Hn]; [done|].
    apply list_elem_of_singleton in Hn. done.
Qed.

(** When the two loops return, the configuration is the one the
    [--plugin] loop built, with the [--disable-plugin] names disabled. *)
Lemma apply_cli_specs_inv h cli cfg cfg' :
  apply_cli_specs h cli cfg = (Return (), cfg') →
  (enable_specs h (plugin_configs cfg) (plugin cli)).1 = Return () ∧
  cfg' = with_plugin_configs cfg
           (foldl disable_by_name
                  (enable_specs h (plugin_configs cfg) (plugin cli)).2
                  (disable_plugin cli)).
Proof.
  unfold apply_cli_specs.
  destruct (enable_specs h (plugin_configs cfg) (plugin cli))
    as [[[]|e] configs]; intros H; [|discriminate].
  by injection H as <-.
Qed.

(** The [--plugin] loop returns when every value can be converted. *)
Lemma enable_specs_returns h specs configs :
  (∀ spec, spec ∈ specs → convertible h spec) →
  (enable_specs h configs specs).1 = Return ().
Proof.
  revert configs. induction specs as [|spec specs IH]; intros configs Hall;
    [done|].
  rewrite enable_specs_cons.
  assert (Hhead : (enable_from_spec h configs spec).1 = Return ()).
  { unfold enable_from_spec.
    by rewrite (set_options_returns h _ _ (Hall spec ltac:(by left))). }
  rewrite Hhead. apply IH. intros x Hx. apply Hall. by right.
Qed.

Lemma apply_cli_specs_returns h cli cfg :
  (∀ spec, spec ∈ plugin cli → convertible h spec) →
  (apply_cli_specs h cli cfg).1 = Return ().
Proof.
  intros Hall. unfold apply_cli_specs.
  pose proof (enable_specs_returns h (plugin cli) (plugin_configs cfg) Hall).
  by destruct (enable_specs h (plugin_configs cfg) (plugin cli))
    as [[[]|e] configs].
Qed.

Lemma update_from_cli_inv h cli cfg cfg' err :
  update_from_cli h cli cfg = (Return (), cfg', err) →
  ∃ manifest, reload_manifest h cli cfg = (Return (), manifest, err) ∧
              apply_cli_specs h cli manifest = (Return (), cfg').
Proof.
  unfold update_from_cli.
  destruct (reload_manifest h cli cfg) as [[[[]|e] cfg2] err2]; intros H;
    [|discriminate].
  destruct (apply_cli_specs h cli cfg2) as [r' cfg3] eqn:Ha.
  injection H as -> -> ->. by exists cfg2.
Qed.

(** C3.  Whenever [update_from_cli] returns, a plugin name given to
    [--disable-plugin] is disabled in the resulting configuration, also when
    a [--plugin] spec names it, and whatever the order of the flags (the
    namespace keeps the two lists apart).  Below that, a name given only to
    [--plugin] is enabled; a name given to neither keeps its manifest entry;
    and a name without an entry, or with the default state, follows
    [enable_by_default] when the registry decides. *)
Theorem cli_disable_wins (h : Host) (cli : CliArgs) (cfg cfg' : PluginsConfig)
    (err : list string) :
  update_from_cli h cli cfg = (Return (), cfg', err) →
  ∃ manifest,
    reload_manifest h cli cfg = (Return (), manifest, err) ∧
    ∀ n,
      (n ∈ disable_plugin cli →
         state_of cfg' n = Some DISABLED ∧
         Registry.plugin_enabled cfg' n = false) ∧
      (n ∉ disable_plugin cli → n ∈ spec_name <$> plugin cli →
         state_of cfg' n = Some ENABLED ∧
         Registry.plugin_enabled cfg' n = true) ∧
      (n ∉ disable_plugin cli → n ∉ spec_name <$> plugin cli →
         plugin_configs cfg' !! n = plugin_configs manifest !! n ∧
         Registry.plugin_enabled cfg' n = Registry.plugin_enabled manifest n) ∧
      (state_of manifest n = None ∨ state_of manifest n = Some DEFAULT →
         Registry.plugin_enabled manifest n
         = truthy (enable_by_default manifest)).
Proof.
  intros Hupd. apply update_from_cli_inv in Hupd as (manifest & Hre & Hcli).
  apply apply_cli_specs_inv in Hcli as [Hen ->].
  exists manifest. split; [done|]. intros n.
  unfold state_of, Registry.plugin_enabled. simpl.
  split; [|split; [|split]].
  - intros Hdis.
    destruct (disable_names_disabled _
      (enable_specs h (plugin_configs manifest) (plugin cli)).2 n Hdis)
      as (pc & -> & Hs). simpl. by rewrite Hs.
  - intros Hdis Hin. rewrite disable_names_untouched by done.
    destruct (enable_specs_enabled h _ (plugin_configs manifest) n Hen Hin)
      as (pc & -> & Hs). simpl. by rewrite Hs.
  - intros Hdis Hin. rewrite disable_names_untouched by done.
    by rewrite enable_specs_untouched.
  - intros [Hs|Hs]; destruct (plugin_configs manifest !! n) as [pc|];
      simpl in *; try done.
    injection Hs as ->. done.
Qed.

(** The theorem applies to a command line that names "fmt" in both flags. *)
Lemma cli_disable_wins_witness :
  ∃ manifest,
    reload_manifest empty_host cli_both_flags default_plugins_config
    = (Return (), manifest, []) ∧
    ∀ n,
      (n ∈ disable_plugin cli_both_flags →
         state_of (update_from_cli empty_host cli_both_flags
                     default_plugins_config).1.2 n
         = Some DISABLED ∧
         Registry.plugin_enabled
           (update_from_cli empty_host cli_both_flags
              default_plugins_config).1.2 n = false) ∧
      (n ∉ disable_plugin cli_both_flags →
       n ∈ spec_name <$> plugin cli_both_flags →
         state_of (update_from_cli empty_host cli_both_flags
                     default_plugins_config).1.2 n
         = Some ENABLED ∧
         Registry.plugin_enabled
           (update_from_cli empty_host cli_both_flags
              default_plugins_config).1.2 n = true) ∧
      (n ∉ disable_plugin cli_both_flags →
       n ∉ spec_name <$> plugin cli_both_flags →
         plugin_configs (update_from_cli empty_host cli_both_flags
                           default_plugins_config).1.2
           !! n = plugin_configs manifest !! n ∧
         Registry.plugin_enabled
           (update_from_cli empty_host cli_both_flags
              default_plugins_config).1.2 n
         = Registry.plugin_enabled manifest n) ∧
      (state_of manifest n = None ∨ state_of manifest n = Some DEFAULT →
         Registry.plugin_enabled manifest n
         = truthy (enable_by_default manifest)).
Proof.
  apply (cli_disable_wins empty_host cli_both_flags default_plugins_config
           (update_from_cli empty_host cli_both_flags
              default_plugins_config).1.2 []).
  by vm_compute.
Defined.

End CliOverrides.

(** ** Option values given on the command line *)

Section CliOptionValues.
Import Config.

Lemma lower_char_is_digit c : is_digit (lower_char c) = is_digit c.
Proof. by destruct c as [[] [] [] [] [] [] [] []]. Qed.

Lemma lower_char_is_point c : (lower_char c =? ".")%char = (c =? ".")%char.
Proof. by destruct c as [[] [] [] [] [] [] [] []]. Qed.

Lemma lower_all_digits s : all_chars is_digit (lower s) = all_chars is_digit s.
Proof.
  induction s as [|c s IH]; [done|].
  simpl. by rewrite lower_char_is_digit, IH.
Qed.

Lemma lower_isdigit s : isdigit (lower s) = isdigit s.
Proof. unfold isdigit. rewrite lower_all_digits. by destruct s. Qed.

Lemma lower_remove_first s :
  lower (remove_first "." s) = remove_first "." (lower s).
Proof.
  induction s as [|c s IH]; [done|].
  simpl. rewrite lower_char_is_point.
  destruct (c =? ".")%char; [done|]. simpl. by rewrite IH.
Qed.

(** A value spelling true or false in any letter case is not numeric. *)
Lemma boolean_word_not_numeric s :
  lower s = "true" ∨ lower s = "false" →
  isdigit s = false ∧ isdigit (remove_first "." s) = false.
Proof.
  intros H.
  rewrite <- (lower_isdigit s), <- (lower_isdigit (remove_first "." s)).
  rewrite lower_remove_first. by destruct H as [-> | ->].
Qed.

Lemma all_chars_app f a b :
  all_chars f (a +:+ b) = all_chars f a && all_chars f b.
Proof.
  induction a as [|c a IH]; [done|].
  simpl. by rewrite IH, andb_assoc.
Qed.

Lemma digit_is_not_point c : is_digit c = true → (c =? ".")%char = false.
Proof. by destruct c as [[] [] [] [] [] [] [] []]. Qed.

Lemma partition_on_spec c s :
  match partition_on c s with
  | Some (a, b) => s = a +:+ String c b ∧ remove_first c s = a +:+ b
  | None => remove_first c s = s
  end.
Proof.
  induction s as [|x s IH]; [done|].
  simpl. destruct (x =? c)%char eqn:Hx.
  - apply Ascii.eqb_eq in Hx as ->. done.
  - destruct (partition_on c s) as [[a b]|].
    + destruct IH as [-> ->]. done.
    + by rewrite IH.
Qed.

Lemma digits_then_point a b :
  all_chars is_digit a = true →
  remove_first "." (a +:+ String "." b) = a +:+ b ∧
  count_char "." (a +:+ String "." b) = S (count_char "." b) ∧
  all_chars is_digit (a +:+ String "." b) = false.
Proof.
  induction a as [|c a IH]; [done|].
  simpl. intros [Hc Ha]%andb_true_iff.
  rewrite (digit_is_not_point c Hc), Hc.
  destruct (IH Ha) as (-> & -> & ->). done.
Qed.

Lemma digits_have_no_point b :
  all_chars is_digit b = true → count_char "." b = O.
Proof.
  induction b as [|c b IH]; [done|].
  simpl. intros [Hc Hb]%andb_true_iff.
  by rewrite (digit_is_not_point c Hc), IH.
Qed.

Lemma append_nonempty a b : a +:+ b ≠ "" → (a +:+ b =? "")%string = false.
Proof. intros H. by apply String.eqb_neq. Qed.

(** The float test of the code accepts exactly the decimal literals. *)
Lemma decimal_form_test value :
  decimal_form value →
  isdigit value = false ∧
  isdigit (remove_first "." value) && (count_char "." value <=? 1)%nat = true.
Proof.
  intros (a & b & -> & Ha & Hb & Hne).
  change ("." +:+ b) with (String "." b).
  destruct (digits_then_point a b Ha) as (-> & -> & Hnd).
  unfold isdigit. rewrite Hnd, andb_false_r. split; [done|].
  rewrite all_chars_app, Ha, Hb, (digits_have_no_point b Hb).
  by rewrite append_nonempty.
Qed.

Lemma test_decimal_form value :
  isdigit value = false →
  isdigit (remove_first "." value) && (count_char "." value <=? 1)%nat = true →
  decimal_form value.
Proof.
  intros Hnd [Hd _]%andb_true_iff.
  pose proof (partition_on_spec "." value) as Hp.
  destruct (partition_on "." value) as [[a b]|].
  - destruct Hp as [-> Hr]. rewrite Hr in Hd.
    apply andb_true_iff in Hd as [Hne Hall].
    rewrite all_chars_app in Hall. apply andb_true_iff in Hall as [Ha Hb].
    exists a, b. repeat split; try done.
    intros Heq. by rewrite Heq in Hne.
  - rewrite Hp in Hd. congruence.
Qed.

Lemma int_of_string_cases h value :
  (within_int_limit h value →
     int_of_string h value = Return (VInt (int_of_digits value))) ∧
  (¬ within_int_limit h value →
     ∃ e, int_of_string h value = Raise e ∧ exc_class e = ValueError).
Proof.
  unfold int_of_string, within_int_limit.
  destruct (640 <? String.length value)%nat eqn:Hmin;
    destruct (0 <? int_max_str_digits h)%nat eqn:Hpos;
    destruct (int_max_str_digits h <? String.length value)%nat eqn:Hlen;
    simpl; split; try done;
    try (intros _; by eexists);
    rewrite ?Nat.ltb_lt, ?Nat.ltb_ge in *; lia.
Qed.

Lemma convert_value_cases h value :
  (lower value = "true" → convert_value h value = Return (VBool true)) ∧
  (lower value = "false" → convert_value h value = Return (VBool false)) ∧
  (isdigit value = true → within_int_limit h value →
   convert_value h value = Return (VInt (int_of_digits value))) ∧
  (isdigit value = true → ¬ within_int_limit h value →
   ∃ e, convert_value h value = Raise e ∧ exc_class e = ValueError) ∧
  (decimal_form value → convert_value h value = Return (VFloat value)) ∧
  (lower value ≠ "true" → lower value ≠ "false" → isdigit value = false →
   ¬ decimal_form value → convert_value h value = Return (VStr value)).
Proof.
  assert (Hint : isdigit value = true →
                 convert_value h value = int_of_string h value).
  { intros Hd. unfold convert_value.
    destruct (lower value =? "true")%string eqn:Ht.
    { apply String.eqb_eq in Ht.
      destruct (boolean_word_not_numeric value (or_introl Ht)). congruence. }
    destruct (lower value =? "false")%string eqn:Hf.
    { apply String.eqb_eq in Hf.
      destruct (boolean_word_not_numeric value (or_intror Hf)). congruence. }
    by rewrite Hd. }
  split; [|split; [|split; [|split; [|split]]]].
  - unfold convert_value. by intros ->.
  - unfold convert_value. by intros ->.
  - intros Hd Hlim. rewrite (Hint Hd).
    by apply (int_of_string_cases h value).
  - intros Hd Hlim. rewrite (Hint Hd).
    by apply (int_of_string_cases h value).
  - unfold convert_value.
    intros Hdec. destruct (decimal_form_test value Hdec) as [Hnd Htest].
    apply andb_true_iff in Htest as [Hr Hc].
    destruct (lower value =? "true")%string eqn:Ht.
    { apply String.eqb_eq in Ht.
      destruct (boolean_word_not_numeric value (or_introl Ht)). congruence. }
    destruct (lower value =? "false")%string eqn:Hf.
    { apply String.eqb_eq in Hf.
      destruct (boolean_word_not_numeric value (or_intror Hf)). congruence. }
    by rewrite Hnd, Hr, Hc.
  - unfold convert_value.
    intros Ht Hf Hnd Hdec.
    apply String.eqb_neq in Ht, Hf. rewrite Ht, Hf, Hnd.
    destruct (isdigit (remove_first "." value)
              && (count_char "." value <=? 1)%nat) eqn:Htest; [|done].
    destruct Hdec. by apply test_decimal_form.
Qed.

(** C5, as stated, fails: the value TRUE is not the literal string true,
    yet the code turns it into the boolean. *)
Lemma convert_value_ignores_case :
  convert_value empty_host "TRUE" = Return (VBool true) ∧
  convert_value_as_claimed "TRUE" = VStr "TRUE" ∧
  convert_value empty_host "TRUE"
  ≠ Return (convert_value_as_claimed "TRUE").
Proof. repeat split. discriminate. Qed.

(** C5, amended.  A [--plugin NAME[:k=v,...]] spec leaves the named plugin
    enabled and no other plugin changed.  When its values can all be
    converted, and only then, its processing returns, and the option map is
    the previous one (the manifest's, or empty) in which each given key has
    the converted value of its last pair and every other key is as
    before.  The conversion maps true and false, in any letter
    case, to booleans, a string of digits to the integer when it has no
    more digits than the interpreter converts (and raises [ValueError]
    beyond that), a decimal literal with one point to a float, and any other
    string to itself. *)
Theorem cli_plugin_spec_enables_and_merges :
  (∀ h configs spec,
     convertible h spec →
     ∃ pc, enable_from_spec h configs spec
           = (Return (), <[spec_name spec := pc]> configs) ∧
           state pc = ENABLED ∧
           ∀ k, options pc !! k =
                match cli_option (spec_pairs h spec) k with
                | Some v => Some v
                | None => options (get_or_create (spec_name spec) configs) !! k
                end) ∧
  (∀ h configs spec,
     (enable_from_spec h configs spec).1 = Return () → convertible h spec) ∧
  (∀ h configs spec,
     ∃ pc, (enable_from_spec h configs spec).2 !! spec_name spec = Some pc ∧
           state pc = ENABLED) ∧
  (∀ h configs spec n,
     n ≠ spec_name spec →
     (enable_from_spec h configs spec).2 !! n = configs !! n) ∧
  (∀ h value,
     (lower value = "true" → convert_value h value = Return (VBool true)) ∧
     (lower value = "false" → convert_value h value = Return (VBool false)) ∧
     (isdigit value = true → within_int_limit h value →
      convert_value h value = Return (VInt (int_of_digits value))) ∧
     (isdigit value = true → ¬ within_int_limit h value →
      ∃ e, convert_value h value = Raise e ∧ exc_class e = ValueError) ∧
     (decimal_form value → convert_value h value = Return (VFloat value)) ∧
     (lower value ≠ "true" → lower value ≠ "false" → isdigit value = false →
      ¬ decimal_form value → convert_value h value = Return (VStr value))) ∧
  (options <$> (enable_from_spec empty_host manifest_fmt
                  "fmt: width=100, ratio=1.5,strict=False ,tag=v2").2 !! "fmt")
  = Some (<["width" := VInt 100]> (<["mode" := VStr "safe"]>
          (<["ratio" := VFloat "1.5"]> (<["strict" := VBool false]>
          (<["tag" := VStr "v2"]> ∅))))).
Proof.
  split; [|split; [|split; [|split; [|split]]]].
  - intros h configs spec Hconv. unfold enable_from_spec.
    rewrite (set_options_returns h _ _ Hconv). eexists. split; [done|].
    split; [by rewrite set_option_state|].
    intros k. by rewrite set_option_lookup.
  - intros h configs spec. unfold enable_from_spec.
    destruct (set_options h _ (option_pairs spec)) as [r pc'] eqn:Hs.
    simpl. intros ->. by apply set_options_returned in Hs as [Hall _].
  - intros h configs spec. apply enable_from_spec_self.
  - intros h configs spec n Hn. by apply enable_from_spec_other.
  - exact convert_value_cases.
  - vm_compute. reflexivity.
Qed.

End CliOptionValues.

(** ** The dispatch pipeline *)

Section DispatchPipeline.
Import Base Dispatch.
Context {Node W : Type}.
Implicit Types (plugins pre rest : list (Plugin Node W)).
Implicit Types (p : Plugin Node W) (line_gen : LineGen Node W).
Implicit Types (node : Node) (w : W).

Lemma apply_plugins_is_loop plugins line_gen node w :
  _apply_plugins plugins line_gen node w = apply_loop plugins line_gen node w.
Proof. by destruct plugins. Qed.

(** Plugins that all deferred (or failed and were logged) hand the node, and
    the state they left, to the plugins after them. *)
Lemma apply_loop_app pre rest line_gen node w w0 err0 :
  apply_loop pre line_gen node w = (Return None, w0, err0) →
  apply_loop (pre ++ rest) line_gen node w =
  (let '(r, w', err) := apply_loop rest line_gen node w0 in
   (r, w', (err0 ++ err)%list)).
Proof.
  revert w err0. induction pre as [|q pre IH]; intros w err0 Hpre; simpl in *.
  { injection Hpre as ? ?; subst.
    by destruct (apply_loop rest line_gen node w0) as [[r w'] err]. }
  destruct (apply_plugin q line_gen node w) as [[[result|]|e] w1].
  - discriminate.
  - by apply IH.
  - destruct (isinstance e Exception); [|discriminate].
    destruct (apply_loop pre line_gen node w1) as [[r1 w2] err1] eqn:Hq.
    injection Hpre as ? ? ?; subst.
    rewrite (IH w1 err1 Hq).
    by destruct (apply_loop rest line_gen node w0) as [[r w'] err].
Qed.

Lemma visit_app pre rest line_gen node w w0 err0 :
  apply_loop pre line_gen node w = (Return None, w0, err0) →
  visit (pre ++ rest) line_gen node w =
  (let '(r, w', err) := visit rest line_gen node w0 in (r, w', (err0 ++ err)%list)).
Proof.
  intros Hpre. unfold visit. rewrite !apply_plugins_is_loop.
  rewrite (apply_loop_app _ _ _ _ _ _ _ Hpre).
  destruct (apply_loop rest line_gen node w0) as [[[[result|]|e] w1] err];
    try done.
  by destruct (line_gen node w1).
Qed.

Lemma visit_cons_defer p rest line_gen node w w1 :
  apply_plugin p line_gen node w = (Return None, w1) →
  visit (p :: rest) line_gen node w = visit rest line_gen node w1.
Proof.
  intros Hp. unfold visit. rewrite !apply_plugins_is_loop. simpl.
  by rewrite Hp.
Qed.

Lemma visit_cons_result p rest line_gen node w w1 result :
  apply_plugin p line_gen node w = (Return (Some result), w1) →
  visit (p :: rest) line_gen node w = (Return result, w1, []).
Proof. intros Hp. unfold visit. simpl. by rewrite Hp. Qed.

Lemma visit_cons_fault p rest line_gen node w w1 e :
  apply_plugin p line_gen node w = (Raise e, w1) →
  isinstance e Exception = true →
  visit (p :: rest) line_gen node w =
  (let '(r, w', err) := visit rest line_gen node w1 in
   (r, w', apply_error_line p e :: err)).
Proof.
  intros Hp He. unfold visit. rewrite !apply_plugins_is_loop. simpl.
  rewrite Hp, He.
  destruct (apply_loop rest line_gen node w1) as [[[[result|]|e'] w2] err];
    try done.
  by destruct (line_gen node w2).
Qed.

(** C1, amended.  Let the plugins before [p] have handed the node on, and
    let [p.apply_plugin] raise an instance of [Exception].  Then the exception
    does not leave the pipeline: one line naming [p.PLUGIN_NAME] is printed,
    and the outcome and the state are those of the remaining plugins and the
    host renderer run from the state [p] left, exactly as when a plugin in
    its place returns [None].  So a later plugin that returns lines has them
    returned, and with no plugin left the host renderer's output is
    returned. *)
Theorem plugin_fault_is_deferral pre p rest line_gen node w w0 err0 e w1 :
  apply_loop pre line_gen node w = (Return None, w0, err0) →
  apply_plugin p line_gen node w0 = (Raise e, w1) →
  isinstance e Exception = true →
  visit (pre ++ p :: rest) line_gen node w =
    (let '(r, w', err) := visit rest line_gen node w1 in
     (r, w', (err0 ++ apply_error_line p e :: err)%list)) ∧
  apply_error_line p e
    = "Error applying plugin " +:+ PLUGIN_NAME p +:+ ": " +:+ exc_str e ∧
  (∀ p', apply_plugin p' line_gen node w0 = (Return None, w1) →
     visit (pre ++ p' :: rest) line_gen node w =
       (let '(r, w', err) := visit rest line_gen node w1 in
        (r, w', (err0 ++ err)%list))) ∧
  (∀ good rest' result w2,
     rest = good :: rest' →
     apply_plugin good line_gen node w1 = (Return (Some result), w2) →
     visit (pre ++ p :: rest) line_gen node w =
       (Return result, w2, (err0 ++ [apply_error_line p e])%list)) ∧
  (rest = [] →
     visit (pre ++ p :: rest) line_gen node w =
       ((line_gen node w1).1, (line_gen node w1).2,
        (err0 ++ [apply_error_line p e])%list)).
Proof.
  intros Hpre Hp He.
  assert (Hv : visit (pre ++ p :: rest) line_gen node w =
    (let '(r, w', err) := visit rest line_gen node w1 in
     (r, w', (err0 ++ apply_error_line p e :: err)%list))).
  { rewrite (visit_app _ _ _ _ _ _ _ Hpre).
    rewrite (visit_cons_fault _ _ _ _ _ _ _ Hp He).
    by destruct (visit rest line_gen node w1) as [[r w'] err]. }
  split; [exact Hv|]. split; [done|]. split; [|split].
  - intros p' Hp'. rewrite (visit_app _ _ _ _ _ _ _ Hpre).
    by rewrite (visit_cons_defer _ _ _ _ _ _ Hp').
  - intros good rest' result w2 -> Hgood. rewrite Hv.
    by rewrite (visit_cons_result _ _ _ _ _ _ _ Hgood).
  - intros ->. rewrite Hv. unfold visit. simpl.
    by destruct (line_gen node w1).
Qed.

(** C2, amended.  Plugins are offered the node in list order.  When the
    plugins before [p] handed the node on and [p] returns a result other
    than [None] -- an empty list included -- that result is returned as it
    is, whatever plugins follow and whatever the host renderer would
    produce.  A plugin returning [None] passes the node, with the state it
    left, to the next plugin, and after the last plugin the host renderer's
    output is returned. *)
Theorem first_result_short_circuits :
  (∀ pre p rest line_gen node w w0 err0 result w1,
     apply_loop pre line_gen node w = (Return None, w0, err0) →
     apply_plugin p line_gen node w0 = (Return (Some result), w1) →
     visit (pre ++ p :: rest) line_gen node w = (Return result, w1, err0)) ∧
  (∀ p rest line_gen node w w1,
     apply_plugin p line_gen node w = (Return None, w1) →
     apply_loop [p] line_gen node w = (Return None, w1, []) ∧
     visit (p :: rest) line_gen node w = visit rest line_gen node w1) ∧
  (∀ line_gen node w,
     visit [] line_gen node w
     = ((line_gen node w).1, (line_gen node w).2, [])).
Proof.
  split; [|split].
  - intros pre p rest line_gen node w w0 err0 result w1 Hpre Hp.
    rewrite (visit_app _ _ _ _ _ _ _ Hpre).
    rewrite (visit_cons_result _ _ _ _ _ _ _ Hp).
    by rewrite app_nil_r.
  - intros p rest line_gen node w w1 Hp. split.
    + simpl. by rewrite Hp.
    + by apply visit_cons_defer.
  - intros line_gen node w. unfold visit. simpl.
    by destruct (line_gen node w).
Qed.

End DispatchPipeline.

Section DispatchExamples.
Import Base Dispatch.

(** The fault theorem applies to a raising plugin placed between a deferring
    plugin and one that returns a line. *)
Lemma plugin_fault_is_deferral_witness :
  visit ([deferring_plugin] ++ raising_plugin :: [line_plugin])
        host_renderer () O
  = (Return ["x = 1"], 3%nat, ["Error applying plugin boom: boom"]).
Proof.
  pose proof (plugin_fault_is_deferral [deferring_plugin] raising_plugin
                [line_plugin] host_renderer () O 1%nat []
                (mkExc RuntimeError "boom") 2%nat
                eq_refl eq_refl eq_refl) as (_ & _ & _ & H & _).
  exact (H line_plugin [] ["x = 1"] 3%nat eq_refl eq_refl).
Defined.

(** C1, as stated, fails: an exception that is not an instance of
    [Exception] is not caught.  With a plugin raising [KeyboardInterrupt] in
    front of a plugin returning a line, [visit] ends with the exception,
    nothing is printed, and the second plugin is never offered the node;
    had the first plugin been treated as deferring, the line of the second
    would have been returned. *)
Lemma interrupt_is_not_deferral :
  visit [interrupted_plugin; line_plugin] host_renderer () O
  = (Raise (mkExc KeyboardInterrupt ""), 1%nat, []) ∧
  visit [deferring_plugin; line_plugin] host_renderer () O
  = (Return ["x = 1"], 2%nat, []) ∧
  isinstance (mkExc KeyboardInterrupt "") Exception = false ∧
  (visit [interrupted_plugin; line_plugin] host_renderer () O).1.1
  ≠ (visit [deferring_plugin; line_plugin] host_renderer () O).1.1.
Proof. repeat split. discriminate. Qed.

(** C2, as stated, fails: with a plugin returning the empty list in front
    of a plugin returning a line, the second is the first to return a
    non-empty result, yet the empty list is what [visit] returns. *)
Lemma empty_result_short_circuits :
  (visit [empty_plugin; line_plugin] host_renderer () O).1.1 = Return [] ∧
  (dispatch_as_claimed [empty_plugin; line_plugin] host_renderer () O).1
    = Return ["x = 1"] ∧
  (visit [empty_plugin; line_plugin] host_renderer () O).1.1
    ≠ (dispatch_as_claimed [empty_plugin; line_plugin] host_renderer () O).1.
Proof. repeat split. discriminate. Qed.

(** The amended statement applies to the same two plugins. *)
Lemma first_result_short_circuits_witness :
  visit ([] ++ empty_plugin :: [line_plugin]) host_renderer () O
  = (Return [], 1%nat, []).
Proof.
  exact (proj1 first_result_short_circuits [] empty_plugin [line_plugin]
           host_renderer () O O [] [] 1%nat eq_refl eq_refl).
Defined.

End DispatchExamples.

(** ** Plugin discovery *)

Section Discovery.
Import Base Registry.
Context {Node W : Type}.

(** The [finally] clause: [sys.path] is the same after [discover_plugins]
    as before, whether the call returned or raised. *)
Lemma discover_restores_sys_path (h : Host Node W) paths (st : State Node W) :
  sys_path (discover_plugins h paths st).2 = sys_path st.
Proof.
  unfold discover_plugins.
  by destruct (scan_paths h _ _ (plugin_classes st) (stderr st)) as [[r c] e].
Qed.

(** A unit whose import raises an [ImportError] is logged and skipped. *)
Lemma import_error_is_skipped (h : Host Node W) search_path item rest
    classes err e :
  is_candidate item = true →
  import_module h search_path (drop_last 3 item) = Raise e →
  isinstance e ImportError = true →
  scan_items h search_path (item :: rest) classes err =
  scan_items h search_path rest classes
             (err ++ [import_error_line (drop_last 3 item) e])%list.
Proof. intros Hc Hi He. simpl. by rewrite Hc, Hi, He. Qed.

(** A unit whose import raises anything else ends the scan: the units after
    it are not imported. *)
Lemma other_error_aborts_scan (h : Host Node W) search_path item rest
    classes err e :
  is_candidate item = true →
  import_module h search_path (drop_last 3 item) = Raise e →
  isinstance e ImportError = false →
  scan_items h search_path (item :: rest) classes err = (Raise e, classes, err).
Proof. intros Hc Hi He. simpl. by rewrite Hc, Hi, He. Qed.

End Discovery.

Section DiscoveryExamples.
Import Base Registry.

(** C7 at a failing input.  In a plugins directory holding broken.py and
    good.py, a [SyntaxError] raised by the import of broken.py leaves
    [discover_plugins] as an exception: good.py is never imported, its
    plugin class is not registered and nothing is logged ([sys.path] is
    restored).  When the same import raises [ModuleNotFoundError] instead,
    the failure is logged and the plugin of good.py is registered. *)
Theorem discovery_aborts_on_syntax_error :
  discover_plugins (broken_unit_host (mkExc SyntaxError "invalid syntax"))
                   [] fresh_state
  = (Raise (mkExc SyntaxError "invalid syntax"), fresh_state) ∧
  discover_plugins
    (broken_unit_host (mkExc ModuleNotFoundError "No module named 'dep'"))
    [] fresh_state
  = (Return (),
     mkState ["/usr/lib/python3"] [("good", good_class)] []
       ["Failed to import potential plugin broken: No module named 'dep'"]).
Proof. split; reflexivity. Qed.

End DiscoveryExamples.

(** ** Import classification *)

Section ImportGroups.
Import Base ImportSorter.

Lemma split_on_no_separator c s :
  contains_char c s = false → split_on c s = [s].
Proof.
  induction s as [|a s IH]; [done|].
  simpl. intros [Ha Hs]%orb_false_iff. by rewrite Ha, (IH Hs).
Qed.

Lemma split_on_prefix c p s :
  contains_char c p = false →
  startswith s (p +:+ String c "") = true →
  head (split_on c s) = Some p.
Proof.
  revert s. induction p as [|a p IH]; intros s Hp Hs.
  - destruct s as [|b s]; [done|]. simpl in Hs.
    apply andb_true_iff in Hs as [Hb _]. apply Ascii.eqb_eq in Hb as <-.
    simpl. by rewrite Ascii.eqb_refl.
  - destruct s as [|b s]; [done|]. simpl in Hp, Hs.
    apply orb_false_iff in Hp as [Ha Hp].
    apply andb_true_iff in Hs as [Hb Hs]. apply Ascii.eqb_eq in Hb as <-.
    simpl. rewrite Ha. specialize (IH s Hp Hs).
    destruct (split_on c s) as [|h t]; [done|].
    simpl in IH. by injection IH as ->.
Qed.

(** The heuristic: a module counts as standard library exactly when its
    name has no dot and is in the built-in set. *)
Lemma is_stdlib_module_spec module_name :
  _is_stdlib_module module_name =
  negb (contains_char "." module_name)
  && bool_decide (module_name ∈ stdlib_modules).
Proof.
  unfold _is_stdlib_module.
  destruct (contains_char "." module_name) eqn:Hdot.
  - destruct (existsb (startswith module_name)
                ["xml."; "http."; "html."; "email."]) eqn:Hpre; [|done].
    cbn [andb negb]. cbn [existsb] in Hpre.
    repeat (apply orb_true_iff in Hpre as [Hpre|Hpre]); try done.
    + by rewrite (split_on_prefix "." "xml" module_name eq_refl Hpre).
    + by rewrite (split_on_prefix "." "http" module_name eq_refl Hpre).
    + by rewrite (split_on_prefix "." "html" module_name eq_refl Hpre).
    + by rewrite (split_on_prefix "." "email" module_name eq_refl Hpre).
  - cbn [andb negb]. by rewrite (split_on_no_separator _ _ Hdot).
Qed.

Lemma any_prefix_of_empty module_name (prefixes : gset string) :
  nonempty prefixes && any_prefix module_name prefixes
  = any_prefix module_name prefixes.
Proof.
  unfold nonempty, any_prefix. case_bool_decide as He; [|done].
  subst. by rewrite elements_empty.
Qed.

Lemma group_of_module_spec self module_name :
  group_of_module self module_name =
  if any_prefix module_name (local_prefixes self) then "local"
  else if any_prefix module_name (first_party_prefixes self)
  then "first_party"
  else if any_prefix module_name (third_party_prefixes self)
  then "third_party"
  else if any_prefix module_name (stdlib_prefixes self) then "stdlib"
  else if bool_decide (stdlib_prefixes self = ∅)
          && negb (contains_char "." module_name)
          && bool_decide (module_name ∈ stdlib_modules)
  then "stdlib"
  else "third_party".
Proof.
  unfold group_of_module. rewrite !any_prefix_of_empty, is_stdlib_module_spec.
  destruct (any_prefix module_name (local_prefixes self)); [done|].
  destruct (any_prefix module_name (first_party_prefixes self)); [done|].
  destruct (any_prefix module_name (third_party_prefixes self)); [done|].
  unfold nonempty, any_prefix.
  case_bool_decide as He; simpl.
  - rewrite He, elements_empty. simpl.
    by destruct (negb (contains_char "." module_name)
                 && bool_decide (module_name ∈ stdlib_modules)).
  - by destruct (existsb (startswith module_name)
                   (elements (stdlib_prefixes self))).
Qed.

(** C8, as stated, fails: with the default configuration the top-level
    component of os.path is in the built-in set, yet a module of that name
    is put into the third-party group. *)
Lemma dotted_stdlib_import_is_third_party :
  group_of_module default_sorter "os.path" = "third_party" ∧
  group_as_claimed default_sorter "os.path" = "stdlib" ∧
  group_of_module default_sorter "os.path"
  ≠ group_as_claimed default_sorter "os.path".
Proof. by vm_compute. Qed.

(** C8, amended.  An import is put into exactly one group, found by testing
    its module name in this order: a local prefix matches -> local; a
    first-party prefix matches -> first_party; a third-party prefix matches
    -> third_party; a standard-library prefix matches, or none is configured
    and the name has no dot and is in the built-in set -> stdlib; otherwise
    third_party.  With local = {"."} and first party = {"myapp"}, the module
    names os, myapp.core, the relative marker and requests fall into the
    groups stdlib, first_party, local and third_party, which the default
    group order ranks first, third, fourth and second. *)
Theorem import_group_priority :
  (∀ self import_node,
     let module_name := _get_module_name import_node in
     _determine_import_group self import_node =
     if any_prefix module_name (local_prefixes self) then "local"
     else if any_prefix module_name (first_party_prefixes self)
     then "first_party"
     else if any_prefix module_name (third_party_prefixes self)
     then "third_party"
     else if any_prefix module_name (stdlib_prefixes self) then "stdlib"
     else if bool_decide (stdlib_prefixes self = ∅)
             && negb (contains_char "." module_name)
             && bool_decide (module_name ∈ stdlib_modules)
     then "stdlib"
     else "third_party") ∧
  group_of_module example_sorter "os" = "stdlib" ∧
  group_of_module example_sorter "myapp.core" = "first_party" ∧
  group_of_module example_sorter "." = "local" ∧
  group_of_module example_sorter "requests" = "third_party" ∧
  group_order example_sorter
  = ["stdlib"; "third_party"; "first_party"; "local"].
Proof.
  split.
  - intros self import_node module_name.
    unfold _determine_import_group. apply group_of_module_spec.
  - by vm_compute.
Qed.

End ImportGroups.

(** ** Sorting within a group *)

Section SortKeys.
Import Base ImportSorter.

Lemma key_lt_mixed a b :
  is_tuple a ≠ is_tuple b →
  ∃ e, key_lt a b = Raise e ∧ exc_class e = TypeError.
Proof. destruct a, b; simpl; intros H; try done; eauto. Qed.

Lemma key_lt_same_kind a b :
  is_tuple a = is_tuple b → ∃ r, key_lt a b = Return r.
Proof. destruct a, b; simpl; intros H; try done; eauto. Qed.

Lemma key_lt_raise a b e : key_lt a b = Raise e → exc_class e = TypeError.
Proof. destruct a, b; simpl; intros H; try done; by injection H as <-. Qed.

Section Insertion.
Context {A : Type}.
Implicit Types (x : SortKey * A) (sorted l : list (SortKey * A)).

Lemma insert_sorted_raise x sorted e :
  insert_sorted x sorted = Raise e → exc_class e = TypeError.
Proof.
  induction sorted as [|y ys IH]; [done|]. simpl.
  destruct (key_lt x.1 y.1) as [[]|e'] eqn:Hlt; simpl.
  - done.
  - destruct (insert_sorted x ys) as [zs|e'']; simpl; [done|].
    intros H. injection H as <-. by apply IH.
  - intros H. injection H as <-. by apply key_lt_raise in Hlt.
Qed.

(** Inserting among keys of the same kind succeeds and keeps the kind. *)
Lemma insert_sorted_same_kind k x sorted :
  is_tuple x.1 = k →
  Forall (fun y => is_tuple y.1 = k) sorted →
  ∃ l, insert_sorted x sorted = Return l ∧ l ≠ [] ∧
       Forall (fun y => is_tuple y.1 = k) l.
Proof.
  intros Hx. induction sorted as [|y ys IH]; intros Hs.
  { exists [x]. repeat split; [done|]. by constructor. }
  apply Forall_cons in Hs as [Hy Hys]. simpl.
  destruct (key_lt_same_kind x.1 y.1) as [r ->]; [congruence|]. simpl.
  destruct r.
  - eexists. repeat split; [done|]. by repeat constructor.
  - destruct (IH Hys) as (l & -> & _ & Hl). simpl.
    eexists. repeat split; [done|]. by constructor.
Qed.

(** Inserting a key of the other kind into a non-empty run raises. *)
Lemma insert_sorted_other_kind k x sorted :
  is_tuple x.1 ≠ k → sorted ≠ [] →
  Forall (fun y => is_tuple y.1 = k) sorted →
  ∃ e, insert_sorted x sorted = Raise e ∧ exc_class e = TypeError.
Proof.
  intros Hx Hne Hs. destruct sorted as [|y ys]; [done|].
  apply Forall_cons in Hs as [Hy _]. simpl.
  destruct (key_lt_mixed x.1 y.1) as (e & -> & He); [congruence|].
  by exists e.
Qed.

Lemma sort_step_return x sorted :
  sort_step (Return sorted) x = insert_sorted x sorted.
Proof. done. Qed.

Lemma sort_step_raise_sticky l e :
  foldl sort_step (Raise e : PyResult (list (SortKey * A))) l = Raise e.
Proof. by induction l. Qed.

Lemma sort_fold_raise l sorted e :
  foldl sort_step (Return sorted) l = Raise e → exc_class e = TypeError.
Proof.
  revert sorted. induction l as [|x l IH]; intros sorted; [done|].
  cbn [foldl]. rewrite sort_step_return.
  destruct (insert_sorted x sorted) as [s'|e'] eqn:Hi.
  - apply IH.
  - rewrite sort_step_raise_sticky. intros H. injection H as <-.
    by apply insert_sorted_raise in Hi.
Qed.

Lemma sort_fold_mixed k l sorted :
  sorted ≠ [] →
  Forall (fun y => is_tuple y.1 = k) sorted →
  Exists (fun x => is_tuple x.1 ≠ k) l →
  ∃ e, foldl sort_step (Return sorted) l = Raise e ∧ exc_class e = TypeError.
Proof.
  revert sorted. induction l as [|x l IH]; intros sorted Hne Hs Hex.
  { by apply Exists_nil in Hex. }
  cbn [foldl]. rewrite sort_step_return.
  destruct (decide (is_tuple x.1 = k)) as [Hx|Hx].
  - destruct (insert_sorted_same_kind k x sorted Hx Hs) as (s' & -> & Hne' & Hs').
    apply IH; [done..|].
    apply Exists_cons in Hex as [Hex|Hex]; done.
  - destruct (insert_sorted_other_kind k x sorted Hx Hne Hs) as (e & -> & He).
    exists e. by rewrite sort_step_raise_sticky.
Qed.

End Insertion.

(** Sorting a list that holds a tuple key and a string key raises. *)
Lemma list_sort_mixed {A} (key : A → SortKey) (l : list A) a b :
  a ∈ l → b ∈ l → is_tuple (key a) = true → is_tuple (key b) = false →
  ∃ e, list_sort key l = Raise e ∧ exc_class e = TypeError.
Proof.
  intros Ha Hb Hka Hkb. unfold list_sort.
  destruct l as [|x l]; [by apply elem_of_nil in Ha|].
  rewrite fmap_cons. simpl.
  destruct (sort_fold_mixed (is_tuple (key x)) ((fun y => (key y, y)) <$> l)
              [(key x, x)]) as (e & -> & He).
  - done.
  - by repeat constructor.
  - apply Exists_exists.
    destruct (is_tuple (key x)) eqn:Hx.
    + exists (key b, b). split; [|simpl; congruence].
      apply elem_of_cons in Hb as [->|Hb]; [congruence|].
      apply list_elem_of_fmap. by exists b.
    + exists (key a, a). split; [|simpl; congruence].
      apply elem_of_cons in Ha as [->|Ha]; [congruence|].
      apply list_elem_of_fmap. by exists a.
  - by exists e.
Qed.

Lemma list_sort_raise {A} (key : A → SortKey) (l : list A) e :
  list_sort key l = Raise e → exc_class e = TypeError.
Proof.
  unfold list_sort.
  destruct (foldl sort_step (Return []) ((fun x => (key x, x)) <$> l))
    as [s|e'] eqn:Hf; [done|].
  simpl. intros H. injection H as <-. by apply sort_fold_raise in Hf.
Qed.

Lemma sort_groups_raises self grouped group imports_in_group e :
  (group, imports_in_group) ∈ grouped →
  list_sort (fun x => _get_sort_key x.1 (sort_case_insensitive self)
                                     (sort_by_package_then_name self))
            imports_in_group = Raise e →
  ∃ e', sort_groups self grouped = Raise e' ∧ exc_class e' = TypeError.
Proof.
  intros Hin Hsort. induction grouped as [|[g lst] rest IH].
  { by apply elem_of_nil in Hin. }
  simpl.
  destruct (list_sort _ lst) as [sorted|e0] eqn:Hl.
  - apply elem_of_cons in Hin as [Heq|Hin].
    + injection Heq as -> ->. congruence.
    + destruct (IH Hin) as (e' & -> & He'). by exists e'.
  - exists e0. split; [done|]. by apply list_sort_raise in Hl.
Qed.

Lemma dict_append_lookup {A} (d : list (string * list A)) g x g' :
  dict_lookup (dict_append d g x) g' =
  if decide (g = g') then Some (default [] (dict_lookup d g) ++ [x])
  else dict_lookup d g'.
Proof.
  induction d as [|[k items] d IH]; simpl.
  - destruct (decide (g = g')) as [->|Hne].
    + by rewrite String.eqb_refl.
    + apply String.eqb_neq in Hne. by rewrite Hne.
  - destruct (k =? g)%string eqn:Hk; simpl.
    + apply String.eqb_eq in Hk as ->.
      destruct (decide (g = g')) as [->|Hne].
      * by rewrite String.eqb_refl.
      * apply String.eqb_neq in Hne. by rewrite Hne.
    + rewrite IH. destruct (k =? g')%string eqn:Hk'; [|done].
      apply String.eqb_eq in Hk' as ->. apply String.eqb_neq in Hk.
      by destruct (decide (g = g')).
Qed.

Lemma dict_lookup_elem {A} (d : list (string * A)) k v :
  dict_lookup d k = Some v → (k, v) ∈ d.
Proof.
  induction d as [|[k' v'] d IH]; [done|]. simpl.
  destruct (k' =? k)%string eqn:Hk.
  - apply String.eqb_eq in Hk as ->. intros H. injection H as ->.
    apply elem_of_cons. by left.
  - intros H. apply elem_of_cons. right. by apply IH.
Qed.

(** Every import is filed under its group. *)
Lemma group_imports_member self imports imp :
  imp ∈ imports →
  ∃ lst, dict_lookup (group_imports self imports)
                     (_determine_import_group self imp) = Some lst ∧
         (imp, _determine_import_group self imp) ∈ lst.
Proof.
  unfold group_imports.
  induction imports as [|x imports IH] using rev_ind; intros Hin.
  { by apply elem_of_nil in Hin. }
  rewrite foldl_app. simpl. rewrite dict_append_lookup.
  destruct (decide (_determine_import_group self x
                    = _determine_import_group self imp)) as [Heq|Hne].
  - eexists. split; [done|].
    apply elem_of_app in Hin as [Hin|Hin].
    + destruct (IH Hin) as (lst & Hl & Hm).
      rewrite Heq, Hl. simpl. apply elem_of_app. by left.
    + apply list_elem_of_singleton in Hin as ->.
      apply elem_of_app. right. by apply list_elem_of_singleton.
  - apply elem_of_app in Hin as [Hin|Hin]; [by apply IH|].
    apply list_elem_of_singleton in Hin as ->. done.
Qed.

Lemma lower_contains_point s :
  contains_char "." (lower s) = contains_char "." s.
Proof.
  induction s as [|c s IH]; [done|].
  simpl. by rewrite lower_char_is_point, IH.
Qed.

Lemma sort_key_kind self imp :
  sort_by_package_then_name self = true →
  is_tuple (_get_sort_key imp (sort_case_insensitive self)
                          (sort_by_package_then_name self))
  = contains_char "." (_get_module_name imp).
Proof.
  intros ->. unfold _get_sort_key. simpl.
  destruct (sort_case_insensitive self); rewrite ?lower_contains_point;
    by destruct (contains_char "." (_get_module_name imp)).
Qed.

Lemma sort_imports_mixed self imports imp1 imp2 :
  sort_by_package_then_name self = true →
  imp1 ∈ imports → imp2 ∈ imports →
  _determine_import_group self imp1 = _determine_import_group self imp2 →
  contains_char "." (_get_module_name imp1) = true →
  contains_char "." (_get_module_name imp2) = false →
  ∃ e, _sort_imports self imports = Raise e ∧ exc_class e = TypeError.
Proof.
  intros Hpkg H1 H2 Hg Hd1 Hd2.
  destruct (group_imports_member self imports imp1 H1) as (lst & Hl & Hm1).
  destruct (group_imports_member self imports imp2 H2) as (lst' & Hl' & Hm2).
  rewrite <- Hg, Hl in Hl'. injection Hl' as <-.
  destruct (list_sort_mixed
              (fun x : Node * string =>
                 _get_sort_key x.1 (sort_case_insensitive self)
                               (sort_by_package_then_name self))
              lst _ _ Hm1 Hm2) as (e & He & _).
  { simpl. by rewrite sort_key_kind. }
  { simpl. by rewrite sort_key_kind. }
  destruct (sort_groups_raises self _ _ _ e (dict_lookup_elem _ _ _ Hl) He)
    as (e' & He' & Hc).
  exists e'. unfold _sort_imports. by rewrite He'.
Qed.

(** C10.  With [sort_by_package_then_name] on, when two imports of a module
    fall into the same group and the module name of one contains a dot
    while that of the other does not, the keys are a tuple and a string,
    their comparison raises [TypeError] inside [_sort_imports], and the
    exception leaves [apply_plugin] (with the in-progress flag still in the
    context).  In the pipeline the fault is caught and logged, and the
    module is rendered by the host renderer: the plugin contributes
    nothing. *)
Theorem mixed_sort_keys_raise_type_error (self : ImportSorterPlugin)
    (node imp1 imp2 : Node) (line_gen : LineGen Node Ctx) (ctx : Ctx) :
  sort_by_package_then_name self = true →
  type node = "file_input" →
  imp1 ∈ _extract_imports node →
  imp2 ∈ _extract_imports node →
  _determine_import_group self imp1 = _determine_import_group self imp2 →
  contains_char "." (_get_module_name imp1) = true →
  contains_char "." (_get_module_name imp2) = false →
  ∃ e, exc_class e = TypeError ∧
       _sort_imports self (_extract_imports node) = Raise e ∧
       sorter_apply_plugin self line_gen node ctx
       = (Raise e, <[in_progress_key := VBool true]> ctx) ∧
       Dispatch.visit [sorter_plugin self] line_gen node ctx
       = ((line_gen node (<[in_progress_key := VBool true]> ctx)).1,
          (line_gen node (<[in_progress_key := VBool true]> ctx)).2,
          [Dispatch.apply_error_line (sorter_plugin self) e]).
Proof.
  intros Hpkg Hty H1 H2 Hg Hd1 Hd2.
  destruct (sort_imports_mixed self _ imp1 imp2 Hpkg H1 H2 Hg Hd1 Hd2)
    as (e & He & Hc).
  exists e. split; [done|]. split; [done|].
  assert (Happly : sorter_apply_plugin self line_gen node ctx
                   = (Raise e, <[in_progress_key := VBool true]> ctx)).
  { unfold sorter_apply_plugin, is_import. rewrite Hty. simpl.
    unfold _process_module_imports. rewrite He.
    destruct (_extract_imports node); [by apply elem_of_nil in H1|done]. }
  split; [done|].
  unfold Dispatch.visit, Dispatch._apply_plugins. simpl.
  rewrite Happly. unfold isinstance. rewrite Hc. simpl.
  by destruct (line_gen node (<[in_progress_key := VBool true]> ctx)).
Qed.

(** The theorem applies to a module importing requests and
    requests.adapters under the default configuration. *)
Lemma mixed_sort_keys_raise_type_error_witness :
  ∃ e, exc_class e = TypeError ∧
       _sort_imports default_sorter (_extract_imports mixed_module) = Raise e ∧
       sorter_apply_plugin default_sorter code_renderer mixed_module ∅
       = (Raise e, <[in_progress_key := VBool true]> ∅) ∧
       Dispatch.visit [sorter_plugin default_sorter] code_renderer
                      mixed_module ∅
       = ((code_renderer mixed_module (<[in_progress_key := VBool true]> ∅)).1,
          (code_renderer mixed_module (<[in_progress_key := VBool true]> ∅)).2,
          [Dispatch.apply_error_line (sorter_plugin default_sorter) e]).
Proof.
  apply (mixed_sort_keys_raise_type_error default_sorter mixed_module
           (import_stmt "requests.adapters") (import_stmt "requests")
           code_renderer ∅).
  - reflexivity.
  - reflexivity.
  - vm_compute. apply elem_of_cons. right. apply elem_of_cons. by left.
  - vm_compute. apply elem_of_cons. by left.
  - vm_compute. reflexivity.
  - reflexivity.
  - reflexivity.
Defined.

End SortKeys.

(* ===================================================================== *)
(** * Part III: further properties of the code *)
(* ===================================================================== *)

(** ** Profiles: chains, cycles, the registry, serialisation *)

Section ProfileChains.
Import Profiles.

Lemma chain_returns reg p l :
  parent_chain reg p l →
  ∀ depth, (length l ≤ depth)%nat →
    get_effective_configuration depth p (Some reg)
    = Return (⋃ (settings <$> l)).
Proof.
  induction 1 as [p Hp|p q l Hp Hq IH]; intros [|depth] Hle;
    simpl in Hle; try lia.
  - rewrite effective_unfold, Hp. simpl. by rewrite (right_id_L ∅ (∪)).
  - rewrite effective_unfold, Hp, IH by lia. done.
Qed.

Lemma chain_returns_or_overflows reg p l :
  parent_chain reg p l →
  ∀ depth,
    get_effective_configuration depth p (Some reg)
    = Return (⋃ (settings <$> l)) ∨
    ∃ e, get_effective_configuration depth p (Some reg) = Raise e ∧
         exc_class e = RecursionError.
Proof.
  induction 1 as [p Hp|p q l Hp Hq IH]; intros [|depth];
    try (right; by eexists).
  - left. rewrite effective_unfold, Hp. simpl. by rewrite (right_id_L ∅ (∪)).
  - rewrite effective_unfold, Hp.
    destruct (IH depth) as [->|(e & -> & He)]; [by left|].
    right. by exists e.
Qed.

(** Along a parent chain that ends, the call returns the union of the
    settings along the chain, in which the nearest profile wins, as soon as
    the stack is deep enough for the chain; on a stack that is too shallow
    it raises [RecursionError], and it does nothing else. *)
Theorem effective_configuration_of_chain reg p l :
  parent_chain reg p l →
  (∃ needed, ∀ depth, (needed ≤ depth)%nat →
     get_effective_configuration depth p (Some reg)
     = Return (⋃ (settings <$> l))) ∧
  (∀ depth,
     get_effective_configuration depth p (Some reg)
     = Return (⋃ (settings <$> l)) ∨
     ∃ e, get_effective_configuration depth p (Some reg) = Raise e ∧
          exc_class e = RecursionError).
Proof.
  intros Hchain. split.
  - exists (length l). by apply chain_returns.
  - by apply chain_returns_or_overflows.
Qed.

Lemma effective_configuration_of_chain_witness :
  (∃ needed, ∀ depth, (needed ≤ depth)%nat →
     get_effective_configuration depth profile_C (Some registry_ABC)
     = Return (⋃ (settings <$> [profile_C; profile_B; profile_A]))) ∧
  (∀ depth,
     get_effective_configuration depth profile_C (Some registry_ABC)
     = Return (⋃ (settings <$> [profile_C; profile_B; profile_A])) ∨
     ∃ e, get_effective_configuration depth profile_C (Some registry_ABC)
          = Raise e ∧ exc_class e = RecursionError).
Proof.
  apply (effective_configuration_of_chain registry_ABC profile_C
           [profile_C; profile_B; profile_A]).
  repeat (first [ by apply chain_root
                | eapply chain_step; [reflexivity|] ]).
Defined.

(** On a parent cycle the call never returns: whatever the stack allows, it
    ends in [RecursionError]. *)
Theorem effective_configuration_of_cycle reg
    (on_cycle : ConfigurationProfile → Prop) p :
  (∀ q, on_cycle q → ∃ q', resolved_parent reg q = Some q' ∧ on_cycle q') →
  on_cycle p →
  ∀ depth, ∃ e, get_effective_configuration depth p (Some reg) = Raise e ∧
                exc_class e = RecursionError.
Proof.
  intros Hclosed Hp depth. revert p Hp.
  induction depth as [|depth IH]; intros p Hp; [by eexists|].
  destruct (Hclosed p Hp) as (q & Hq & Hcq).
  destruct (IH q Hcq) as (e & He & Hc).
  exists e. by rewrite effective_unfold, Hq, He.
Qed.

Lemma effective_configuration_of_cycle_witness :
  ∃ e, get_effective_configuration 1000 profile_loop (Some registry_loop)
       = Raise e ∧ exc_class e = RecursionError.
Proof.
  apply (effective_configuration_of_cycle registry_loop
           (fun q => q = profile_loop) profile_loop).
  - intros q ->. exists profile_loop. split; reflexivity.
  - reflexivity.
Defined.

(** The first [get_registry()] adds the built-in profiles after the
    registry has read its directories: a built-in name always resolves to
    the built-in profile, a profile read from disk under the same name is
    replaced, and every other name resolves as read from disk.  Later calls
    return the stored registry as it is. *)
Theorem builtin_profiles_replace_loaded h w :
  (_registry w = None →
     (∀ b, b ∈ BUILTIN_PROFILES →
        get_profile (get_registry h w).1 (name b) = Some b) ∧
     (∀ n, n ∉ name <$> BUILTIN_PROFILES →
        get_profile (get_registry h w).1 n
        = get_profile (fresh_registry h) n)) ∧
  (∀ reg, _registry w = Some reg → get_registry h w = (reg, w)).
Proof.
  split.
  - intros Hw. unfold get_registry. rewrite Hw. simpl.
    unfold get_profile, add_profile. simpl. split.
    + intros b Hb.
      repeat (apply elem_of_cons in Hb as [->|Hb]; [by simplify_map_eq|]).
      by apply elem_of_nil in Hb.
    + intros n Hn. simpl in Hn.
      repeat (apply not_elem_of_cons in Hn as [? Hn]).
      by rewrite !lookup_insert_ne.
  - intros reg Hw. unfold get_registry. by rewrite Hw.
Qed.

Lemma builtin_profiles_replace_loaded_witness :
  get_profile (get_registry quiet_host initial_world).1 "default"
  = Some builtin_default.
Proof.
  apply (proj1 (proj1 (builtin_profiles_replace_loaded quiet_host initial_world)
                  eq_refl) builtin_default).
  apply elem_of_cons. by left.
Defined.

(** [from_dict] undoes [to_dict]. *)
Theorem from_dict_to_dict p :
  ∃ data, to_dict p = VDict data ∧ from_dict data = Some p.
Proof.
  destruct p as [n d v s par]. eexists. split; [reflexivity|].
  unfold from_dict. simpl. rewrite list_to_map_to_list.
  by destruct par.
Qed.

Lemma document_without_parent p :
  parent p = None → toml_writable (VDict [("profile", to_dict p)]) = false.
Proof.
  intros Hp. unfold to_dict. rewrite Hp. cbn.
  by rewrite !andb_false_r.
Qed.

(** A profile saved without a parent is never written: [to_dict] puts
    [None] under "parent", which the TOML writer cannot serialise, so
    [save_profile] raises -- [TypeError] when the file could be opened and
    written to -- although the profile has been added to the registry by
    then; the two calls in sequence end with the same exception. *)
Theorem save_without_parent_raises h n d s location w :
  ∃ e,
    (save_profile h n d s None location w).1 = Raise e ∧
    (∃ reg, _registry (save_profile h n d s None location w).2 = Some reg ∧
            get_profile reg n = Some (mkProfile n d "1.0" s None)) ∧
    ((∀ path, open_wb h path = None) →
     (∀ document, (tomli_w_dump h document).1 = Return ()) →
     e = not_serializable) ∧
    ∀ depth, save_then_load h depth n d s None location w = Raise e.
Proof.
  assert (Hreg : ∃ reg,
            _registry (save_profile h n d s None location w).2 = Some reg ∧
            get_profile reg n = Some (mkProfile n d "1.0" s None)).
  { unfold save_profile. destruct (get_registry h w) as [r0 w1].
    destruct (registry_save_profile h _ _ location (files w1)) as [r fs'].
    eexists. split; [reflexivity|].
    unfold get_profile, add_profile. simpl. by rewrite lookup_insert_eq. }
  assert (Hs : ∃ e,
    (save_profile h n d s None location w).1 = Raise e ∧
    ((∀ path, open_wb h path = None) →
     (∀ document, (tomli_w_dump h document).1 = Return ()) →
     e = not_serializable)).
  { unfold save_profile, registry_save_profile.
    destruct (get_registry h w) as [r0 w1].
    set (p := mkProfile n d "1.0" s None).
    set (file_path := _ +:+ "/" +:+ name p +:+ ".toml").
    rewrite (document_without_parent p eq_refl).
    destruct (open_wb h file_path) as [e|] eqn:Hopen.
    - exists e. split; [done|]. intros Hp _. by rewrite Hp in Hopen.
    - destruct (tomli_w_dump h (VDict [("profile", to_dict p)]))
        as [[[]|e] text] eqn:Hdump.
      + by exists not_serializable.
      + exists e. split; [done|]. intros _ Hw.
        specialize (Hw (VDict [("profile", to_dict p)])).
        rewrite Hdump in Hw. discriminate. }
  destruct Hs as (e & Hsave & Hcls).
  exists e. repeat split; try done.
  intros depth. unfold save_then_load.
  destruct (save_profile h n d s None location w) as [saved w1].
  simpl in Hsave. by rewrite Hsave.
Qed.

End ProfileChains.

(** ** The configuration manager: search, manifest entries, invariants *)

Section ManifestSearch.
Import Config.

(** The upward search probes the candidates nearest first and stops at
    the first that exists, which it returns, or at the first probe that
    raises, whose exception it lets through: every candidate in a directory
    closer to the working directory is missing.  It returns nothing exactly
    when every candidate is missing; the root directory contributes no
    candidate, so a manifest there is never found. *)
Theorem find_pyproject_nearest h current_dir :
  length (manifest_candidates current_dir) = length current_dir ∧
  match find_pyproject h current_dir with
  | Return (Some p) =>
    path_exists h p = Return true ∧
    ∃ nearer farther,
      manifest_candidates current_dir = nearer ++ p :: farther ∧
      Forall (fun c => path_exists h c = Return false) nearer
  | Return None =>
    Forall (fun c => path_exists h c = Return false)
           (manifest_candidates current_dir)
  | Raise e =>
    ∃ nearer c farther,
      manifest_candidates current_dir = nearer ++ c :: farther ∧
      Forall (fun c => path_exists h c = Return false) nearer ∧
      path_exists h c = Raise e
  end.
Proof.
  split; [induction current_dir; simpl; congruence|].
  induction current_dir as [|c parent_dir IH]; [by constructor|].
  cbn [find_pyproject manifest_candidates].
  set (candidate := path_str ("pyproject.toml" :: c :: parent_dir)).
  destruct (path_exists h candidate) as [[]|e] eqn:Hex;
    cbn [mbind PyResult_bind Py.bind].
  - split; [done|]. by exists [], (manifest_candidates parent_dir).
  - destruct (find_pyproject h parent_dir) as [[p|]|e].
    + destruct IH as (Hp & nearer & farther & -> & Hn). split; [done|].
      exists (candidate :: nearer), farther. split; [done|]. by constructor.
    + by constructor.
    + destruct IH as (nearer & c' & farther & -> & Hn & Hc).
      exists (candidate :: nearer), c', farther.
      split; [done|]. split; [by constructor|done].
  - by exists [], candidate, (manifest_candidates parent_dir).
Qed.

End ManifestSearch.

Section ManifestEntries.
Import Config.

Lemma dict_get_absent d k : k ∉ d.*1 → dict_get d k = None.
Proof.
  induction d as [|[k' v] d IH]; [done|]. simpl.
  intros [Hne Hk]%not_elem_of_cons.
  destruct (k' =? k)%string eqn:E; [|by apply IH].
  apply String.eqb_eq in E. congruence.
Qed.

Lemma load_entries_lookup d configs k :
  NoDup d.*1 →
  load_entries d configs !! k =
  if is_global_key k then configs !! k
  else match dict_get d k with
       | Some v => Some (plugin_config_of_entry k v)
       | None => configs !! k
       end.
Proof.
  unfold load_entries. revert configs.
  induction d as [|[k0 v0] d IH]; intros configs Hnd.
  { simpl. by destruct (is_global_key k). }
  apply NoDup_cons in Hnd as [Hk0 Hnd]. simpl. rewrite (IH _ Hnd).
  destruct (k0 =? k)%string eqn:E.
  - apply String.eqb_eq in E as ->.
    rewrite (dict_get_absent d k Hk0).
    destruct (is_global_key k); [done|]. by rewrite lookup_insert_eq.
  - apply String.eqb_neq in E.
    destruct (is_global_key k0); [done|].
    by rewrite lookup_insert_ne.
Qed.

(** On a table, each of the three tests assigns the field when the key is
    there, and none of them raises. *)
Lemma set_global_table k d assign cfg :
  set_global k (VDict d) assign cfg =
  (Return (), match dict_get d k with
              | Some v => assign cfg v
              | None => cfg
              end).
Proof. unfold set_global. simpl. by destruct (dict_get d k). Qed.

(** On anything else a test that succeeds is followed by a subscription
    that raises, so no field is assigned. *)
Lemma set_global_other k v assign cfg :
  (∀ d, v ≠ VDict d) → (set_global k v assign cfg).2 = cfg.
Proof.
  intros Hv. unfold set_global.
  destruct v as [| | | |s|l|d]; simpl; try done.
  - by destruct (contains s k).
  - by destruct (existsb _ l).
  - by destruct (Hv d).
Qed.

Lemma set_entries_other v cfg :
  (∀ d, v ≠ VDict d) →
  ∃ e, set_entries v cfg = (Raise e, cfg).
Proof.
  intros Hv. unfold set_entries.
  destruct v as [| | | | | |d]; simpl; try by eexists.
  by destruct (Hv d).
Qed.

Lemma apply_manifest_table data d cfg :
  plugins_table data = Some d →
  apply_manifest data cfg =
  (Return (),
   mkPluginsConfig
     (load_entries d (plugin_configs cfg))
     (global_value d "discovery_paths" (discovery_paths cfg))
     (global_value d "disable_all" (disable_all cfg))
     (global_value d "enable_by_default" (enable_by_default cfg))).
Proof.
  unfold plugins_table, apply_manifest. simpl.
  destruct (dict_get data "tool") as [[| | | | | |tool]|]; try done. simpl.
  destruct (dict_get tool "black") as [[| | | | | |black]|]; try done. simpl.
  destruct (dict_get black "plugins") as [[| | | | | |d']|]; try done. simpl.
  intros [= ->]. unfold and_then. rewrite !set_global_table.
  unfold set_entries, global_value. simpl.
  by destruct (dict_get d "discovery_paths"), (dict_get d "disable_all"),
              (dict_get d "enable_by_default").
Qed.

(** The statements after [tomli.load] raise only before the first
    assignment: when they raise, the configuration is as it was. *)
Lemma apply_manifest_raises data cfg e cfg' :
  apply_manifest data cfg = (Raise e, cfg') → cfg' = cfg.
Proof.
  unfold apply_manifest.
  destruct (tool ← get_or_empty (VDict data) "tool";
            black_config ← get_or_empty tool "black";
            get_or_empty black_config "plugins") as [plugins_config|e0];
    [|by intros [= _ <-]].
  assert (Hcases : (∃ d, plugins_config = VDict d) ∨
                   ∀ d, plugins_config ≠ VDict d).
  { destruct plugins_config; try (by right); left; by eexists. }
  destruct Hcases as [[d ->]|Hv].
  - unfold and_then. rewrite !set_global_table. by unfold set_entries.
  - 
    unfold and_then.
    pose proof (set_global_other "discovery_paths" plugins_config
                  set_discovery_paths cfg Hv) as H1.
    destruct (set_global "discovery_paths" _ _ cfg) as [[[]|e1] cfg1];
      simpl in H1; subst cfg1; [|by intros [= _ <-]].
    pose proof (set_global_other "disable_all" plugins_config
                  set_disable_all cfg Hv) as H2.
    destruct (set_global "disable_all" _ _ cfg) as [[[]|e2] cfg2];
      simpl in H2; subst cfg2; [|by intros [= _ <-]].
    pose proof (set_global_other "enable_by_default" plugins_config
                  set_enable_by_default cfg Hv) as H3.
    destruct (set_global "enable_by_default" _ _ cfg) as [[[]|e3] cfg3];
      simpl in H3; subst cfg3; [|by intros [= _ <-]].
    destruct (set_entries_other plugins_config cfg Hv) as [e4 ->].
    by intros [= _ <-].
Qed.

Lemma load_from_pyproject_table h p data d cfg :
  p ≠ "" → path_exists h p = Return true → read_toml h p = Return data →
  plugins_table data = Some d →
  load_from_pyproject h (Some p) cfg =
  (Return (),
   mkPluginsConfig
     (load_entries d (plugin_configs cfg))
     (global_value d "discovery_paths" (discovery_paths cfg))
     (global_value d "disable_all" (disable_all cfg))
     (global_value d "enable_by_default" (enable_by_default cfg)),
   []).
Proof.
  intros Hne Hex Hread Htab. unfold load_from_pyproject. simpl.
  apply String.eqb_neq in Hne. rewrite Hne, Hex.
  unfold try_load. rewrite Hread.
  by rewrite (apply_manifest_table _ _ _ Htab).
Qed.

(** Loading a manifest whose plugins table has the expected shape: every
    entry of the table other than the three global keys replaces the
    plugin's previous configuration by the one read from the entry (options
    set earlier are not kept), plugins without an entry are left alone, and
    a global key never becomes a plugin entry. *)
Theorem manifest_entries_replace h p data d cfg :
  p ≠ "" → path_exists h p = Return true → read_toml h p = Return data →
  plugins_table data = Some d → NoDup d.*1 →
  ∃ cfg', load_from_pyproject h (Some p) cfg = (Return (), cfg', []) ∧
    ∀ k, plugin_configs cfg' !! k =
         if is_global_key k then plugin_configs cfg !! k
         else match dict_get d k with
              | Some v => Some (plugin_config_of_entry k v)
              | None => plugin_configs cfg !! k
              end.
Proof.
  intros Hne Hex Hread Htab Hnd. eexists. split.
  - by apply (load_from_pyproject_table h p data d).
  - intros k. simpl. by apply load_entries_lookup.
Qed.

Lemma manifest_entries_replace_witness :
  ∃ cfg', load_from_pyproject override_host (Some "alt.toml")
            default_plugins_config = (Return (), cfg', []) ∧
    ∀ k, plugin_configs cfg' !! k =
         if is_global_key k then plugin_configs default_plugins_config !! k
         else match dict_get [("disable_all", VBool false)] k with
              | Some v => Some (plugin_config_of_entry k v)
              | None => plugin_configs default_plugins_config !! k
              end.
Proof.
  apply (manifest_entries_replace override_host "alt.toml"
           [("tool", VDict [("black", VDict [("plugins",
               VDict [("disable_all", VBool false)])])])]).
  - discriminate.
  - reflexivity.
  - reflexivity.
  - reflexivity.
  - repeat constructor. by intros ?%elem_of_nil.
Defined.

(** [--disable-all-plugins] is applied before the manifest named by
    [--plugin-config] is loaded: alone, the flag leaves [disable_all] true;
    together with a manifest that sets [disable_all], the manifest's value
    is the one that stays, also when a later step of the call raises. *)
Theorem manifest_resets_disable_all_flag h cli cfg :
  disable_all_plugins cli = true →
  (plugin_config cli = None →
     disable_all (update_from_cli h cli cfg).1.2 = VBool true) ∧
  (∀ p data d v,
     plugin_config cli = Some p →
     p ≠ "" → path_exists h p = Return true → read_toml h p = Return data →
     plugins_table data = Some d → dict_get d "disable_all" = Some v →
     disable_all (update_from_cli h cli cfg).1.2 = v ∧
     ((∀ spec, spec ∈ plugin cli → convertible h spec) →
      (update_from_cli h cli cfg).1.1 = Return ())).
Proof.
  intros Hflag.
  assert (Hcli : ∀ cfg2, disable_all (apply_cli_specs h cli cfg2).2
                         = disable_all cfg2).
  { intros cfg2. unfold apply_cli_specs.
    by destruct (enable_specs h (plugin_configs cfg2) (plugin cli))
      as [[[]|e] configs]. }
  split.
  - intros Hnone. unfold update_from_cli, reload_manifest.
    rewrite Hflag, Hnone. specialize (Hcli (set_disable_all cfg (VBool true))).
    by destruct (apply_cli_specs h cli _) as [r' cfg3].
  - intros p data d v Hp Hne Hex Hread Htab Hv.
    unfold update_from_cli, reload_manifest. rewrite Hflag, Hp.
    pose proof Hne as Hne'. apply String.eqb_neq in Hne'. rewrite Hne'.
    rewrite (load_from_pyproject_table h p data d _ Hne Hex Hread Htab).
    match goal with |- context [apply_cli_specs h cli ?c] =>
      specialize (Hcli c);
      pose proof (apply_cli_specs_returns h cli c) as Hret;
      destruct (apply_cli_specs h cli c) as [r' cfg3]
    end.
    simpl in *. rewrite Hcli. unfold global_value. rewrite Hv.
    split; [done|exact Hret].
Qed.

Lemma manifest_resets_disable_all_flag_witness :
  disable_all (update_from_cli override_host cli_disable_all_with_manifest
                               default_plugins_config).1.2 = VBool false ∧
  ((∀ spec, spec ∈ plugin cli_disable_all_with_manifest →
            convertible override_host spec) →
   (update_from_cli override_host cli_disable_all_with_manifest
                    default_plugins_config).1.1 = Return ()).
Proof.
  apply (proj2 (manifest_resets_disable_all_flag override_host
                  cli_disable_all_with_manifest default_plugins_config
                  eq_refl)
           "alt.toml"
           [("tool", VDict [("black", VDict [("plugins",
               VDict [("disable_all", VBool false)])])])]
           [("disable_all", VBool false)] (VBool false)).
  - reflexivity.
  - discriminate.
  - reflexivity.
  - reflexivity.
  - reflexivity.
  - reflexivity.
Defined.

(** The manager's configuration is changed in place, one assignment after
    the other, yet a load is all or nothing: when the call raises, or
    prints an error, no assignment has been made.  The statements that can
    raise -- the search, reading and parsing the file, taking the parsed
    data apart, and subscripting a plugins value that is not a table --
    all stand before the first assignment. *)
Theorem manifest_load_is_atomic h path cfg :
  (load_from_pyproject h path cfg).1.1 = Return () ∧
  (load_from_pyproject h path cfg).2 = [] ∨
  (load_from_pyproject h path cfg).1.2 = cfg.
Proof.
  unfold load_from_pyproject.
  destruct (chosen_path h path) as [[p|]|e]; [|by right..].
  destruct (p =? "")%string; [by right|].
  destruct (path_exists h p) as [[]|e]; [|by right..].
  unfold try_load.
  destruct (read_toml h p) as [data|e].
  - destruct (apply_manifest data cfg) as [[[]|e] cfg'] eqn:Ha; [by left|].
    apply apply_manifest_raises in Ha as ->.
    right. by destruct (load_handler_catches e).
  - right. by destruct (load_handler_catches e).
Qed.

End ManifestEntries.

Section CliInvariants.
Import Config.

Lemma carried_over_refl pc : carried_over pc pc.
Proof. by repeat split. Qed.

Lemma carried_over_trans pc1 pc2 pc3 :
  carried_over pc1 pc2 → carried_over pc2 pc3 → carried_over pc1 pc3.
Proof.
  intros (Hn1 & Hv1 & Hd1) (Hn2 & Hv2 & Hd2).
  repeat split; [congruence..|set_solver].
Qed.

Lemma set_option_carried pc pairs :
  carried_over pc (foldl set_option pc pairs).
Proof.
  revert pc. induction pairs as [|kv pairs IH]; intros pc.
  { apply carried_over_refl. }
  simpl. eapply carried_over_trans; [|apply IH].
  repeat split; simpl; try done. rewrite dom_insert. set_solver.
Qed.

Lemma set_options_carried h pairs pc :
  carried_over pc (set_options h pc pairs).2.
Proof.
  revert pc. induction pairs as [|item pairs IH]; intros pc.
  { apply carried_over_refl. }
  simpl. destruct (parse_pair h item) as [[kv|]|e].
  - eapply carried_over_trans; [|apply IH].
    apply (set_option_carried pc [kv]).
  - apply IH.
  - apply carried_over_refl.
Qed.

Lemma enable_from_spec_carries h configs spec n pc :
  configs !! n = Some pc →
  ∃ pc', (enable_from_spec h configs spec).2 !! n = Some pc' ∧
         carried_over pc pc'.
Proof.
  intros Hn. unfold enable_from_spec.
  pose proof (set_options_carried h (option_pairs spec)
                (set_state ENABLED (get_or_create (spec_name spec) configs)))
    as Hc.
  destruct (set_options h _ (option_pairs spec)) as [r pc1]. simpl in *.
  destruct (decide (n = spec_name spec)) as [->|Hne].
  - exists pc1. rewrite lookup_insert_eq. split; [done|].
    eapply carried_over_trans; [|exact Hc].
    unfold get_or_create. rewrite Hn. by repeat split.
  - exists pc. rewrite lookup_insert_ne by done. split; [done|].
    apply carried_over_refl.
Qed.

Lemma enable_specs_carries h specs configs n pc :
  configs !! n = Some pc →
  ∃ pc', (enable_specs h configs specs).2 !! n = Some pc' ∧
         carried_over pc pc'.
Proof.
  revert configs pc. induction specs as [|spec specs IH]; intros configs pc Hn.
  { exists pc. split; [done|]. apply carried_over_refl. }
  rewrite enable_specs_cons.
  destruct (enable_from_spec_carries h configs spec n pc Hn)
    as (pc1 & H1 & Hc1).
  destruct (enable_from_spec h configs spec).1 as [[]|e].
  - destruct (IH _ pc1 H1) as (pc2 & H2 & Hc2).
    exists pc2. split; [done|]. by eapply carried_over_trans.
  - by exists pc1.
Qed.

Lemma disable_by_name_carries configs m n pc :
  configs !! n = Some pc →
  ∃ pc', disable_by_name configs m !! n = Some pc' ∧ carried_over pc pc'.
Proof.
  intros Hn. unfold disable_by_name.
  destruct (decide (n = m)) as [->|Hne].
  - eexists. rewrite lookup_insert_eq. split; [done|].
    unfold get_or_create. rewrite Hn. by repeat split.
  - exists pc. rewrite lookup_insert_ne by done. split; [done|].
    apply carried_over_refl.
Qed.

Lemma disable_names_carry names configs n pc :
  configs !! n = Some pc →
  ∃ pc', foldl disable_by_name configs names !! n = Some pc' ∧
         carried_over pc pc'.
Proof.
  revert configs pc. induction names as [|m names IH]; intros configs pc Hn.
  { exists pc. split; [done|]. apply carried_over_refl. }
  simpl. destruct (disable_by_name_carries configs m n pc Hn)
    as (pc1 & H1 & Hc1).
  destruct (IH _ pc1 H1) as (pc2 & H2 & Hc2).
  exists pc2. split; [done|]. by eapply carried_over_trans.
Qed.

(** The [--plugin] and [--disable-plugin] flags never drop a plugin entry,
    never remove an option key from it, and never touch its version
    requirement, whether the processing returns or a conversion raises on
    the way. *)
Theorem cli_specs_keep_entries h cli cfg n pc :
  plugin_configs cfg !! n = Some pc →
  ∃ pc', plugin_configs (apply_cli_specs h cli cfg).2 !! n = Some pc' ∧
         carried_over pc pc'.
Proof.
  intros Hn. unfold apply_cli_specs.
  destruct (enable_specs_carries h (plugin cli) _ n pc Hn)
    as (pc1 & H1 & Hc1).
  destruct (enable_specs h (plugin_configs cfg) (plugin cli))
    as [[[]|e] configs]; simpl in *.
  - destruct (disable_names_carry (disable_plugin cli) _ n pc1 H1)
      as (pc2 & H2 & Hc2).
    exists pc2. split; [done|]. by eapply carried_over_trans.
  - by exists pc1.
Qed.

Lemma cli_specs_keep_entries_witness :
  ∃ pc', plugin_configs
           (apply_cli_specs empty_host cli_long_number
              (with_plugin_configs default_plugins_config manifest_fmt)).2
           !! "fmt" = Some pc' ∧
         carried_over (mkPluginConfig "fmt" DISABLED
                         (<["width" := VInt 80]> (<["mode" := VStr "safe"]> ∅))
                         None) pc'.
Proof.
  apply (cli_specs_keep_entries empty_host cli_long_number
           (with_plugin_configs default_plugins_config manifest_fmt) "fmt").
  reflexivity.
Defined.

Lemma set_options_name h pairs pc : name (set_options h pc pairs).2 = name pc.
Proof. by destruct (set_options_carried h pairs pc) as (? & _). Qed.

Lemma get_or_create_name configs n :
  keyed_by_name configs → name (get_or_create n configs) = n.
Proof.
  intros Hk. unfold get_or_create.
  destruct (configs !! n) as [pc|] eqn:Hn; [by apply Hk|done].
Qed.

Lemma enable_from_spec_keyed h configs spec :
  keyed_by_name configs →
  keyed_by_name (enable_from_spec h configs spec).2.
Proof.
  intros Hk n pc. unfold enable_from_spec.
  pose proof (set_options_name h (option_pairs spec)
                (set_state ENABLED (get_or_create (spec_name spec) configs)))
    as Hname.
  destruct (set_options h _ (option_pairs spec)) as [r pc1]. simpl in *.
  destruct (decide (n = spec_name spec)) as [->|Hne].
  - rewrite lookup_insert_eq. intros [= <-].
    rewrite Hname. by apply get_or_create_name.
  - rewrite lookup_insert_ne by done. apply Hk.
Qed.

Lemma enable_specs_keyed h specs configs :
  keyed_by_name configs → keyed_by_name (enable_specs h configs specs).2.
Proof.
  revert configs. induction specs as [|spec specs IH]; intros configs Hk;
    [done|].
  rewrite enable_specs_cons.
  pose proof (enable_from_spec_keyed h configs spec Hk) as H1.
  destruct (enable_from_spec h configs spec).1 as [[]|e]; [by apply IH|done].
Qed.

Lemma disable_by_name_keyed configs m :
  keyed_by_name configs → keyed_by_name (disable_by_name configs m).
Proof.
  intros Hk n pc. unfold disable_by_name.
  destruct (decide (n = m)) as [->|Hne].
  - rewrite lookup_insert_eq. intros [= <-]. simpl.
    by apply get_or_create_name.
  - rewrite lookup_insert_ne by done. apply Hk.
Qed.

Lemma disable_names_keyed names configs :
  keyed_by_name configs →
  keyed_by_name (foldl disable_by_name configs names).
Proof.
  revert configs. induction names as [|m names IH]; intros configs Hk; [done|].
  simpl. by apply IH, disable_by_name_keyed.
Qed.

Lemma plugin_config_of_entry_name k v : name (plugin_config_of_entry k v) = k.
Proof. by destruct v. Qed.

Lemma load_entries_keyed d configs :
  keyed_by_name configs → keyed_by_name (load_entries d configs).
Proof.
  unfold load_entries. revert configs.
  induction d as [|[k v] d IH]; intros configs Hk; [done|].
  simpl. apply IH. destruct (is_global_key k); [done|].
  intros n pc. destruct (decide (n = k)) as [->|Hne].
  - rewrite lookup_insert_eq. intros [= <-]. apply plugin_config_of_entry_name.
  - rewrite lookup_insert_ne by done. apply Hk.
Qed.

Lemma set_global_keyed k v assign cfg :
  (∀ c x, plugin_configs (assign c x) = plugin_configs c) →
  plugin_configs (set_global k v assign cfg).2 = plugin_configs cfg.
Proof.
  intros Ha. unfold set_global.
  destruct (py_in k v) as [[]|e]; [|done..].
  destruct (py_getitem v k) as [x|e]; [apply Ha|done].
Qed.

Lemma apply_manifest_keyed data cfg :
  keyed_by_name (plugin_configs cfg) →
  keyed_by_name (plugin_configs (apply_manifest data cfg).2).
Proof.
  intros Hk. unfold apply_manifest.
  destruct (tool ← get_or_empty (VDict data) "tool";
            black_config ← get_or_empty tool "black";
            get_or_empty black_config "plugins") as [plugins_config|e0];
    [|done].
  unfold and_then.
  pose proof (set_global_keyed "discovery_paths" plugins_config
                set_discovery_paths cfg ltac:(done)) as H1.
  destruct (set_global "discovery_paths" _ _ cfg) as [[[]|e1] cfg1];
    simpl in H1; [|simpl; by rewrite H1].
  pose proof (set_global_keyed "disable_all" plugins_config
                set_disable_all cfg1 ltac:(done)) as H2.
  destruct (set_global "disable_all" _ _ cfg1) as [[[]|e2] cfg2];
    simpl in H2; [|simpl; by rewrite H2, H1].
  pose proof (set_global_keyed "enable_by_default" plugins_config
                set_enable_by_default cfg2 ltac:(done)) as H3.
  destruct (set_global "enable_by_default" _ _ cfg2) as [[[]|e3] cfg3];
    simpl in H3; [|simpl; by rewrite H3, H2, H1].
  unfold set_entries.
  destruct (py_items plugins_config) as [entries|e4]; simpl.
  - apply load_entries_keyed. by rewrite H3, H2, H1.
  - by rewrite H3, H2, H1.
Qed.

Lemma load_from_pyproject_keyed h path cfg :
  keyed_by_name (plugin_configs cfg) →
  keyed_by_name (plugin_configs (load_from_pyproject h path cfg).1.2).
Proof.
  intros Hk. unfold load_from_pyproject.
  destruct (chosen_path h path) as [[p|]|e]; [|done..].
  destruct (p =? "")%string; [done|].
  destruct (path_exists h p) as [[]|e]; [|done..].
  unfold try_load.
  destruct (read_toml h p) as [data|e]; simpl.
  - pose proof (apply_manifest_keyed data cfg Hk) as Ha.
    destruct (apply_manifest data cfg) as [[[]|e] cfg']; simpl in *; [done|].
    by destruct (load_handler_catches e).
  - by destruct (load_handler_catches e).
Qed.

(** Every plugin configuration is stored under its own name, and loading a
    manifest and applying a command line keep it that way, whether
    [update_from_cli] returns or raises. *)
Theorem update_keeps_entries_keyed_by_name h cli cfg :
  keyed_by_name (plugin_configs cfg) →
  (∀ path,
     keyed_by_name (plugin_configs (load_from_pyproject h path cfg).1.2)) ∧
  keyed_by_name (plugin_configs (update_from_cli h cli cfg).1.2).
Proof.
  intros Hk. split; [intros path; by apply load_from_pyproject_keyed|].
  assert (Hre : keyed_by_name
                  (plugin_configs (reload_manifest h cli cfg).1.2)).
  { unfold reload_manifest.
    set (cfg1 := if disable_all_plugins cli then _ else cfg).
    assert (Hk1 : keyed_by_name (plugin_configs cfg1)).
    { subst cfg1. by destruct (disable_all_plugins cli). }
    destruct (plugin_config cli) as [p|]; [|done].
    destruct (p =? "")%string; [done|].
    by apply load_from_pyproject_keyed. }
  unfold update_from_cli.
  destruct (reload_manifest h cli cfg) as [[[[]|e] cfg2] err]; simpl in *;
    [|done].
  unfold apply_cli_specs.
  pose proof (enable_specs_keyed h (plugin cli) (plugin_configs cfg2) Hre)
    as Hen.
  destruct (enable_specs h (plugin_configs cfg2) (plugin cli))
    as [[[]|e] configs]; simpl in *; [|done].
  by apply disable_names_keyed.
Qed.

Lemma update_keeps_entries_keyed_by_name_witness :
  (∀ path,
     keyed_by_name
       (plugin_configs (load_from_pyproject empty_host path
                          default_plugins_config).1.2)) ∧
  keyed_by_name
    (plugin_configs (update_from_cli empty_host cli_both_flags
                       default_plugins_config).1.2).
Proof.
  apply (update_keeps_entries_keyed_by_name empty_host cli_both_flags
           default_plugins_config).
  intros n pc Hn. exact (False_ind _ (lookup_empty_Some (M:=gmap string) n pc Hn)).
Defined.

Lemma convert_value_primitive h value v :
  convert_value h value = Return v → primitive v = true.
Proof.
  unfold convert_value, int_of_string.
  repeat match goal with |- context [if ?b then _ else _] => destruct b end;
    by intros [= <-].
Qed.

(** Option values given on the command line are always scalars: a boolean,
    an integer, a float or a string, never a list, a table or [None]. *)
Theorem cli_option_values_are_primitive h spec k v :
  (k, v) ∈ spec_pairs h spec → primitive v = true.
Proof.
  unfold spec_pairs.
  intros (item & _ & Hp)%list_elem_of_omap.
  unfold parsed_pair, parse_pair in Hp.
  destruct (partition_on "=" item) as [[key value]|]; [|done].
  destruct (convert_value h (strip value)) as [v'|e] eqn:Hv; [|done].
  injection Hp as _ <-. by apply (convert_value_primitive h (strip value)).
Qed.

Lemma cli_option_values_are_primitive_witness : primitive (VInt 100) = true.
Proof.
  apply (cli_option_values_are_primitive empty_host "fmt:width=100" "width").
  apply elem_of_cons. by left.
Defined.

(** The only exception the [--plugin] loop raises is the [ValueError] of
    an integer conversion. *)
Lemma convert_value_raises h value e :
  convert_value h value = Raise e → exc_class e = ValueError.
Proof.
  unfold convert_value, int_of_string.
  repeat match goal with |- context [if ?b then _ else _] => destruct b end;
    by intros [= <-].
Qed.

Lemma set_options_raises h pairs pc e :
  (set_options h pc pairs).1 = Raise e → exc_class e = ValueError.
Proof.
  revert pc. induction pairs as [|item pairs IH]; intros pc; [done|].
  cbn [set_options]. unfold parse_pair.
  destruct (partition_on "=" item) as [[key value]|]; [|by apply IH].
  destruct (convert_value h (strip value)) as [v|e'] eqn:Hv; simpl.
  - by apply IH.
  - intros [= <-]. by apply (convert_value_raises h (strip value)).
Qed.

Lemma enable_specs_raises h specs configs e :
  (enable_specs h configs specs).1 = Raise e → exc_class e = ValueError.
Proof.
  revert configs. induction specs as [|spec specs IH]; intros configs; [done|].
  rewrite enable_specs_cons.
  destruct (enable_from_spec h configs spec).1 as [[]|e'] eqn:Hhead.
  - by apply IH.
  - simpl. intros [= <-]. revert Hhead. unfold enable_from_spec.
    pose proof (set_options_raises h (option_pairs spec)
                  (set_state ENABLED (get_or_create (spec_name spec) configs))
                  e') as Hr.
    by destruct (set_options h _ (option_pairs spec)) as [r pc'].
Qed.

Lemma enable_specs_returned h specs configs :
  (enable_specs h configs specs).1 = Return () →
  ∀ spec, spec ∈ specs → convertible h spec.
Proof.
  revert configs. induction specs as [|spec specs IH]; intros configs Hr x Hx.
  { by apply elem_of_nil in Hx. }
  rewrite enable_specs_cons in Hr.
  destruct (enable_from_spec h configs spec).1 as [[]|e'] eqn:Hhead;
    [|discriminate].
  apply elem_of_cons in Hx as [->|Hx]; [|by apply (IH _ Hr)].
  revert Hhead. unfold enable_from_spec.
  destruct (set_options h _ (option_pairs spec)) as [r pc'] eqn:Hs.
  simpl. intros ->. by apply set_options_returned in Hs as [Hall _].
Qed.

(** A [--plugin] value that cannot be converted -- a string of digits
    longer than the interpreter converts -- makes [update_from_cli] raise
    [ValueError] in the middle of the [--plugin] loop.  What the manifest
    load printed stays printed, and the [--disable-plugin] loop is not
    reached: a plugin named by no [--plugin] spec has the entry the
    manifest gave it, also when [--disable-plugin] names it. *)
Theorem unconvertible_value_aborts_update h cli cfg manifest err spec :
  reload_manifest h cli cfg = (Return (), manifest, err) →
  spec ∈ plugin cli → ¬ convertible h spec →
  ∃ e,
    (update_from_cli h cli cfg).1.1 = Raise e ∧ exc_class e = ValueError ∧
    (update_from_cli h cli cfg).2 = err ∧
    ∀ n, n ∉ spec_name <$> plugin cli →
         plugin_configs (update_from_cli h cli cfg).1.2 !! n
         = plugin_configs manifest !! n.
Proof.
  intros Hre Hspec Hconv. unfold update_from_cli, apply_cli_specs.
  rewrite Hre.
  pose proof (enable_specs_returned h (plugin cli) (plugin_configs manifest))
    as Hret.
  pose proof (enable_specs_raises h (plugin cli) (plugin_configs manifest))
    as Hraise.
  pose proof (enable_specs_untouched h (plugin cli) (plugin_configs manifest))
    as Hother.
  destruct (enable_specs h (plugin_configs manifest) (plugin cli))
    as [[[]|e] configs]; simpl in *.
  - destruct Hconv. by apply (Hret eq_refl).
  - exists e. repeat split; try done. by apply Hraise.
Qed.

Lemma unconvertible_value_aborts_update_witness :
  ∃ e,
    (update_from_cli empty_host cli_long_number default_plugins_config).1.1
    = Raise e ∧ exc_class e = ValueError ∧
    (update_from_cli empty_host cli_long_number default_plugins_config).2
    = [] ∧
    ∀ n, n ∉ spec_name <$> plugin cli_long_number →
         plugin_configs
           (update_from_cli empty_host cli_long_number
                            default_plugins_config).1.2 !! n
         = plugin_configs default_plugins_config !! n.
Proof.
  apply (unconvertible_value_aborts_update empty_host cli_long_number
           default_plugins_config default_plugins_config []
           ("fmt:width=100,seed=" +:+ digits 4301)).
  - reflexivity.
  - apply elem_of_cons. by left.
  - intros Hconv. destruct (Hconv ("seed=" +:+ digits 4301)) as [r Hr].
    + apply elem_of_cons. right. apply elem_of_cons. by left.
    + vm_compute in Hr. discriminate.
Defined.

End CliInvariants.

(** ** The plugin base class: configure and validate_options *)

Section PluginOptions.
Import Base.

Lemma special_attrs_spec key :
  key ∈ special_attrs ↔
  key = "__class__" ∨ key = "__dict__" ∨ key = "__weakref__".
Proof.
  unfold special_attrs.
  rewrite !elem_of_union, !elem_of_singleton. tauto.
Qed.

Lemma hasattr_spec self key :
  hasattr self key = true ↔
  key ∈ special_attrs ∨ key ∈ readonly_properties self ∨
  key ∈ class_attrs self ∨ key ∈ dom (instance_dict self).
Proof.
  unfold hasattr. rewrite bool_decide_eq_true, !elem_of_union. tauto.
Qed.

Lemma hasattr_false self key :
  hasattr self key = false → instance_dict self !! key = None.
Proof.
  intros Hh. apply not_elem_of_dom. intros Hd.
  assert (hasattr self key = true) by (apply hasattr_spec; tauto).
  congruence.
Qed.

(** Assigning a plain attribute stores the value in the instance
    dictionary. *)
Lemma setattr_plain self key value :
  plain self key →
  setattr self key value
  = Return (mkObject (<[key := value]> (instance_dict self))
                     (class_attrs self) (readonly_properties self)).
Proof.
  intros [Hs Hr]. unfold setattr.
  rewrite bool_decide_eq_false_2 by done.
  rewrite special_attrs_spec in Hs.
  destruct (key =? "__class__")%string eqn:E1.
  { apply String.eqb_eq in E1. tauto. }
  destruct (key =? "__dict__")%string eqn:E2.
  { apply String.eqb_eq in E2. tauto. }
  destruct (key =? "__weakref__")%string eqn:E3.
  { apply String.eqb_eq in E3. tauto. }
  done.
Qed.

(** An assignment that returns is either that of a plain attribute or that
    of a dictionary to [__dict__]; the class is the same afterwards. *)
Lemma setattr_returns self key value self' :
  setattr self key value = Return self' →
  class_attrs self' = class_attrs self ∧
  readonly_properties self' = readonly_properties self ∧
  (key ≠ "__dict__" →
   plain self key ∧ instance_dict self' = <[key := value]> (instance_dict self)).
Proof.
  unfold setattr. case_bool_decide as Hr; [done|].
  destruct (key =? "__class__")%string eqn:E1; [done|].
  destruct (key =? "__dict__")%string eqn:E2.
  { apply String.eqb_eq in E2 as ->.
    destruct value; try done. by intros [= <-]. }
  destruct (key =? "__weakref__")%string eqn:E3; [done|].
  intros [= <-]. repeat split; try done.
  rewrite special_attrs_spec.
  apply String.eqb_neq in E1, E2, E3. tauto.
Qed.

Lemma setattr_unassignable self key value :
  unassignable self key → ∃ e, setattr self key value = Raise e.
Proof.
  intros Hu. unfold setattr. case_bool_decide as Hr; [by eexists|].
  destruct Hu as [->| [->|Hu] ]; [by eexists..|done].
Qed.

Lemma unassignable_hasattr self key :
  unassignable self key → hasattr self key = true.
Proof.
  intros Hu. apply hasattr_spec. rewrite special_attrs_spec.
  destruct Hu as [->| [->|Hu] ]; tauto.
Qed.

(** Storing a value under a name the object already has adds no
    attribute. *)
Lemma hasattr_stored self key value k :
  hasattr self key = true →
  hasattr (mkObject (<[key := value]> (instance_dict self))
                    (class_attrs self) (readonly_properties self)) k
  = hasattr self k.
Proof.
  intros Hk. apply hasattr_spec in Hk.
  apply eq_true_iff_eq. rewrite !hasattr_spec. simpl.
  rewrite dom_insert, elem_of_union, elem_of_singleton.
  split; [|tauto]. intros [?|[?|[?|[->|?]]]]; tauto.
Qed.

Lemma configure_plain options :
  ∀ self,
    NoDup options.*1 →
    (∀ key, key ∈ options.*1 → plain self key) →
    ∃ self',
      configure self options = (Return (), self') ∧
      class_attrs self' = class_attrs self ∧
      readonly_properties self' = readonly_properties self ∧
      (∀ k, hasattr self' k = hasattr self k) ∧
      ∀ k, instance_dict self' !! k =
           match dict_get options k with
           | Some v => if hasattr self k then Some v else None
           | None => instance_dict self !! k
           end.
Proof.
  induction options as [|[key value] options IH]; intros self Hnd Hplain.
  { by exists self. }
  apply NoDup_cons in Hnd as [Hkey Hnd].
  assert (Hrest : ∀ x, x ∈ options.*1 → plain self x)
    by (intros x Hx; apply Hplain; by right).
  cbn [configure dict_get].
  destruct (hasattr self key) eqn:Hh.
  - rewrite (setattr_plain self key value (Hplain key ltac:(by left))).
    set (self1 := mkObject _ _ _).
    destruct (IH self1 Hnd Hrest) as (self' & -> & Hc & Hr & Hattr & Hdict).
    exists self'. repeat split; try done.
    + intros k. rewrite Hattr. by apply hasattr_stored.
    + intros k. rewrite Hdict. destruct (key =? k)%string eqn:E.
      * apply String.eqb_eq in E as <-.
        rewrite (dict_get_absent options key Hkey), Hh.
        subst self1. simpl. by rewrite lookup_insert_eq.
      * apply String.eqb_neq in E.
        subst self1. rewrite hasattr_stored by done. simpl.
        by rewrite lookup_insert_ne.
  - destruct (IH self Hnd Hrest) as (self' & -> & Hc & Hr & Hattr & Hdict).
    exists self'. repeat split; try done.
    intros k. rewrite Hdict. destruct (key =? k)%string eqn:E; [|done].
    apply String.eqb_eq in E as <-.
    by rewrite (dict_get_absent options key Hkey), Hh, hasattr_false.
Qed.

Lemma configure_unassignable options :
  ∀ self key,
    key ∈ options.*1 → unassignable self key →
    ∃ e, (configure self options).1 = Raise e.
Proof.
  induction options as [|[k0 v0] options IH]; intros self key Hin Hu.
  { by apply elem_of_nil in Hin. }
  cbn [configure]. destruct (hasattr self k0) eqn:Hh.
  - destruct (setattr self k0 v0) as [self1|e] eqn:Hs; [|by eexists].
    destruct (setattr_returns _ _ _ _ Hs) as (_ & Hr & _).
    rewrite fmap_cons in Hin. apply elem_of_cons in Hin as [->|Hin].
    + destruct (setattr_unassignable self k0 v0 Hu) as [e He]. congruence.
    + apply (IH self1 key Hin).
      unfold unassignable in *. rewrite Hr. tauto.
  - rewrite fmap_cons in Hin. apply elem_of_cons in Hin as [->|Hin].
    + rewrite (unassignable_hasattr self k0 Hu) in Hh. discriminate.
    + by apply (IH self key).
Qed.

(** [configure] on an option map whose keys are plain names -- none of
    [__class__], [__dict__], [__weakref__], no read-only property -- returns;
    it has assigned an option exactly when the object already had an
    attribute of that name, created no attribute, and left the attributes
    without an option as they were.  When a key is [__class__],
    [__weakref__] or a read-only property, the call raises instead. *)
Theorem configure_sets_existing_attributes (self : PyObject)
    (options : list (string * PyVal)) :
  NoDup options.*1 →
  ((∀ key, key ∈ options.*1 → plain self key) →
   ∃ self',
     configure self options = (Return (), self') ∧
     class_attrs self' = class_attrs self ∧
     readonly_properties self' = readonly_properties self ∧
     (∀ k, hasattr self' k = hasattr self k) ∧
     ∀ k, instance_dict self' !! k =
          match dict_get options k with
          | Some v => if hasattr self k then Some v else None
          | None => instance_dict self !! k
          end) ∧
  (∀ key, key ∈ options.*1 → unassignable self key →
     ∃ e, (configure self options).1 = Raise e).
Proof.
  intros Hnd. split.
  - by apply configure_plain.
  - intros key. by apply configure_unassignable.
Qed.

Lemma configure_sets_existing_attributes_witness :
  (∃ self',
     configure sample_object
       [("quotes", VStr "single"); ("colour", VBool true);
        ("PLUGIN_NAME", VStr "mine")] = (Return (), self') ∧
     instance_dict self' !! "quotes" = Some (VStr "single") ∧
     instance_dict self' !! "colour" = None ∧
     instance_dict self' !! "PLUGIN_NAME" = Some (VStr "mine") ∧
     instance_dict self' !! "line_length" = Some (VInt 88)) ∧
  ∃ e, (configure sample_object
          [("quotes", VStr "single"); ("__class__", VInt 5);
           ("line_length", VInt 100)]).1 = Raise e.
Proof.
  split.
  - destruct (proj1 (configure_sets_existing_attributes sample_object
              [("quotes", VStr "single"); ("colour", VBool true);
               ("PLUGIN_NAME", VStr "mine")]
              ltac:(apply (bool_decide_unpack _); by vm_compute)))
      as (self' & Hc & _ & _ & _ & Hd).
    { intros key Hk. cbn in Hk.
      repeat (apply elem_of_cons in Hk as [->|Hk];
              [split; apply (bool_decide_unpack _); by vm_compute|]).
      by apply elem_of_nil in Hk. }
    exists self'. split; [exact Hc|].
    rewrite !Hd. by vm_compute.
  - apply (proj2 (configure_sets_existing_attributes sample_object
              [("quotes", VStr "single"); ("__class__", VInt 5);
               ("line_length", VInt 100)]
              ltac:(apply (bool_decide_unpack _); by vm_compute))
             "__class__").
    + apply elem_of_cons. right. apply elem_of_cons. by left.
    + by left.
Defined.

Lemma validate_loop_lookup (options : list (string * PyVal))
    (self : PyObject) (errors : gmap string string) k :
  foldl (fun errors '(key, value) =>
           if hasattr self key then errors
           else <[key := "Unknown option: " +:+ key]> errors) errors options
    !! k =
  if bool_decide (k ∈ options.*1) && negb (hasattr self k)
  then Some ("Unknown option: " +:+ k) else errors !! k.
Proof.
  revert errors. induction options as [|[k0 v0] options IH]; intros errors.
  { done. }
  cbn [foldl]. rewrite IH, fmap_cons. cbn [fst].
  destruct (decide (k = k0)) as [->|Hne].
  - rewrite (bool_decide_eq_true_2 (k0 ∈ k0 :: options.*1)) by (by left).
    destruct (hasattr self k0) eqn:Hh; simpl.
    + by rewrite andb_false_r.
    + rewrite andb_true_r, lookup_insert_eq. by case_bool_decide.
  - assert (Hiff : bool_decide (k ∈ k0 :: options.*1)
                   = bool_decide (k ∈ options.*1)).
    { apply bool_decide_ext. rewrite elem_of_cons. tauto. }
    rewrite Hiff.
    destruct (bool_decide (k ∈ options.*1) && negb (hasattr self k)); [done|].
    destruct (hasattr self k0); [done|]. by rewrite lookup_insert_ne.
Qed.

Lemma validate_options_lookup self options k :
  validate_options self options !! k =
  if bool_decide (k ∈ options.*1) && negb (hasattr self k)
  then Some ("Unknown option: " +:+ k) else None.
Proof.
  unfold validate_options. by rewrite validate_loop_lookup, lookup_empty.
Qed.

(** Without [__dict__] among the options, [configure] leaves the set of
    attributes as it is, whether it returns or raises. *)
Lemma configure_keeps_attributes options :
  ∀ self k,
    "__dict__" ∉ options.*1 →
    hasattr (configure self options).2 k = hasattr self k.
Proof.
  induction options as [|[k0 v0] options IH]; intros self k Hd; [done|].
  rewrite fmap_cons in Hd. apply not_elem_of_cons in Hd as [Hk0 Hd].
  cbn [configure]. destruct (hasattr self k0) eqn:Hh; [|by apply IH].
  destruct (setattr self k0 v0) as [self1|e] eqn:Hs; [|done].
  rewrite IH by done.
  destruct (setattr_returns _ _ _ _ Hs) as (Hc & Hr & Hp).
  destruct (Hp ltac:(done)) as [_ Hi].
  destruct self1 as [i1 c1 r1]. simpl in *. subst.
  by apply hasattr_stored.
Qed.

(** [validate_options] reports exactly the options that name no attribute
    of the object: a key gets the message "Unknown option: key" when the
    option is given and [hasattr] does not find it, and no entry otherwise;
    the result is empty exactly when every option names an attribute.
    Unless [__dict__] is among them, these are the options [configure]
    ignores: the keys that name no attribute after [configure] either. *)
Theorem validate_options_reports_ignored (self : PyObject)
    (options : list (string * PyVal)) k :
  validate_options self options !! k =
    (if bool_decide (k ∈ options.*1) && negb (hasattr self k)
     then Some ("Unknown option: " +:+ k) else None) ∧
  (validate_options self options = ∅ ↔
   ∀ key, key ∈ options.*1 → hasattr self key = true) ∧
  ("__dict__" ∉ options.*1 →
   validate_options self options !! k =
     if bool_decide (k ∈ options.*1 ∧
                     hasattr (configure self options).2 k = false)
     then Some ("Unknown option: " +:+ k) else None).
Proof.
  split; [apply validate_options_lookup|]. split.
  - split.
    + intros He key Hkey.
      pose proof (validate_options_lookup self options key) as Hl.
      rewrite He, lookup_empty, (bool_decide_eq_true_2 _ Hkey) in Hl.
      by destruct (hasattr self key).
    + intros Hall. apply map_eq. intros key.
      rewrite validate_options_lookup, lookup_empty.
      case_bool_decide as Hkey; [|done].
      by rewrite (Hall key Hkey).
  - intros Hd. rewrite validate_options_lookup.
    rewrite (configure_keeps_attributes options self k Hd).
    destruct (hasattr self k); repeat case_bool_decide; simpl; try done;
      exfalso; intuition congruence.
Qed.

Lemma validate_options_reports_ignored_witness :
  validate_options sample_object
    [("quotes", VStr "single"); ("colour", VBool true)] !! "colour"
  = if bool_decide
         ("colour" ∈ [("quotes", VStr "single"); ("colour", VBool true)].*1 ∧
          hasattr (configure sample_object
                     [("quotes", VStr "single"); ("colour", VBool true)]).2
                  "colour" = false)
    then Some "Unknown option: colour" else None.
Proof.
  apply (proj2 (proj2 (validate_options_reports_ignored sample_object
                         [("quotes", VStr "single"); ("colour", VBool true)]
                         "colour"))).
  apply (bool_decide_unpack _). by vm_compute.
Defined.

End PluginOptions.

(** ** The registry: discovery *)

Section DiscoveryProperties.
Import Base Registry.
Context {Node W : Type}.
Implicit Types (h : Host Node W) (st : State Node W).
Implicit Types (classes : list (string * PluginClass Node W)).

(** Directory entries that do not end in ".py" or that start with an
    underscore are never imported: a listing made of such entries leaves the
    registry alone whatever importing them would do. *)
Theorem non_candidates_are_not_imported h search_path items classes err :
  Forall (fun item => is_candidate item = false) items →
  scan_items h search_path items classes err = (Return (), classes, err).
Proof.
  induction 1 as [|item items Hc _ IH]; [done|]. simpl. by rewrite Hc.
Qed.

Lemma dict_set_keys {A} (d : list (string * A)) k v n :
  n ∈ d.*1 → n ∈ (dict_set d k v).*1.
Proof.
  induction d as [|[k' v'] d IH]; [by intros ?%elem_of_nil|]. simpl.
  destruct (k' =? k)%string eqn:E; simpl.
  - apply String.eqb_eq in E as ->. done.
  - intros [->|Hn]%elem_of_cons; apply elem_of_cons; [by left|].
    right. by apply IH.
Qed.

Lemma register_module_keys (attrs : list (ModuleAttr Node W)) classes n :
  n ∈ classes.*1 → n ∈ (register_module attrs classes).*1.
Proof.
  unfold register_module. revert classes.
  induction attrs as [|a attrs IH]; intros classes Hn; [done|].
  simpl. apply IH. destruct (qualifies a); [|done]. by apply dict_set_keys.
Qed.

Lemma scan_items_keys h search_path items classes err n :
  n ∈ classes.*1 →
  n ∈ (scan_items h search_path items classes err).1.2.*1.
Proof.
  revert classes err. induction items as [|item items IH];
    intros classes err Hn; [done|].
  simpl. destruct (is_candidate item); [|by apply IH].
  destruct (import_module h search_path (drop_last 3 item)) as [attrs|e].
  - by apply IH, register_module_keys.
  - destruct (isinstance e ImportError); [by apply IH|done].
Qed.

Lemma scan_paths_keys h search_path paths classes err n :
  n ∈ classes.*1 →
  n ∈ (scan_paths h search_path paths classes err).1.2.*1.
Proof.
  revert classes err. induction paths as [|path paths IH];
    intros classes err Hn; [done|].
  simpl. destruct (os_path_exists h path); [|by apply IH].
  destruct (os_listdir h path) as [items|e]; [|done].
  pose proof (scan_items_keys h search_path items classes err n Hn) as Hs.
  destruct (scan_items h search_path items classes err)
    as [[[[]|e] classes'] err']; simpl in Hs; [by apply IH|done].
Qed.

(** Discovery never forgets a plugin class: every name registered before
    the call is registered after it, whether the call returns or raises. *)
Theorem discovery_keeps_registered_names h paths st n :
  n ∈ (plugin_classes st).*1 →
  n ∈ (plugin_classes (discover_plugins h paths st).2).*1.
Proof.
  intros Hn. unfold discover_plugins.
  set (ps := match paths with [] => default_paths h | _ => paths end).
  pose proof (scan_paths_keys h (extend_sys_path h ps (sys_path st)) ps
                (plugin_classes st) (stderr st) n Hn) as Hs.
  by destruct (scan_paths h _ ps (plugin_classes st) (stderr st))
    as [[r classes'] err'].
Qed.

Lemma scan_items_returns h search_path items classes err :
  (∀ sp m e, import_module h sp m = Raise e → isinstance e ImportError = true) →
  (scan_items h search_path items classes err).1.1 = Return ().
Proof.
  intros Himp. revert classes err.
  induction items as [|item items IH]; intros classes err; [done|].
  simpl. destruct (is_candidate item); [|by apply IH].
  destruct (import_module h search_path (drop_last 3 item)) as [attrs|e] eqn:Hi.
  - apply IH.
  - rewrite (Himp _ _ _ Hi). apply IH.
Qed.

Lemma scan_paths_returns h search_path paths classes err :
  (∀ sp m e, import_module h sp m = Raise e → isinstance e ImportError = true) →
  (∀ p e, os_path_exists h p = true → os_listdir h p ≠ Raise e) →
  (scan_paths h search_path paths classes err).1.1 = Return ().
Proof.
  intros Himp Hdir. revert classes err.
  induction paths as [|path paths IH]; intros classes err; [done|].
  simpl. destruct (os_path_exists h path) eqn:Hex; [|by apply IH].
  destruct (os_listdir h path) as [items|e] eqn:Hl.
  - pose proof (scan_items_returns h search_path items classes err Himp) as Hs.
    destruct (scan_items h search_path items classes err)
      as [[[[]|e] classes'] err']; simpl in Hs; [by apply IH|done].
  - by destruct (Hdir path e Hex).
Qed.

(** Discovery returns normally when every failing import fails with an
    [ImportError] and every existing directory can be listed. *)
Theorem discovery_returns_when_only_imports_fail h paths st :
  (∀ sp m e, import_module h sp m = Raise e → isinstance e ImportError = true) →
  (∀ p e, os_path_exists h p = true → os_listdir h p ≠ Raise e) →
  (discover_plugins h paths st).1 = Return ().
Proof.
  intros Himp Hdir. unfold discover_plugins.
  set (ps := match paths with [] => default_paths h | _ => paths end).
  pose proof (scan_paths_returns h (extend_sys_path h ps (sys_path st)) ps
                (plugin_classes st) (stderr st) Himp Hdir) as Hs.
  by destruct (scan_paths h _ ps (plugin_classes st) (stderr st))
    as [[r classes'] err'].
Qed.

Lemma dict_find_set {A} (d : list (string * A)) k v n :
  dict_find (dict_set d k v) n =
  if decide (k = n) then Some v else dict_find d n.
Proof.
  induction d as [|[k' v'] d IH]; simpl.
  - destruct (decide (k = n)) as [->|Hne]; [by rewrite String.eqb_refl|].
    apply String.eqb_neq in Hne. by rewrite Hne.
  - destruct (k' =? k)%string eqn:E; simpl.
    + apply String.eqb_eq in E as ->.
      destruct (decide (k = n)) as [->|Hne]; [by rewrite String.eqb_refl|].
      apply String.eqb_neq in Hne. by rewrite Hne.
    + rewrite IH. destruct (k' =? n)%string eqn:E'; [|done].
      apply String.eqb_eq in E' as ->. apply String.eqb_neq in E.
      by destruct (decide (k = n)).
Qed.

(** Name collisions inside a module: the class registered under a name is
    the one of the last qualifying attribute declaring that name, and a name
    no attribute declares keeps the class it had. *)
Theorem last_definition_wins (attrs : list (ModuleAttr Node W)) classes n :
  dict_find (register_module attrs classes) n =
  match last (filter (fun a => qualifies a = Some n) attrs) with
  | Some a => Some (attr_class a)
  | None => dict_find classes n
  end.
Proof.
  unfold register_module.
  induction attrs as [|a attrs IH] using rev_ind; [done|].
  rewrite foldl_app, filter_app. simpl.
  destruct (qualifies a) as [m|] eqn:Hq.
  - rewrite dict_find_set. destruct (decide (m = n)) as [->|Hne].
    + rewrite filter_cons_True by done. by rewrite filter_nil, last_snoc.
    + rewrite filter_cons_False by congruence.
      by rewrite filter_nil, app_nil_r.
  - rewrite filter_cons_False by congruence.
    by rewrite filter_nil, app_nil_r.
Qed.

End DiscoveryProperties.

Section DiscoveryWitnesses.
Import Base Registry.

Lemma non_candidates_are_not_imported_witness :
  scan_items (broken_unit_host (mkExc SyntaxError "invalid syntax")) []
             ["_broken.py"; "README.md"] [] []
  = (Return (), [], []).
Proof.
  apply (non_candidates_are_not_imported
           (broken_unit_host (mkExc SyntaxError "invalid syntax"))).
  repeat constructor.
Defined.

Lemma discovery_keeps_registered_names_witness :
  "good" ∈ (plugin_classes
              (discover_plugins
                 (broken_unit_host (mkExc SyntaxError "invalid syntax")) []
                 discovered_state).2).*1.
Proof.
  apply (discovery_keeps_registered_names
           (broken_unit_host (mkExc SyntaxError "invalid syntax")) []
           discovered_state "good").
  apply elem_of_cons. right. apply elem_of_cons. by left.
Defined.

Lemma discovery_returns_when_only_imports_fail_witness :
  (discover_plugins
     (broken_unit_host (mkExc ModuleNotFoundError "No module named 'dep'"))
     [] fresh_state).1 = Return ().
Proof.
  apply (discovery_returns_when_only_imports_fail
           (broken_unit_host
              (mkExc ModuleNotFoundError "No module named 'dep'"))).
  - intros sp m e. simpl. destruct (m =? "broken")%string; [|done].
    by intros [= <-].
  - intros p e _. done.
Defined.

End DiscoveryWitnesses.

(** ** The registry: enabling plugins *)

Section Enabling.
Import Base Registry.
Context {Node W : Type}.
Implicit Types (h : Host Node W) (st : State Node W).
Implicit Types (classes : list (string * PluginClass Node W)).
Implicit Types (enabled : list (string * Plugin Node W)).

Lemma dict_set_new {A} (d : list (string * A)) k v :
  k ∉ d.*1 → dict_set d k v = d ++ [(k, v)].
Proof.
  induction d as [|[k' v'] d IH]; [done|]. simpl.
  intros [Hne Hk]%not_elem_of_cons.
  apply not_eq_sym, String.eqb_neq in Hne. rewrite Hne. by rewrite IH.
Qed.

Lemma dict_set_keys_inv {A} (d : list (string * A)) k v n :
  n ∈ (dict_set d k v).*1 → n = k ∨ n ∈ d.*1.
Proof.
  induction d as [|[k' v'] d IH]; simpl.
  - intros [->|?%elem_of_nil]%elem_of_cons; [by left|done].
  - destruct (k' =? k)%string eqn:E; simpl.
    + apply String.eqb_eq in E as ->. by right.
    + intros [->|Hn]%elem_of_cons; [right; apply elem_of_cons; by left|].
      destruct (IH Hn) as [->|Hd]; [by left|].
      right. apply elem_of_cons. by right.
Qed.

Lemma enable_plugins_names config classes enabled err n :
  n ∈ (enable_plugins config classes enabled err).1.2.*1 →
  n ∈ enabled.*1 ∨ (n ∈ classes.*1 ∧ plugin_enabled config n = true).
Proof.
  revert enabled err.
  induction classes as [|[m cls] classes IH]; intros enabled err; simpl.
  { by left. }
  destruct (plugin_enabled config m) eqn:Hen.
  - destruct (new_instance cls (options_for config m)) as [inst|e].
    + intros [Hn|[Hn He]]%IH.
      * apply dict_set_keys_inv in Hn as [->|Hn]; [|by left].
        right. split; [apply elem_of_cons; by left|done].
      * right. split; [apply elem_of_cons; by right|done].
    + destruct (isinstance e Exception); [|by left].
      intros [Hn|[Hn He]]%IH; [by left|].
      right. split; [apply elem_of_cons; by right|done].
  - intros [Hn|[Hn He]]%IH; [by left|].
    right. split; [apply elem_of_cons; by right|done].
Qed.

Lemma configure_enabled_names h config paths st n :
  n ∈ (enabled_plugins (configure_plugins h config paths st).2).*1 →
  truthy (Config.disable_all config) = false ∧
  plugin_enabled config n = true ∧
  n ∈ (plugin_classes (configure_plugins h config paths st).2).*1.
Proof.
  unfold configure_plugins.
  destruct (truthy (Config.disable_all config)); [by intros ?%elem_of_nil|].
  simpl.
  set (st0 := mkState (sys_path st) (plugin_classes st) [] (stderr st)).
  assert (Hd : ∀ r st1,
    (match plugin_classes st with
     | [] => discover_plugins h paths st0
     | _ => (Return (), st0)
     end) = (r, st1) → enabled_plugins st1 = []).
  { intros r st1. destruct (plugin_classes st).
    - unfold discover_plugins. simpl.
      destruct (scan_paths h _ _ _ _) as [[r' c'] e']. by intros [= _ <-].
    - by intros [= _ <-]. }
  destruct (match plugin_classes st with
            | [] => discover_plugins h paths st0
            | _ => (Return (), st0)
            end) as [r st1] eqn:Hdisc.
  specialize (Hd r st1 eq_refl).
  destruct r as [[]|e]; simpl.
  - pose proof (enable_plugins_names config (plugin_classes st1)
                  (enabled_plugins st1) (stderr st1) n) as Hn.
    destruct (enable_plugins config (plugin_classes st1)
                (enabled_plugins st1) (stderr st1)) as [[r' enabled] err'].
    simpl in *. rewrite Hd in Hn. intros Hin.
    destruct (Hn Hin) as [?%elem_of_nil|[Hc He]]; done.
  - rewrite Hd. by intros ?%elem_of_nil.
Qed.

(** After [configure_plugins], however the call ended, a plugin is in the
    enabled set only if [disable_all] is false, its resolved state is
    enabled, and its class is registered: with [disable_all] set nothing is
    enabled, and plugins enabled by an earlier configuration are not kept
    unless the new configuration enables them again. *)
Theorem configure_enables_only_selected h config paths st n :
  n ∈ (enabled_plugins (configure_plugins h config paths st).2).*1 →
  truthy (Config.disable_all config) = false ∧
  plugin_enabled config n = true ∧
  n ∈ (plugin_classes (configure_plugins h config paths st).2).*1.
Proof. apply configure_enabled_names. Qed.

Lemma nodup_middle_drop (l1 l2 : list string) m :
  NoDup (l1 ++ m :: l2) → NoDup (l1 ++ l2) ∧ m ∉ l1.
Proof.
  intros Hnd. rewrite <- Permutation_middle in Hnd.
  apply NoDup_cons in Hnd as [Hm Hnd]. split; [done|].
  intros Hin. apply Hm, elem_of_app. by left.
Qed.

Lemma enable_plugins_exact config classes enabled err :
  NoDup (enabled.*1 ++ classes.*1) →
  init_raises_only_exceptions config classes →
  enable_plugins config classes enabled err =
  (Return (), enabled ++ omap (instance_of config) classes,
   err ++ omap (init_failure_of config) classes).
Proof.
  revert enabled err.
  induction classes as [|[m cls] classes IH]; intros enabled err Hnd Hexc.
  { simpl. by rewrite !app_nil_r. }
  assert (Hexc' : init_raises_only_exceptions config classes).
  { intros n c e Hin. apply Hexc. apply elem_of_cons. by right. }
  rewrite fmap_cons in Hnd. simpl in Hnd.
  destruct (nodup_middle_drop _ _ _ Hnd) as [Hdrop Hm].
  cbn [enable_plugins omap list_omap].
  unfold instance_of at 1, init_failure_of at 1. cbn [fst snd].
  destruct (plugin_enabled config m) eqn:Hen.
  - destruct (new_instance cls (options_for config m)) as [inst|e] eqn:Hnew.
    + rewrite (dict_set_new _ _ _ Hm), IH; [|
        by rewrite fmap_app, <- app_assoc|done].
      by rewrite <- app_assoc.
    + rewrite (Hexc m cls e); [|apply elem_of_cons; by left|done].
      rewrite IH by done. by rewrite <- app_assoc.
  - by apply IH.
Qed.


(** With classes already discovered and [disable_all] false,
    [configure_plugins] does no discovery and returns with exactly the
    enabled classes that could be built, in registration order; each class
    whose construction or configuration raised is omitted and logged, and
    the others are not affected. *)
Theorem configure_builds_enabled_in_order h config paths st :
  truthy (Config.disable_all config) = false →
  plugin_classes st ≠ [] →
  NoDup (plugin_classes st).*1 →
  init_raises_only_exceptions config (plugin_classes st) →
  configure_plugins h config paths st =
  (Return (),
   mkState (sys_path st) (plugin_classes st)
           (omap (instance_of config) (plugin_classes st))
           (stderr st ++ omap (init_failure_of config) (plugin_classes st))).
Proof.
  intros Hall Hne Hnd Hexc. unfold configure_plugins. rewrite Hall.
  cbn [plugin_classes enabled_plugins stderr sys_path].
  assert (Hm :
    match plugin_classes st with
    | [] => discover_plugins h paths
              (mkState (sys_path st) (plugin_classes st) [] (stderr st))
    | _ => (Return (),
            mkState (sys_path st) (plugin_classes st) [] (stderr st))
    end = (Return (),
           mkState (sys_path st) (plugin_classes st) [] (stderr st))).
  { by destruct (plugin_classes st). }
  rewrite Hm. cbn [plugin_classes enabled_plugins stderr sys_path].
  by rewrite (enable_plugins_exact config (plugin_classes st) [] (stderr st)
                Hnd Hexc).
Qed.

End Enabling.

Section EnablingWitnesses.
Import Base Registry.

Lemma configure_builds_enabled_in_order_witness :
  configure_plugins (broken_unit_host (mkExc SyntaxError "invalid syntax"))
                    Config.default_plugins_config [] discovered_state
  = (Return (),
     mkState (sys_path discovered_state) (plugin_classes discovered_state)
       (omap (instance_of Config.default_plugins_config)
             (plugin_classes discovered_state))
       (stderr discovered_state
        ++ omap (init_failure_of Config.default_plugins_config)
                (plugin_classes discovered_state))).
Proof.
  apply (configure_builds_enabled_in_order
           (broken_unit_host (mkExc SyntaxError "invalid syntax"))
           Config.default_plugins_config [] discovered_state).
  - reflexivity.
  - discriminate.
  - apply NoDup_cons. split; [|apply NoDup_singleton].
    by intros [?|?%elem_of_nil]%elem_of_cons.
  - intros n cls e Hin Hraise.
    repeat (apply elem_of_cons in Hin as [[= -> ->]|Hin];
            [by injection Hraise as <-||discriminate|]).
    by apply elem_of_nil in Hin.
Defined.

End EnablingWitnesses.

Section EnablingWitnessSelected.
Import Base Registry.

Lemma configure_enables_only_selected_witness :
  truthy (Config.disable_all Config.default_plugins_config) = false ∧
  plugin_enabled Config.default_plugins_config "good" = true ∧
  "good" ∈ (plugin_classes
              (configure_plugins
                 (broken_unit_host (mkExc SyntaxError "invalid syntax"))
                 Config.default_plugins_config [] discovered_state).2).*1.
Proof.
  apply (configure_enables_only_selected
           (broken_unit_host (mkExc SyntaxError "invalid syntax"))
           Config.default_plugins_config [] discovered_state "good").
  vm_compute. apply elem_of_cons. by left.
Defined.

End EnablingWitnessSelected.

(** ** Initialisation: manifest, command line and registry together *)

Section Initialisation.
Import Base Registry Dispatch.
Context {Node W : Type}.

Lemma disabled_name_is_not_enabled hc cli cfg cfg' err n :
  Config.update_from_cli hc cli cfg = (Return (), cfg', err) →
  n ∈ Config.disable_plugin cli →
  plugin_enabled cfg' n = false.
Proof.
  intros Hupd Hn.
  apply update_from_cli_inv in Hupd as (manifest & _ & Hcli).
  apply apply_cli_specs_inv in Hcli as [_ ->].
  unfold plugin_enabled. simpl.
  destruct (disable_names_disabled (Config.disable_plugin cli)
              (Config.enable_specs hc (Config.plugin_configs manifest)
                                   (Config.plugin cli)).2 n Hn)
    as (pc & -> & Hs).
  simpl. by rewrite Hs.
Qed.

Lemma flag_alone_disables_all hc cli cfg :
  Config.disable_all_plugins cli = true →
  Config.plugin_config cli = None →
  Config.disable_all (Config.update_from_cli hc cli cfg).1.2 = VBool true.
Proof.
  intros Hflag Hnone. unfold Config.update_from_cli, Config.reload_manifest.
  rewrite Hflag, Hnone. unfold Config.apply_cli_specs.
  by destruct (Config.enable_specs hc _ (Config.plugin cli))
    as [[[]|e] configs].
Qed.

(** When [initialize_plugins] returns, no plugin named by
    [--disable-plugin] is enabled in the registry, whatever the manifest and
    the [--plugin] flags say; and with [--disable-all-plugins] and no
    [--plugin-config] no plugin at all is enabled. *)
Theorem initialize_respects_cli_disable (hc : Config.Host)
    (hr : Host Node W) config_path cli paths (st st' : State Node W) :
  initialize_plugins hc hr config_path (Some cli) paths st = (Return (), st') →
  (∀ n, n ∈ Config.disable_plugin cli → n ∉ (enabled_plugins st').*1) ∧
  (Config.disable_all_plugins cli = true → Config.plugin_config cli = None →
   enabled_plugins st' = []).
Proof.
  unfold initialize_plugins.
  destruct (Config.load_from_pyproject hc _ Config.default_plugins_config)
    as [[[[]|e1] cfg1] err1]; [|discriminate].
  pose proof (flag_alone_disables_all hc cli cfg1) as Hflag.
  destruct (Config.update_from_cli hc cli cfg1)
    as [[[[]|e2] cfg2] err2] eqn:Hupd; [|discriminate].
  simpl in Hflag. set (st0 := mkState _ _ _ _). intros Hconf. split.
  - intros n Hn Hin.
    assert (Hst : st' = (configure_plugins hr cfg2 paths st0).2)
      by by rewrite Hconf.
    rewrite Hst in Hin.
    apply configure_enabled_names in Hin as (_ & Hen & _).
    by rewrite (disabled_name_is_not_enabled hc cli cfg1 cfg2 err2 n Hupd Hn)
      in Hen.
  - intros Hf Hp. specialize (Hflag Hf Hp).
    unfold configure_plugins in Hconf. rewrite Hflag in Hconf. simpl in Hconf.
    by injection Hconf as <-.
Qed.

End Initialisation.

Section InitialisationWitness.
Import Base Registry Dispatch.

Lemma initialize_respects_cli_disable_witness :
  (∀ n, n ∈ Config.disable_plugin Config.cli_both_flags →
        n ∉ (enabled_plugins
               (initialize_plugins Config.empty_host
                  (broken_unit_host (mkExc SyntaxError "invalid syntax"))
                  None (Some Config.cli_both_flags) [] discovered_state).2).*1) ∧
  (Config.disable_all_plugins Config.cli_both_flags = true →
   Config.plugin_config Config.cli_both_flags = None →
   enabled_plugins
     (initialize_plugins Config.empty_host
        (broken_unit_host (mkExc SyntaxError "invalid syntax"))
        None (Some Config.cli_both_flags) [] discovered_state).2 = []).
Proof.
  apply (initialize_respects_cli_disable Config.empty_host
           (broken_unit_host (mkExc SyntaxError "invalid syntax"))
           None Config.cli_both_flags [] discovered_state).
  vm_compute. reflexivity.
Defined.

End InitialisationWitness.

(** ** The pipeline: which exceptions can leave it *)

Section PipelineFaults.
Import Base Dispatch.
Context {Node W : Type}.
Implicit Types (plugins pre rest : list (Plugin Node W)).
Implicit Types (p : Plugin Node W) (line_gen : LineGen Node W).

Lemma apply_loop_returns plugins line_gen node w :
  Forall raises_only_exceptions plugins →
  ∃ r w' err, apply_loop plugins line_gen node w = (Return r, w', err).
Proof.
  intros Hall. revert w.
  induction Hall as [|p plugins Hp _ IH]; intros w; [by eexists _, _, _|].
  simpl. destruct (apply_plugin p line_gen node w) as [[[result|]|e] w1] eqn:Ha.
  - by eexists _, _, _.
  - apply IH.
  - rewrite (Hp _ _ _ _ _ Ha).
    destruct (IH w1) as (r & w' & err & ->). by eexists _, _, _.
Qed.

(** When the plugins raise nothing but instances of [Exception],
    [_apply_plugins] always returns, and an exception can leave [visit] only
    if the host renderer raised it. *)
Theorem only_host_faults_leave_visit plugins line_gen node w :
  Forall raises_only_exceptions plugins →
  (∃ r w' err, _apply_plugins plugins line_gen node w = (Return r, w', err)) ∧
  (∀ e w' err, visit plugins line_gen node w = (Raise e, w', err) →
     ∃ w0, line_gen node w0 = (Raise e, w')).
Proof.
  intros Hall. rewrite apply_plugins_is_loop.
  destruct (apply_loop_returns plugins line_gen node w Hall)
    as (r & w1 & err1 & Hloop).
  split; [by eexists _, _, _|].
  intros e w' err. unfold visit. rewrite apply_plugins_is_loop, Hloop.
  destruct r as [result|]; [done|].
  destruct (line_gen node w1) as [[lines|e'] w2] eqn:Hl; [done|].
  intros [= -> -> _]. by exists w1.
Qed.

(** An exception that is not an instance of [Exception] (a keyboard
    interrupt, a system exit) is not handled: it leaves [visit] at once,
    the plugins after it and the host renderer are not run, and nothing is
    printed for it. *)
Theorem non_exception_aborts_visit pre p rest line_gen node w w0 err0 e w1 :
  apply_loop pre line_gen node w = (Return None, w0, err0) →
  apply_plugin p line_gen node w0 = (Raise e, w1) →
  isinstance e Exception = false →
  visit (pre ++ p :: rest) line_gen node w = (Raise e, w1, err0).
Proof.
  intros Hpre Hp He. rewrite (visit_app _ _ _ _ _ _ _ Hpre).
  unfold visit. rewrite apply_plugins_is_loop. simpl.
  by rewrite Hp, He, app_nil_r.
Qed.

End PipelineFaults.

Section PipelineFaultWitnesses.
Import Base Dispatch.

Lemma only_host_faults_leave_visit_witness :
  (∃ r w' err, _apply_plugins [raising_plugin; line_plugin] host_renderer () O
               = (Return r, w', err)) ∧
  (∀ e w' err,
     visit [raising_plugin; line_plugin] host_renderer () O = (Raise e, w', err) →
     ∃ w0, host_renderer () w0 = (Raise e, w')).
Proof.
  apply (only_host_faults_leave_visit [raising_plugin; line_plugin]
           host_renderer () O).
  repeat constructor; intros lg node w e w'; by intros [= <- _].
Defined.

Lemma non_exception_aborts_visit_witness :
  visit ([deferring_plugin] ++ interrupted_plugin :: [line_plugin])
        host_renderer () O
  = (Raise (mkExc KeyboardInterrupt ""), 2%nat, []).
Proof.
  apply (non_exception_aborts_visit [deferring_plugin] interrupted_plugin
           [line_plugin] host_renderer () O 1%nat []); reflexivity.
Defined.

End PipelineFaultWitnesses.

(** ** The import sorter inside the pipeline *)

Section SorterInPipeline.
Import Base ImportSorter.

(** For a node that is neither an import nor a module, the sorter returns
    the host rendering as its own result; so whenever the host renderer
    returns, the plugins registered after the sorter are not consulted for
    such a node. *)
Theorem sorter_claims_other_nodes self rest line_gen node ctx lines ctx' :
  is_import node = false → type node ≠ "file_input" →
  line_gen node ctx = (Return lines, ctx') →
  sorter_apply_plugin self line_gen node ctx = (Return (Some lines), ctx') ∧
  Dispatch.visit (sorter_plugin self :: rest) line_gen node ctx
  = (Return lines, ctx', []).
Proof.
  intros Himp Hty Hl.
  assert (Ha : sorter_apply_plugin self line_gen node ctx
               = (Return (Some lines), ctx')).
  { unfold sorter_apply_plugin. rewrite Himp.
    apply String.eqb_neq in Hty. rewrite Hty. simpl.
    unfold returning. by rewrite Hl. }
  split; [done|]. unfold Dispatch.visit. simpl. by rewrite Ha.
Qed.

Lemma sorter_claims_other_nodes_witness :
  sorter_apply_plugin default_sorter code_renderer (leaf "expr_stmt" "x = 1") ∅
  = (Return (Some ["x = 1"]), ∅) ∧
  Dispatch.visit
    (sorter_plugin default_sorter :: [sorter_plugin example_sorter])
    code_renderer (leaf "expr_stmt" "x = 1") ∅
  = (Return ["x = 1"], ∅, []).
Proof.
  apply (sorter_claims_other_nodes default_sorter
           [sorter_plugin example_sorter] code_renderer
           (leaf "expr_stmt" "x = 1") ∅); [reflexivity|discriminate|reflexivity].
Defined.

Lemma any_prefix_empty module_name (prefixes : gset string) :
  "" ∈ prefixes → any_prefix module_name prefixes = true.
Proof.
  intros Hin. unfold any_prefix. apply existsb_exists. exists "".
  split; [|by destruct module_name].
  by apply list_elem_of_In, elem_of_elements.
Qed.

(** A prefix set that contains the empty string matches every module: with
    the empty prefix among the local prefixes every import is local, and
    with it among the first-party prefixes every import that no local prefix
    matches is first party. *)
Theorem empty_prefix_matches_every_import self import_node :
  ("" ∈ local_prefixes self →
     _determine_import_group self import_node = "local") ∧
  ("" ∈ first_party_prefixes self →
     any_prefix (_get_module_name import_node) (local_prefixes self) = false →
     _determine_import_group self import_node = "first_party").
Proof.
  unfold _determine_import_group. split.
  - intros Hin. rewrite group_of_module_spec.
    by rewrite (any_prefix_empty _ _ Hin).
  - intros Hin Hloc. rewrite group_of_module_spec, Hloc.
    by rewrite (any_prefix_empty _ _ Hin).
Qed.

Lemma empty_prefix_matches_every_import_witness :
  _determine_import_group catch_all_sorter (import_stmt "os") = "first_party".
Proof.
  apply (proj2 (empty_prefix_matches_every_import catch_all_sorter
                  (import_stmt "os"))).
  - change ("" ∈ ({[""]} : gset string)). by apply elem_of_singleton_2.
  - reflexivity.
Defined.

End SorterInPipeline.

(** ** Sorting keeps every import *)

Section SortKeepsImports.
Import Base ImportSorter.

Lemma insert_sorted_perm {A} (x : SortKey * A) sorted l :
  insert_sorted x sorted = Return l → l ≡ₚ x :: sorted.
Proof.
  revert l. induction sorted as [|y ys IH]; intros l; simpl.
  { by intros [= <-]. }
  destruct (key_lt x.1 y.1) as [[]|e]; simpl; [by intros [= <-]| |done].
  destruct (insert_sorted x ys) as [zs|e]; simpl; [|done].
  intros [= <-]. rewrite (IH zs eq_refl). apply Permutation_swap.
Qed.

Lemma sort_fold_same_kind {A} k (l sorted : list (SortKey * A)) :
  Forall (fun y => is_tuple y.1 = k) sorted →
  Forall (fun y => is_tuple y.1 = k) l →
  ∃ r, foldl sort_step (Return sorted) l = Return r ∧ r ≡ₚ sorted ++ l.
Proof.
  revert sorted. induction l as [|x l IH]; intros sorted Hs Hl.
  { exists sorted. by rewrite app_nil_r. }
  apply Forall_cons in Hl as [Hx Hl].
  cbn [foldl]. rewrite sort_step_return.
  destruct (insert_sorted_same_kind k x sorted Hx Hs) as (s' & Hi & _ & Hs').
  rewrite Hi. destruct (IH s' Hs' Hl) as (r & -> & Hr).
  exists r. split; [done|]. rewrite Hr, (insert_sorted_perm _ _ _ Hi).
  simpl. apply Permutation_middle.
Qed.

Lemma list_sort_same_kind {A} (key : A → SortKey) k (l : list A) :
  (∀ x, is_tuple (key x) = k) →
  ∃ r, list_sort key l = Return r ∧ r ≡ₚ l.
Proof.
  intros Hk. unfold list_sort.
  destruct (sort_fold_same_kind k ((fun x => (key x, x)) <$> l) [])
    as (r & -> & Hr).
  - constructor.
  - apply Forall_fmap, Forall_forall. intros x _. apply Hk.
  - exists r.*2. split; [done|]. rewrite Hr. simpl.
    rewrite <- list_fmap_compose. by rewrite list_fmap_id.
Qed.

Lemma sort_groups_same_kind self grouped :
  sort_by_package_then_name self = false →
  ∃ grouped', sort_groups self grouped = Return grouped' ∧
              grouped'.*1 = grouped.*1 ∧
              concat grouped'.*2 ≡ₚ concat grouped.*2.
Proof.
  intros Hpkg. induction grouped as [|[g lst] rest IH]; [by exists []|].
  simpl.
  destruct (list_sort_same_kind
              (fun x : Node * string =>
                 _get_sort_key x.1 (sort_case_insensitive self)
                               (sort_by_package_then_name self)) false lst)
    as (sorted & -> & Hs).
  { intros x. by rewrite Hpkg. }
  destruct IH as (rest' & -> & Hk & Hc).
  exists ((g, sorted) :: rest'). split; [done|].
  rewrite !fmap_cons. cbn [fst snd concat]. split; [by rewrite Hk|].
  by rewrite Hs, Hc.
Qed.

Lemma dict_lookup_absent {A} (d : list (string * A)) k :
  k ∉ d.*1 → dict_lookup d k = None.
Proof.
  induction d as [|[k' v] d IH]; [done|]. simpl.
  intros [Hne Hk]%not_elem_of_cons.
  apply not_eq_sym, String.eqb_neq in Hne. rewrite Hne. by apply IH.
Qed.

Lemma lookup_cons_concat {A} (g : string) (l : list A) rest order :
  NoDup order → dict_lookup rest g = None →
  concat (omap (dict_lookup ((g, l) :: rest)) order) ≡ₚ
  (if bool_decide (g ∈ order) then l else []) ++
  concat (omap (dict_lookup rest) order).
Proof.
  intros Hnd Hg. induction order as [|o order IH]; [done|].
  apply NoDup_cons in Hnd as [Ho Hnd]. specialize (IH Hnd).
  cbn [omap list_omap dict_lookup].
  destruct (g =? o)%string eqn:E.
  - apply String.eqb_eq in E as <-. rewrite Hg.
    rewrite bool_decide_eq_true_2 by (apply elem_of_cons; by left).
    rewrite bool_decide_eq_false_2 in IH by done.
    simpl. by rewrite IH.
  - apply String.eqb_neq in E.
    assert (Hmem : bool_decide (g ∈ o :: order) = bool_decide (g ∈ order)).
    { apply bool_decide_ext. rewrite elem_of_cons.
      split; [intros [Heq|Hin]; [congruence|done]|by right]. }
    rewrite Hmem.
    destruct (dict_lookup rest o) as [x|]; [|done].
    simpl. rewrite IH. apply Permutation_app_swap_app.
Qed.

Lemma combine_groups_perm self grouped :
  NoDup grouped.*1 → NoDup (group_order self) →
  combine_groups self grouped ≡ₚ concat grouped.*2.
Proof.
  intros Hnd Hord. unfold combine_groups.
  induction grouped as [|[g l] rest IH]; simpl.
  { induction (group_order self) as [|o order IHo]; [done|].
    apply IHo. by apply NoDup_cons in Hord as [_ ?]. }
  apply NoDup_cons in Hnd as [Hg Hnd]. specialize (IH Hnd).
  rewrite (lookup_cons_concat g l rest (group_order self) Hord
             (dict_lookup_absent rest g Hg)).
  destruct (decide (g ∈ group_order self)) as [Hin|Hout].
  - rewrite bool_decide_eq_true_2 by done.
    rewrite filter_cons_False by (simpl; tauto).
    rewrite <- app_assoc. by rewrite IH.
  - rewrite bool_decide_eq_false_2 by done.
    rewrite filter_cons_True by done. simpl.
    rewrite Permutation_app_swap_app. by rewrite IH.
Qed.

Lemma dict_append_keys_nodup {A} (d : list (string * list A)) g x :
  NoDup d.*1 → NoDup (dict_append d g x).*1.
Proof.
  induction d as [|[k items] d IH]; simpl.
  { intros _. apply NoDup_singleton. }
  intros [Hk Hnd]%NoDup_cons.
  destruct (k =? g)%string eqn:E; simpl.
  - by apply NoDup_cons.
  - apply NoDup_cons. split; [|by apply IH].
    apply String.eqb_neq in E. clear IH Hnd.
    induction d as [|[k' items'] d IHd]; simpl.
    + intros [?|?%elem_of_nil]%elem_of_cons; done.
    + apply not_elem_of_cons in Hk as [Hne Hk].
      destruct (k' =? g)%string; simpl.
      * apply not_elem_of_cons. done.
      * apply not_elem_of_cons. split; [done|by apply IHd].
Qed.

Lemma dict_append_concat {A} (d : list (string * list A)) g x :
  concat (dict_append d g x).*2 ≡ₚ x :: concat d.*2.
Proof.
  induction d as [|[k items] d IH]; [done|]. simpl.
  destruct (k =? g)%string; simpl.
  - rewrite <- app_assoc. simpl. by rewrite <- Permutation_middle.
  - rewrite IH. by rewrite <- Permutation_middle.
Qed.

Lemma group_imports_perm self imports :
  NoDup (group_imports self imports).*1 ∧
  concat (group_imports self imports).*2 ≡ₚ tagged self <$> imports.
Proof.
  unfold group_imports.
  induction imports as [|imp imports [IHk IHc]] using rev_ind.
  { split; [constructor|done]. }
  rewrite foldl_app, fmap_app. simpl. split.
  - by apply dict_append_keys_nodup.
  - rewrite dict_append_concat, IHc. apply Permutation_cons_append.
Qed.

(** With package-first sorting switched off (and no group named twice in
    [group_order]), [_sort_imports] never raises, and its result holds every
    import exactly once, paired with its group: sorting and regrouping
    neither lose nor duplicate an import. *)
Theorem sort_imports_keeps_every_import self imports :
  sort_by_package_then_name self = false →
  NoDup (group_order self) →
  ∃ sorted, _sort_imports self imports = Return sorted ∧
            sorted ≡ₚ tagged self <$> imports.
Proof.
  intros Hpkg Hord. unfold _sort_imports.
  destruct (group_imports_perm self imports) as [Hk Hc].
  destruct (sort_groups_same_kind self (group_imports self imports) Hpkg)
    as (grouped' & -> & Hk' & Hc').
  eexists. split; [done|].
  rewrite combine_groups_perm; [|by rewrite Hk'|done].
  by rewrite Hc', Hc.
Qed.

Lemma sort_imports_keeps_every_import_witness :
  ∃ sorted,
    _sort_imports plain_sorter
      [import_stmt "requests.adapters"; import_stmt "os";
       import_stmt "requests"] = Return sorted ∧
    sorted ≡ₚ tagged plain_sorter <$>
              [import_stmt "requests.adapters"; import_stmt "os";
               import_stmt "requests"].
Proof.
  apply (sort_imports_keeps_every_import plain_sorter).
  - reflexivity.
  - apply (bool_decide_unpack _). by vm_compute.
Defined.

End SortKeepsImports.

(** ** The in-progress flag of the import sorter *)

Section SorterFlag.
Import Base ImportSorter.

Lemma render_imports_pure self line_gen sorted current import_lines ctx :
  pure_renderer line_gen →
  ∃ lines, render_imports self line_gen sorted current import_lines ctx
           = (Return lines, ctx).
Proof.
  intros Hpure. revert current import_lines.
  induction sorted as [|[imp g] sorted IH]; intros current import_lines.
  { by eexists. }
  cbn [render_imports]. destruct (Hpure imp ctx) as (l & ->). apply IH.
Qed.

Lemma render_others_pure line_gen nodes other_lines ctx :
  pure_renderer line_gen →
  ∃ lines, render_others line_gen nodes other_lines ctx = (Return lines, ctx).
Proof.
  intros Hpure. revert other_lines.
  induction nodes as [|n nodes IH]; intros other_lines; [by eexists|].
  cbn [render_others]. destruct (Hpure n ctx) as (l & ->). apply IH.
Qed.

(** The flag "import_sorting_in_progress" around module processing, for a
    host renderer that returns and leaves the context alone: a module
    without imports is declined with the context untouched; a module whose
    imports sort without error yields lines and a context from which the
    flag has been removed -- also when the flag was set before the call. *)
Theorem module_processing_clears_flag self node line_gen ctx :
  pure_renderer line_gen →
  (_extract_imports node = [] →
     _process_module_imports self node line_gen ctx = (Return None, ctx)) ∧
  (∀ sorted,
     _extract_imports node ≠ [] →
     _sort_imports self (_extract_imports node) = Return sorted →
     ∃ lines,
       _process_module_imports self node line_gen ctx
       = (Return (Some lines), delete in_progress_key ctx)).
Proof.
  intros Hpure. unfold _process_module_imports. split.
  - by intros ->.
  - intros sorted Hne Hsort. rewrite Hsort.
    destruct (_extract_imports node) as [|imp imports]; [done|].
    destruct (render_imports_pure self line_gen sorted None []
                (<[in_progress_key := VBool true]> ctx) Hpure) as (il & ->).
    destruct (render_others_pure line_gen
                (filter (fun child => is_import child = false) (children node))
                [] (<[in_progress_key := VBool true]> ctx) Hpure) as (ol & ->).
    eexists. by rewrite delete_insert_eq.
Qed.

Lemma module_processing_clears_flag_witness :
  (_extract_imports mixed_module = [] →
     _process_module_imports plain_sorter mixed_module code_renderer
       (<[in_progress_key := VBool true]> ∅)
     = (Return None, <[in_progress_key := VBool true]> ∅)) ∧
  (∀ sorted,
     _extract_imports mixed_module ≠ [] →
     _sort_imports plain_sorter (_extract_imports mixed_module)
       = Return sorted →
     ∃ lines,
       _process_module_imports plain_sorter mixed_module code_renderer
         (<[in_progress_key := VBool true]> ∅)
       = (Return (Some lines),
          delete in_progress_key (<[in_progress_key := VBool true]> ∅))).
Proof.
  apply (module_processing_clears_flag plain_sorter mixed_module code_renderer
           (<[in_progress_key := VBool true]> ∅)).
  intros node ctx. by eexists.
Defined.

End SorterFlag.

(** ** The string normaliser *)

Section Normaliser.
Import Base ImportSorter StringNormalizer.

Lemma contains_char_head c s : contains_char c (String c s) = true.
Proof. simpl. by rewrite Ascii.eqb_refl. Qed.

Lemma normalize_line_cases self line :
  normalize_line self line = line ∨
  (quotes self = "double" ∧
   normalize_line self line = String dquote (inner line +:+ String dquote "")) ∨
  (quotes self = "single" ∧
   normalize_line self line = String squote (inner line +:+ String squote "")).
Proof.
  unfold normalize_line.
  destruct ((quotes self =? "double")%string && contains_char squote line
            && negb (contains_char dquote line)) eqn:Hd.
  - destruct (quoted_with squote line); [|by left].
    apply andb_true_iff in Hd as [[Hq _]%andb_true_iff _].
    apply String.eqb_eq in Hq. right. by left.
  - destruct ((quotes self =? "single")%string && contains_char dquote line
              && negb (contains_char squote line)) eqn:Hs; [|by left].
    destruct (quoted_with dquote line); [|by left].
    apply andb_true_iff in Hs as [[Hq _]%andb_true_iff _].
    apply String.eqb_eq in Hq. right. by right.
Qed.

Lemma normalize_line_idempotent self line :
  normalize_line self (normalize_line self line) = normalize_line self line.
Proof.
  destruct (normalize_line_cases self line) as [H|[[Hq H]|[Hq H]]];
    rewrite H; [done| |].
  - unfold normalize_line. rewrite Hq, contains_char_head. simpl.
    by rewrite andb_false_r.
  - unfold normalize_line. rewrite Hq, contains_char_head. simpl.
    by rewrite andb_false_r.
Qed.

Lemma normalize_string_lines_length self lines :
  length (_normalize_string_lines self lines) = length lines ∧
  (length lines ≠ 1%nat → _normalize_string_lines self lines = lines).
Proof.
  unfold _normalize_string_lines.
  destruct lines as [|line [|line' lines]]; [done| |done].
  by destruct (negb (quotes self =? "default")%string).
Qed.

(** Normalising is idempotent and keeps the number of lines; a result of
    more than one line, or of none, is returned as it is. *)
Theorem normalize_string_lines_idempotent self lines :
  _normalize_string_lines self (_normalize_string_lines self lines)
    = _normalize_string_lines self lines ∧
  length (_normalize_string_lines self lines) = length lines ∧
  (length lines ≠ 1%nat → _normalize_string_lines self lines = lines).
Proof.
  unfold _normalize_string_lines.
  destruct lines as [|line [|line' lines]]; [done| |done].
  destruct (negb (quotes self =? "default")%string) eqn:Hq; simpl;
    rewrite ?Hq, ?normalize_line_idempotent; done.
Qed.

(** The normaliser never defers: whenever the host renderer returns lines
    for a node, [apply_plugin] returns a result with the same number of
    lines and the context the renderer left, so plugins registered after it
    are never consulted; only a one-line rendering can be rewritten. *)
Theorem normalizer_never_defers self rest line_gen node ctx lines ctx' :
  line_gen node ctx = (Return lines, ctx') →
  ∃ lines',
    normalizer_apply_plugin self line_gen node ctx
      = (Return (Some lines'), ctx') ∧
    Dispatch.visit (normalizer_plugin self :: rest) line_gen node ctx
      = (Return lines', ctx', []) ∧
    length lines' = length lines ∧
    (length lines ≠ 1%nat → lines' = lines).
Proof.
  intros Hl.
  cut (∃ lines',
         normalizer_apply_plugin self line_gen node ctx
           = (Return (Some lines'), ctx') ∧
         length lines' = length lines ∧
         (length lines ≠ 1%nat → lines' = lines)).
  { intros (lines' & Ha & Hlen & Hsame). exists lines'.
    repeat split; try done. unfold Dispatch.visit. simpl. by rewrite Ha. }
  assert (Hhost : returning (line_gen node ctx) = (Return (Some lines), ctx'))
    by (unfold returning; by rewrite Hl).
  unfold normalizer_apply_plugin.
  destruct (negb _); [by exists lines|].
  destruct (negb (normalize_docstrings self) && _); [by exists lines|].
  destruct (_should_process_node self node); [|by exists lines].
  unfold returning, _process_string_node. rewrite Hl.
  destruct lines as [|line lines]; [by exists []|].
  destruct (normalize_string_lines_length self (line :: lines))
    as (Hlen & Hsame).
  by exists (_normalize_string_lines self (line :: lines)).
Qed.

End Normaliser.

Section NormaliserWitness.
Import Base ImportSorter StringNormalizer.

Lemma normalizer_never_defers_witness :
  ∃ lines',
    normalizer_apply_plugin default_normalizer code_renderer
      (leaf "string" "'abc'") ∅ = (Return (Some lines'), ∅) ∧
    Dispatch.visit
      (normalizer_plugin default_normalizer :: [sorter_plugin default_sorter])
      code_renderer (leaf "string" "'abc'") ∅ = (Return lines', ∅, []) ∧
    length lines' = length ["'abc'"] ∧
    (length ["'abc'"] ≠ 1%nat → lines' = ["'abc'"]).
Proof.
  apply (normalizer_never_defers default_normalizer
           [sorter_plugin default_sorter] code_renderer
           (leaf "string" "'abc'") ∅ ["'abc'"] ∅).
  reflexivity.
Defined.

End NormaliserWitness.
